(** * caproto.threading.pyepics_compat: a shallow embedding

    The module [pyepics_compat] wraps a caproto channel in a pyepics-style
    [PV] handle.  This development embeds the translator functions, the
    handle and the batch helper [caput_many] as Rocq functions and checks
    the properties stated about them.

    Conventions of the embedding:
    - Python values that travel through the handle are the type [pyval];
    - a Python [dict] keyed by names is a [gmap string pyval];
    - a function that can raise returns [Res]; a method of the handle is a
      state transformer over [World] (the handle, its channel, and the log
      of calls made to the channel and to user callbacks);
    - numeric payloads are integer arrays (floating point payloads are not
      represented; no property below depends on element arithmetic). *)

From stdpp Require Import base option list strings gmap sorting.
From Stdlib Require Import ZArith Ascii Lia.

#[local] Set Warnings "-register-all".
Local Open Scope string_scope.
Local Open Scope Z_scope.

(** ** Channel types *)

Inductive DbrClass := NATIVE | STS | TIME | GR | CTRL.
Inductive Basic := B_STRING | B_INT | B_FLOAT | B_ENUM | B_CHAR | B_LONG | B_DOUBLE.

(** [caproto.ChannelType]: the seven native codes, their status, time,
    graphic and control variants, and the four special codes. *)
Inductive ChannelType :=
| DBR (c : DbrClass) (b : Basic)
| PUT_ACKT | PUT_ACKS | STSACK_STRING | CLASS_NAME.

#[global] Instance DbrClass_eq_dec : EqDecision DbrClass.
Proof. solve_decision. Defined.
#[global] Instance Basic_eq_dec : EqDecision Basic.
Proof. solve_decision. Defined.
#[global] Instance ChannelType_eq_dec : EqDecision ChannelType.
Proof. solve_decision. Defined.

Definition STRING := DBR NATIVE B_STRING.
Definition INT := DBR NATIVE B_INT.
Definition ENUM := DBR NATIVE B_ENUM.
Definition CHAR := DBR NATIVE B_CHAR.
Definition DOUBLE := DBR NATIVE B_DOUBLE.
Definition STS_INT := DBR STS B_INT.
Definition STS_CHAR := DBR STS B_CHAR.
Definition TIME_STRING := DBR TIME B_STRING.
Definition TIME_INT := DBR TIME B_INT.
Definition TIME_ENUM := DBR TIME B_ENUM.
Definition TIME_CHAR := DBR TIME B_CHAR.
Definition TIME_DOUBLE := DBR TIME B_DOUBLE.
Definition CTRL_INT := DBR CTRL B_INT.
Definition CTRL_ENUM := DBR CTRL B_ENUM.
Definition CTRL_CHAR := DBR CTRL B_CHAR.
Definition CTRL_DOUBLE := DBR CTRL B_DOUBLE.

(** Modelled from the spec: the tables [ca.char_types], [ca.string_types],
    [ca.enum_types] and [field_types] are imported from the [caproto]
    package and are not part of this file.  The character, string and
    enumerated types are the native code and its status, time and control
    variants (the keys of [re_map] in [get_with_metadata] for the character
    types). *)
Definition char_types : list ChannelType :=
  [CHAR; TIME_CHAR; CTRL_CHAR; STS_CHAR].
Definition string_types : list ChannelType :=
  [STRING; TIME_STRING; DBR CTRL B_STRING; DBR STS B_STRING].
Definition enum_types : list ChannelType :=
  [ENUM; DBR STS B_ENUM; TIME_ENUM; CTRL_ENUM].


(** Modelled from the spec: [field_types[type_key][native_type]], the
    promotion of a native type code to the requested form.  A missing
    [type_key] or a non-native type code is a [KeyError] ([None] here). *)
Definition field_class (type_key : string) : option DbrClass :=
  if decide (type_key = "native") then Some NATIVE
  else if decide (type_key = "status") then Some STS
  else if decide (type_key = "time") then Some TIME
  else if decide (type_key = "graphic") then Some GR
  else if decide (type_key = "control") then Some CTRL
  else None.

Definition field_types (type_key : string) (t : ChannelType) : option ChannelType :=
  match field_class type_key, t with
  | Some c, DBR NATIVE b => Some (DBR c b)
  | _, _ => None
  end.

(** Modelled from the spec: [AUTOMONITOR_MAXLENGTH] of
    [caproto.client.common]. *)
Definition AUTOMONITOR_MAXLENGTH : Z := 65536.

(** ** Python values *)

(** A numpy array: item size in bytes, whether its byte order is the
    host's, and its elements. *)
Record ndarray := NdArray {
  a_itemsize : nat;
  a_isnative : bool;
  a_data : list Z
}.

Inductive pyval :=
| PNone
| PBool (b : bool)
| PInt (z : Z)              (* a Python int *)
| PNp (z : Z)               (* a numpy scalar, the result of [array[i]] *)
| PStr (s : string)         (* text *)
| PBytes (s : string)       (* bytes *)
| PSeq (l : list pyval)     (* a list or a tuple *)
| PArr (a : ndarray)        (* a numpy array *)
| PType (t : ChannelType)
| PStamp (sec nano : Z)     (* a timestamp, kept as exact seconds and nanoseconds *)
| PSelf.                    (* a reference to the handle itself *)

Inductive exn :=
| CaprotoTimeoutError | CaprotoValueError | CaprotoRuntimeError
| CaprotoNotImplementedError | AccessRightsException
| TypeError | IndexError | KeyError | AttributeError | RecursionError
| UserError.                (* whatever a user callback raises *)

(** [CaprotoTimeoutError] is the only one of these deriving from the
    builtin [TimeoutError]. *)
Definition is_TimeoutError (e : exn) : bool :=
  match e with CaprotoTimeoutError => true | _ => false end.

Inductive Res (A : Type) :=
| Ok (a : A)
| Raise (e : exn).
Arguments Ok {A} a.
Arguments Raise {A} e.

Definition res_bind {A B} (r : Res A) (k : A -> Res B) : Res B :=
  match r with Ok a => k a | Raise e => Raise e end.

(** Python's [x in tuple_of_types]; [x] may be [None]. *)
Definition type_in (v : pyval) (l : list ChannelType) : bool :=
  match v with PType t => bool_decide (t ∈ l) | _ => false end.

Definition is_None (v : pyval) : bool :=
  match v with PNone => true | _ => false end.

(** Truth value of a Python object. *)
Definition truthy (v : pyval) : bool :=
  match v with
  | PNone => false
  | PBool b => b
  | PInt z | PNp z => negb (z =? 0)
  | PStr s | PBytes s => negb (String.eqb s "")
  | PSeq l => match l with [] => false | _ => true end
  | PArr a => match a_data a with [] => false | [z] => negb (z =? 0) | _ => true end
  | PType _ | PStamp _ _ | PSelf => true
  end.

(** [len(v)]; scalars and [None] have no length. *)
Definition py_len (v : pyval) : Res nat :=
  match v with
  | PStr s | PBytes s => Ok (String.length s)
  | PSeq l => Ok (length l)
  | PArr a => Ok (length (a_data a))
  | _ => Raise TypeError
  end.

(** [l[i]] on a Python sequence: a negative index counts from the end. *)
Definition seq_getitem {A} (l : list A) (i : Z) : Res A :=
  let n := Z.of_nat (length l) in
  let j := if i <? 0 then i + n else i in
  if (0 <=? j) && (j <? n) then
    match l !! Z.to_nat j with Some x => Ok x | None => Raise IndexError end
  else Raise IndexError.

(** [v[i]] on any indexable value. *)
Definition py_getitem (v : pyval) (i : Z) : Res pyval :=
  match v with
  | PSeq l => seq_getitem l i
  | PArr a => res_bind (seq_getitem (a_data a) i) (fun z => Ok (PNp z))
  | PStr s =>
      res_bind (seq_getitem (String.list_ascii_of_string s) i) (fun c => Ok (PStr (String c "")))
  | PBytes s =>
      res_bind (seq_getitem (String.list_ascii_of_string s) i) (fun c => Ok (PInt (Z.of_N (N_of_ascii c))))
  | _ => Raise TypeError
  end.

(** [bytes.decode(STR_ENC)]: one character per byte. *)
Definition decode (b : string) : string := b.

(** [array.tolist()]. *)
Definition tolist (a : ndarray) : pyval := PSeq (PInt <$> a_data a).

(** [array.tobytes()]: every element laid out on [a_itemsize] bytes, least
    significant byte first when the array is in host order. *)
Fixpoint le_bytes (n : nat) (z : Z) : list Z :=
  match n with
  | O => []
  | S n' => (z mod 256) :: le_bytes n' (z / 256)
  end.

Definition tobytes (a : ndarray) : list Z :=
  mbind (M := list) (fun z => let bs := le_bytes (a_itemsize a) z in
                   if a_isnative a then bs else rev bs) (a_data a).

Fixpoint until_nul (bs : list Z) : list Z :=
  match bs with
  | [] => []
  | b :: r => if b =? 0 then [] else b :: until_nul r
  end.

Definition string_of_bytes (bs : list Z) : string :=
  fold_right (fun b s => String (ascii_of_N (Z.to_N b)) s) "" bs.

(** Iterating over a Python value ([for x in v]). *)
Definition py_iter (v : pyval) : Res (list pyval) :=
  match v with
  | PSeq l => Ok l
  | PArr a => Ok (PNp <$> a_data a)
  | _ => Raise TypeError
  end.

(** [a or b]. *)
Definition py_or (a b : pyval) : pyval := if truthy a then a else b.

(** [v == n] for an integer literal [n]. *)
Definition py_eq_int (v : pyval) (n : Z) : bool :=
  match v with
  | PInt z | PNp z => z =? n
  | PBool b => (if b then 1 else 0) =? n
  | _ => false
  end.

(** The integer behind an index-like value. *)
Definition py_index (v : pyval) : Res Z :=
  match v with
  | PInt z | PNp z => Ok z
  | PBool b => Ok (if b then 1 else 0)
  | _ => Raise TypeError
  end.

(** A list comprehension whose body can raise. *)
Fixpoint res_map {A B} (f : A -> Res B) (l : list A) : Res (list B) :=
  match l with
  | [] => Ok []
  | x :: r => res_bind (f x) (fun y => res_bind (res_map f r) (fun ys => Ok (y :: ys)))
  end.

(** ** Decoded responses *)

(** The DBR structure attached to a response.  [md_attrs] holds the plain
    attributes the structure has (status, severity, precision, limits);
    units, enum strings and the time stamp are typed. *)
Record Metadata := {
  md_attrs : gmap string pyval;
  md_units : option string;
  md_enum_strings : option (list string);
  md_stamp : option (Z * Z)       (* secondsSinceEpoch, nanoSeconds *)
}.

(** A [ReadResponse] (or [EventAddResponse]) command. *)
Record Command := {
  data : pyval;
  data_type : ChannelType;
  data_count : Z;
  metadata : Metadata
}.

(** The attributes of [arg_map] that are copied under their own name. *)
Definition arg_map_plain : list string :=
  ["status"; "severity"; "precision";
   "upper_disp_limit"; "lower_disp_limit"; "upper_alarm_limit";
   "upper_warning_limit"; "lower_warning_limit"; "lower_alarm_limit";
   "upper_ctrl_limit"; "lower_ctrl_limit"].

(** Modelled from the spec: [ca.epics_timestamp_to_unix] adds the fixed
    protocol epoch offset to the seconds; the result is kept exact. *)
Definition EPICS2UNIX_EPOCH : Z := 631152000.
Definition epics_timestamp_to_unix (sec nano : Z) : pyval :=
  PStamp (sec + EPICS2UNIX_EPOCH) nano.

Definition decode_item (v : pyval) : pyval :=
  match v with PBytes b => PStr (decode b) | _ => v end.

Definition _parse_dbr_metadata (dbr_data : Metadata) : gmap string pyval :=
  let ret : gmap string pyval :=
    foldl (fun r attr => match md_attrs dbr_data !! attr with
                         | Some v => <[attr := v]> r
                         | None => r
                         end) ∅ arg_map_plain in
  let ret := match md_units dbr_data with
             | Some u => <["units" := PBytes u]> ret
             | None => ret
             end in
  let ret := match md_enum_strings dbr_data with
             | Some es => <["enum_strs" := PSeq (PBytes <$> es)]> ret
             | None => ret
             end in
  let ret := match ret !! "enum_strs" with
             | Some (PSeq ks) =>
                 if truthy (PSeq ks)
                 then <["enum_strs" := PSeq (decode_item <$> ks)]> ret
                 else ret
             | _ => ret
             end in
  let ret := match md_stamp dbr_data with
             | Some (sec, nano) =>
                 <["timestamp" := epics_timestamp_to_unix sec nano]>
                   (<["nanoseconds" := PInt nano]>
                      (<["posixseconds" := PInt sec]> ret))
             | None => ret
             end in
  match ret !! "units" with
  | Some (PBytes u) => <["units" := PStr (decode u)]> ret
  | _ => ret
  end.

Definition _scalarify (data : pyval) (ntype : ChannelType) (count : Z) : Res pyval :=
  if (count =? 1) && negb (type_in (PType ntype) [CHAR; STRING])
  then py_getitem data 0
  else Ok data.

(** [dict.get(key, None)]. *)
Definition dict_get (d : gmap string pyval) (k : string) : pyval :=
  default PNone (d !! k).

(** The display text of one enum index: [enum_strings[idx] if 0 <= idx <
    len(enum_strings) else '']. *)
Definition enum_text (enum_strings : pyval) (idx : pyval) : Res pyval :=
  res_bind (py_index idx) (fun i =>
    if 0 <=? i then
      res_bind (py_len enum_strings) (fun n =>
        if i <? Z.of_nat n then py_getitem enum_strings i else Ok (PStr ""))
    else Ok (PStr "")).

(** [if len(x) == 1: x = x[0]] on a list. *)
Definition unwrap_single (l : list pyval) : pyval :=
  match l with [x] => x | _ => PSeq l end.

Definition _read_response_to_pyepics (full_type : pyval)
    (command : Command) (enum_strings : pyval) : Res (gmap string pyval) :=
  let info := _parse_dbr_metadata (metadata command) in
  let value := data command in
  let info := <["raw_value" := value]> info in
  res_bind (_scalarify value (data_type command) (data_count command)) (fun sv =>
  let info := <["value" := sv]> info in
  if type_in full_type char_types then
    match value with
    | PArr a =>
        let value := PStr (decode (string_of_bytes (until_nul (tobytes a)))) in
        Ok (<["char_value" := value]> info)
    | _ => Raise AttributeError
    end
  else if type_in full_type string_types then
    res_bind (py_iter value) (fun vs =>
    res_bind (res_map (fun v => match v with
                                | PBytes b => Ok (PStr (decode b))
                                | _ => Raise AttributeError
                                end) vs) (fun value =>
    let value := unwrap_single value in
    Ok (<["char_value" := value]> (<["value" := value]> info))))
  else if type_in full_type enum_types then
    let enum_strings := py_or (dict_get info "enum_strs") enum_strings in
    res_bind
      (if is_None enum_strings then
         res_bind (py_len value) (fun n => Ok (replicate n PNone))
       else
         res_bind (py_iter value) (fun idxs =>
           res_map (enum_text enum_strings) idxs)) (fun char_value =>
    Ok (<["char_value" := unwrap_single char_value]> info))
  else
    Ok (<["char_value" := PNone]> info)).

(** The [enum] branch of [_pyepics_get_value]: [enum_strings[r]], the empty
    text on an [IndexError]. *)
Definition enum_lookup (enum_strings : pyval) (r : pyval) : Res pyval :=
  res_bind (py_index r) (fun i =>
    match py_getitem enum_strings i with
    | Ok s => Ok s
    | Raise IndexError => Ok (PStr "")
    | Raise e => Raise e
    end).

(** The branches of [_pyepics_get_value] that follow the two [as_string]
    tests: they work on the raw value only. *)
Definition raw_value_path (value native_count : pyval)
    (requested_count : option Z) (as_numpy : bool) : Res pyval :=
  res_bind (if py_eq_int native_count 1
            then res_bind (py_len value) (fun n => Ok (Nat.eqb n 1))
            else Ok false) (fun single =>
  if single then
    match requested_count with
    | None => match value with
              | PArr a => py_getitem (tolist a) 0
              | _ => Raise AttributeError
              end
    | Some _ => Ok value
    end
  else if negb as_numpy then
    match value with
    | PArr a => Ok (tolist a)
    | _ => Raise AttributeError
    end
  else
    match value with
    | PArr a =>
        if negb (a_isnative a)
        then Ok (PArr {| a_itemsize := a_itemsize a; a_isnative := true; a_data := a_data a |})
        else Ok value
    | _ => Raise AttributeError
    end).

Definition _pyepics_get_value (value string_value : pyval)
    (full_type : pyval) (native_count : pyval)
    (requested_count : option Z) (enum_strings : pyval)
    (as_string as_numpy : bool) : Res pyval :=
  if (as_string && type_in full_type char_types) || type_in full_type string_types
  then Ok string_value
  else if as_string && type_in full_type enum_types then
    if is_None enum_strings then Raise CaprotoValueError
    else
      res_bind (py_iter value) (fun rs =>
      res_bind (res_map (enum_lookup enum_strings) rs) (fun ret =>
      Ok (unwrap_single ret)))
  else raw_value_path value native_count requested_count as_numpy.

(** ** The handle, its channel and the environment *)

(** A user-supplied callable, by name. *)
Definition cbid := nat.

Inductive Timeout :=
| TNone                     (* [None] *)
| TSeconds (ms : Z)         (* a number of seconds, in milliseconds *)
| TLogCount (count : Z).    (* [1.0 + log10(max(1, count))] *)

(** [self.auto_monitor]: unset, a boolean, or an explicit event mask. *)
Inductive AutoMonitor := AM_None | AM_Bool (b : bool) | AM_Mask (m : Z).

Definition am_truthy (a : AutoMonitor) : bool :=
  match a with AM_None => false | AM_Bool b => b | AM_Mask m => negb (m =? 0) end.

(** [SubscriptionType.DBE_VALUE | SubscriptionType.DBE_ALARM]. *)
Definition DEFAULT_SUBSCRIPTION_MASK : Z := Z.lor 1 4.

(** [_caproto_pv.channel]. *)
Record ChannelInfo := {
  native_data_type : ChannelType;
  native_data_count : Z;
  access_rights : Z
}.

(** The channel object [_caproto_pv], as far as the handle looks at it. *)
Record CaPV := {
  ca_connected : bool;
  ca_channel : option ChannelInfo
}.

Record Subscription := {
  sub_data_type : pyval;
  sub_data_count : option Z;
  sub_mask : Z
}.

Record PV := {
  pvname : string;
  form : string;
  auto_monitor : AutoMonitor;
  _connected : bool;
  _connect_event : bool;
  connection_timeout : Timeout;
  default_count : option Z;
  _auto_monitor_sub : option Subscription;
  _args : gmap string pyval;
  connection_callbacks : list cbid;
  access_callbacks : list cbid;
  callbacks : gmap Z (cbid * gmap string pyval);
  _cb_count : Z;              (* the next value of [itertools.count()] *)
  _caproto_pv : CaPV
}.

(** What [_caproto_pv.wait_for_connection] does: it times out, or it
    returns with the channel object in a new state, the connection
    notification having been delivered to the handle ([Some state]) or not
    before the handle stops waiting on its event. *)
Inductive ConnOutcome :=
| CO_Timeout
| CO_Returns (ch : CaPV) (notified : option string).

(** What [_caproto_pv.write] does: it times out, or it returns; the
    completion callback is run when the server acknowledged the write. *)
Inductive WriteOutcome :=
| WO_Timeout
| WO_Returns (completed : bool).

(** The environment: the outcomes of the successive calls to the channel,
    and the user callbacks that raise. *)
Record Env := {
  conn_script : list ConnOutcome;
  read_script : list (option Command);
  write_script : list WriteOutcome;
  cb_raises : cbid -> bool
}.

(** Calls that leave the handle. *)
Inductive Event :=
| EvWaitForConnection (timeout : Timeout)
| EvSubscribe (data_type : pyval) (data_count : option Z) (mask : Z)
| EvRead (data_type : ChannelType) (data_count : option Z) (timeout : Timeout)
| EvReadMeta (data_type : ChannelType) (timeout : Timeout)
| EvWrite (value : pyval) (wait : bool) (callback : bool) (timeout : Timeout) (notify : bool)
| EvGoIdle
| EvConnectionCallback (cb : cbid) (name : string) (conn : bool)
| EvAccessCallback (cb : cbid) (read_access write_access : bool)
| EvCallback (cb : cbid) (kwd : gmap string pyval)
| EvPutCallback (cb : cbid) (callback_data : list pyval).

Record World := {
  pv : PV;
  env : Env;
  trace : list Event          (* oldest first *)
}.

(** *** Field updates *)

Definition set_auto_monitor (x : AutoMonitor) (p : PV) : PV :=
  {| pvname := pvname p; form := form p; auto_monitor := x;
     _connected := _connected p; _connect_event := _connect_event p;
     connection_timeout := connection_timeout p; default_count := default_count p;
     _auto_monitor_sub := _auto_monitor_sub p; _args := _args p;
     connection_callbacks := connection_callbacks p;
     access_callbacks := access_callbacks p; callbacks := callbacks p;
     _cb_count := _cb_count p; _caproto_pv := _caproto_pv p |}.

Definition set__connected (x : bool) (p : PV) : PV :=
  {| pvname := pvname p; form := form p; auto_monitor := auto_monitor p;
     _connected := x; _connect_event := _connect_event p;
     connection_timeout := connection_timeout p; default_count := default_count p;
     _auto_monitor_sub := _auto_monitor_sub p; _args := _args p;
     connection_callbacks := connection_callbacks p;
     access_callbacks := access_callbacks p; callbacks := callbacks p;
     _cb_count := _cb_count p; _caproto_pv := _caproto_pv p |}.

Definition set__connect_event (x : bool) (p : PV) : PV :=
  {| pvname := pvname p; form := form p; auto_monitor := auto_monitor p;
     _connected := _connected p; _connect_event := x;
     connection_timeout := connection_timeout p; default_count := default_count p;
     _auto_monitor_sub := _auto_monitor_sub p; _args := _args p;
     connection_callbacks := connection_callbacks p;
     access_callbacks := access_callbacks p; callbacks := callbacks p;
     _cb_count := _cb_count p; _caproto_pv := _caproto_pv p |}.

Definition set__auto_monitor_sub (x : option Subscription) (p : PV) : PV :=
  {| pvname := pvname p; form := form p; auto_monitor := auto_monitor p;
     _connected := _connected p; _connect_event := _connect_event p;
     connection_timeout := connection_timeout p; default_count := default_count p;
     _auto_monitor_sub := x; _args := _args p;
     connection_callbacks := connection_callbacks p;
     access_callbacks := access_callbacks p; callbacks := callbacks p;
     _cb_count := _cb_count p; _caproto_pv := _caproto_pv p |}.

Definition set__args (x : gmap string pyval) (p : PV) : PV :=
  {| pvname := pvname p; form := form p; auto_monitor := auto_monitor p;
     _connected := _connected p; _connect_event := _connect_event p;
     connection_timeout := connection_timeout p; default_count := default_count p;
     _auto_monitor_sub := _auto_monitor_sub p; _args := x;
     connection_callbacks := connection_callbacks p;
     access_callbacks := access_callbacks p; callbacks := callbacks p;
     _cb_count := _cb_count p; _caproto_pv := _caproto_pv p |}.

Definition set_callbacks (x : gmap Z (cbid * gmap string pyval)) (p : PV) : PV :=
  {| pvname := pvname p; form := form p; auto_monitor := auto_monitor p;
     _connected := _connected p; _connect_event := _connect_event p;
     connection_timeout := connection_timeout p; default_count := default_count p;
     _auto_monitor_sub := _auto_monitor_sub p; _args := _args p;
     connection_callbacks := connection_callbacks p;
     access_callbacks := access_callbacks p; callbacks := x;
     _cb_count := _cb_count p; _caproto_pv := _caproto_pv p |}.

Definition set__cb_count (x : Z) (p : PV) : PV :=
  {| pvname := pvname p; form := form p; auto_monitor := auto_monitor p;
     _connected := _connected p; _connect_event := _connect_event p;
     connection_timeout := connection_timeout p; default_count := default_count p;
     _auto_monitor_sub := _auto_monitor_sub p; _args := _args p;
     connection_callbacks := connection_callbacks p;
     access_callbacks := access_callbacks p; callbacks := callbacks p;
     _cb_count := x; _caproto_pv := _caproto_pv p |}.

Definition set__caproto_pv (x : CaPV) (p : PV) : PV :=
  {| pvname := pvname p; form := form p; auto_monitor := auto_monitor p;
     _connected := _connected p; _connect_event := _connect_event p;
     connection_timeout := connection_timeout p; default_count := default_count p;
     _auto_monitor_sub := _auto_monitor_sub p; _args := _args p;
     connection_callbacks := connection_callbacks p;
     access_callbacks := access_callbacks p; callbacks := callbacks p;
     _cb_count := _cb_count p; _caproto_pv := x |}.

Definition set_conn_script (x : list ConnOutcome) (e : Env) : Env :=
  {| conn_script := x; read_script := read_script e;
     write_script := write_script e; cb_raises := cb_raises e |}.
Definition set_read_script (x : list (option Command)) (e : Env) : Env :=
  {| conn_script := conn_script e; read_script := x;
     write_script := write_script e; cb_raises := cb_raises e |}.
Definition set_write_script (x : list WriteOutcome) (e : Env) : Env :=
  {| conn_script := conn_script e; read_script := read_script e;
     write_script := x; cb_raises := cb_raises e |}.

(** *** The monad of methods: state and exceptions *)

Definition M (A : Type) : Type := World -> Res A * World.

Definition ret {A} (a : A) : M A := fun w => (Ok a, w).
Definition raise {A} (e : exn) : M A := fun w => (Raise e, w).
Definition bind {A B} (m : M A) (k : A -> M B) : M B :=
  fun w => match m w with
           | (Ok a, w') => k a w'
           | (Raise e, w') => (Raise e, w')
           end.

Declare Scope py_scope.
Delimit Scope py_scope with py.
Notation "x <- m ;; k" := (bind m (fun x => k))
  (at level 100, m at next level, right associativity) : py_scope.
Notation "m ;;; k" := (bind m (fun _ => k))
  (at level 100, right associativity) : py_scope.
Local Open Scope py_scope.

Definition lift {A} (r : Res A) : M A := fun w => (r, w).
Definition self : M PV := fun w => (Ok (pv w), w).
Definition update (f : PV -> PV) : M unit :=
  fun w => (Ok tt, {| pv := f (pv w); env := env w; trace := trace w |}).
Definition update_env (f : Env -> Env) : M unit :=
  fun w => (Ok tt, {| pv := pv w; env := f (env w); trace := trace w |}).
Definition the_env : M Env := fun w => (Ok (env w), w).
Definition emit (ev : Event) : M unit :=
  fun w => (Ok tt, {| pv := pv w; env := env w; trace := trace w ++ [ev] |}).

(** [try: body finally: fin]. *)
Definition try_finally {A} (body : M A) (fin : M unit) : M A :=
  fun w => match body w with
           | (r, w') => match fin w' with
                        | (Ok _, w'') => (r, w'')
                        | (Raise e, w'') => (Raise e, w'')
                        end
           end.

(** [try: body except Exception: pass]. *)
Definition swallow (body : M unit) : M unit :=
  fun w => match body w with (_, w') => (Ok tt, w') end.

(** [for x in l: f x]. *)
Fixpoint for_each {A} (l : list A) (f : A -> M unit) : M unit :=
  match l with
  | [] => ret tt
  | x :: r => f x ;;; for_each r f
  end.

(** [self._args[key]]. *)
Definition args_item (key : string) : M pyval :=
  p <- self ;;
  match _args p !! key with
  | Some v => ret v
  | None => raise KeyError
  end.

(** [self._args.update(d)]: the entries of [d] win. *)
Definition args_update (d : gmap string pyval) : M unit :=
  update (fun p => set__args (d ∪ _args p) p).

(** Calling a user callable: recorded, and raising if the environment says
    so. *)
Definition call_user (ev : Event) (cb : cbid) : M unit :=
  emit ev ;;;
  e <- the_env ;;
  if cb_raises e cb then raise UserError else ret tt.

(** ** Methods of [PV] *)

(** The [connected] property. *)
Definition PV_connected (p : PV) : bool :=
  ca_connected (_caproto_pv p) && _connect_event p.

Definition connected : M bool := p <- self ;; ret (PV_connected p).

Definition access_strs : list pyval :=
  [PStr "no access"; PStr "read-only"; PStr "write-only"; PStr "read/write"].

(** [flag in access_rights] on the [AccessRights] flags ([READ] is bit 0,
    [WRITE] is bit 1). *)
Definition READ_bit : Z := 0.
Definition WRITE_bit : Z := 1.

Definition _access_rights_changed (caproto_pv : CaPV) (rights : Z) : M unit :=
  update (set__caproto_pv caproto_pv) ;;;
  let read_access := Z.testbit rights READ_bit in
  let write_access := Z.testbit rights WRITE_bit in
  access <- lift (seq_getitem access_strs rights) ;;
  args_update (<["write_access" := PBool write_access]>
                 (<["read_access" := PBool read_access]>
                    {["access" := access]})) ;;;
  p <- self ;;
  for_each (access_callbacks p) (fun cb =>
    swallow (call_user (EvAccessCallback cb read_access write_access) cb)).

Definition typefull : M pyval := args_item "typefull".
Definition type_ : M pyval := args_item "type".

Definition _check_auto_monitor_sub (count : option Z) : M unit :=
  p <- self ;;
  if am_truthy (auto_monitor p) && negb (bool_decide (is_Some (_auto_monitor_sub p))) then
    let count := match count with None => default_count p | Some c => Some c end in
    let mask := match auto_monitor p with
                | AM_Bool true => DEFAULT_SUBSCRIPTION_MASK
                | AM_Mask m => m
                | AM_Bool false => 0
                | AM_None => 0
                end in
    tf <- typefull ;;
    emit (EvSubscribe tf count mask) ;;;
    update (set__auto_monitor_sub
              (Some {| sub_data_type := tf; sub_data_count := count; sub_mask := mask |}))
  else ret tt.

Definition type_key_of (form : string) : string :=
  if decide (form = "ctrl") then "control" else form.

(** [field_types[type_key][t]]. *)
Definition field_type_item (type_key : string) (t : pyval) : M ChannelType :=
  match t with
  | PType t =>
      match field_types type_key t with
      | Some ft => ret ft
      | None => raise KeyError
      end
  | _ => raise KeyError
  end.

Definition _connection_closed : M unit := update (set__connected false).

Definition _connection_established : M unit :=
  p <- self ;;
  let count := default_count p in
  match ca_channel (_caproto_pv p) with
  | None => ret tt
  | Some ch =>
      let type_key := type_key_of (form p) in
      ft <- field_type_item type_key (PType (native_data_type ch)) ;;
      args_update (<["type" := PType (native_data_type ch)]>
                     (<["typefull" := PType ft]>
                        (<["nelm" := PInt (native_data_count ch)]>
                           {["count" := PInt (native_data_count ch)]}))) ;;;
      _access_rights_changed (_caproto_pv p) (access_rights ch) ;;;
      p <- self ;;
      (match auto_monitor p with
       | AM_None =>
           let mcount := match count with Some c => c | None => native_data_count ch end in
           update (set_auto_monitor (AM_Bool (mcount <? AUTOMONITOR_MAXLENGTH)))
       | _ => ret tt
       end) ;;;
      _check_auto_monitor_sub None ;;;
      update (set__connected true)
  end.

Definition _connection_state_changed (caproto_pv : CaPV) (state : string) : M unit :=
  update (set__caproto_pv caproto_pv) ;;;
  let connected := bool_decide (state = "connected") in
  try_finally
    (if connected then _connection_established else ret tt)
    (if connected then update (set__connect_event true) else ret tt) ;;;
  p <- self ;;
  for_each (connection_callbacks p) (fun cb =>
    call_user (EvConnectionCallback cb (pvname p) connected) cb).

(** The channel's own [wait_for_connection], played by the environment.
    A notification that arrives is handled on the notification thread: its
    effect on the handle is applied, an exception it ends with stays on
    that thread.  Once the script is used up the channel times out. *)
Definition channel_wait_for_connection (timeout : Timeout) : M unit :=
  emit (EvWaitForConnection timeout) ;;;
  e <- the_env ;;
  match conn_script e with
  | [] => raise CaprotoTimeoutError
  | o :: rest =>
      update_env (set_conn_script rest) ;;;
      match o with
      | CO_Timeout => raise CaprotoTimeoutError
      | CO_Returns ch notified =>
          update (set__caproto_pv ch) ;;;
          match notified with
          | Some state => swallow (_connection_state_changed ch state)
          | None => ret tt
          end
      end
  end.

Definition wait_for_connection (timeout : Timeout) : M bool :=
  p <- self ;;
  let timeout := match timeout with TNone => connection_timeout p | t => t end in
  c <- connected ;;
  if c then ret true
  else
    update (set__connect_event false) ;;;
    channel_wait_for_connection timeout ;;;
    p <- self ;;
    let ok := _connect_event p in
    let ok := ok && PV_connected p in
    if negb ok then raise CaprotoTimeoutError else ret true.

Definition connect (timeout : Timeout) : M unit :=
  wait_for_connection timeout ;;; ret tt.

(** The decorator [ensure_connection]: [timeout_kw] is the [timeout]
    keyword of the call when it was passed, and [5.0] is used otherwise. *)
Definition ensure_connection {A} (timeout_kw : option Timeout) (func : M A) : M A :=
  wait_for_connection (match timeout_kw with Some t => t | None => TSeconds 5000 end) ;;;
  func.

(** [_caproto_pv.read], played by the environment: the next entry of the
    script is the response, [None] or a used-up script a timeout. *)
Definition channel_read (ev : Event) : M Command :=
  emit ev ;;;
  e <- the_env ;;
  match read_script e with
  | [] => raise CaprotoTimeoutError
  | o :: rest =>
      update_env (set_read_script rest) ;;;
      match o with
      | Some c => ret c
      | None => raise CaprotoTimeoutError
      end
  end.

Definition _read_and_update (dtype : ChannelType) (timeout : Timeout)
    : M (Command * gmap string pyval) :=
  command <- channel_read (EvReadMeta dtype timeout) ;;
  es <- args_item "enum_strs" ;;
  info <- lift (_read_response_to_pyepics (PType dtype) command es) ;;
  args_update info ;;;
  ret (command, info).

Definition force_read_access_rights : M unit :=
  ensure_connection None
    (p <- self ;;
     match ca_channel (_caproto_pv p) with
     | Some ch => _access_rights_changed (_caproto_pv p) (access_rights ch)
     | None => raise AttributeError
     end).

Definition get_ctrlvars : M (gmap string pyval) :=
  ensure_connection None
    (t <- type_ ;;
     dt <- field_type_item "control" t ;;
     r <- _read_and_update dt (TSeconds 5000) ;;
     force_read_access_rights ;;;
     ret (snd r)).

Definition get_timevars : M (gmap string pyval) :=
  ensure_connection None
    (t <- type_ ;;
     dt <- field_type_item "time" t ;;
     r <- _read_and_update dt (TSeconds 5000) ;;
     ret (snd r)).

(** *** Reading *)

(** The keyword arguments of [get_with_metadata].  [g_timeout] is [None]
    when the keyword is not passed. *)
Record GetArgs := {
  g_count : option Z;
  g_as_string : bool;
  g_as_numpy : bool;
  g_timeout : option Timeout;
  g_with_ctrlvars : bool;
  g_use_monitor : bool;
  g_form : option string;
  g_as_namespace : bool
}.

Definition re_map (dt : ChannelType) : option ChannelType :=
  if decide (dt = CHAR) then Some INT
  else if decide (dt = CTRL_CHAR) then Some CTRL_INT
  else if decide (dt = TIME_CHAR) then Some TIME_INT
  else if decide (dt = STS_CHAR) then Some STS_INT
  else None.

(** The test that sends [get_with_metadata] to the network:
    [(not use_monitor) or (self._auto_monitor_sub is None) or
     (cached_value is None) or
     (count is not None and count > len(cached_value))]. *)
Definition needs_network_read (use_monitor : bool) (sub : option Subscription)
    (cached_value : pyval) (count : option Z) : Res bool :=
  if negb use_monitor then Ok true
  else if negb (bool_decide (is_Some sub)) then Ok true
  else if is_None cached_value then Ok true
  else match count with
       | None => Ok false
       | Some c => res_bind (py_len cached_value) (fun n => Ok (Z.of_nat n <? c))
       end.

(** [md[key]] on a local dictionary. *)
Definition dict_item (d : gmap string pyval) (key : string) : M pyval :=
  match d !! key with Some v => ret v | None => raise KeyError end.

(** The body of [_getarg], given the method [get]. *)
Definition _getarg_with (get : M pyval) (arg : string) : M pyval :=
  v <- args_item "value" ;;
  (if is_None v then get ;;; ret tt else ret tt) ;;;
  a <- args_item arg ;;
  c <- connected ;;
  (if is_None a && c then
     if bool_decide (arg ∈ ["status"; "severity"; "timestamp"; "posixseconds"; "nanoseconds"])
     then get_timevars ;;; ret tt
     else get_ctrlvars ;;; ret tt
   else ret tt) ;;;
  p <- self ;;
  ret (dict_get (_args p) arg).

(** Lines 449-473 of [get_with_metadata]: the type code of the request,
    the test for a network read, and the read itself with the merge of its
    result into the cache and into [md]. *)
Definition get_with_metadata_fetch (type_key : string) (as_string use_monitor : bool)
    (count : option Z) (timeout : Timeout) (md : gmap string pyval)
    : M (gmap string pyval) :=
  t <- type_ ;;
  dt <- field_type_item type_key t ;;
  dtu <- (if negb as_string && type_in (PType dt) char_types
          then match re_map dt with
               | Some dt' => ret (dt', false)
               | None => raise KeyError
               end
          else ret (dt, use_monitor)) ;;
  let dt := fst dtu in
  let use_monitor := snd dtu in
  cached_value <- args_item "value" ;;
  p <- self ;;
  need <- lift (needs_network_read use_monitor (_auto_monitor_sub p) cached_value count) ;;
  if need then
    command <- channel_read (EvRead dt count timeout) ;;
    tf <- typefull ;;
    es <- args_item "enum_strs" ;;
    response <- lift (_read_response_to_pyepics tf command es) ;;
    args_update response ;;;
    ret (response ∪ md)
  else ret md.

(** The body of [get_with_metadata], given the method itself (for the
    control-form call) and the property [enum_strs].  The result is the
    dictionary [md]; [as_namespace] only changes its wrapping. *)
Definition get_with_metadata_body
    (recur : GetArgs -> M (gmap string pyval)) (enum_strs : M pyval)
    (a : GetArgs) : M (gmap string pyval) :=
  ensure_connection (g_timeout a)
    (p <- self ;;
     let form := match g_form a with None => form p | Some f => f end in
     let count := match g_count a with None => default_count p | Some c => Some c end in
     let timeout := match g_timeout a with
                    | None | Some TNone =>
                        match count with
                        | None => TSeconds 1000
                        | Some c => TLogCount c
                        end
                    | Some t => t
                    end in
     let type_key := type_key_of form in
     let use_monitor := g_use_monitor a in
     md <- (if g_with_ctrlvars a && negb (bool_decide (type_key ∈ ["control"; "native"]))
            then recur {| g_count := count; g_as_string := g_as_string a;
                          g_as_numpy := g_as_numpy a; g_timeout := Some timeout;
                          g_with_ctrlvars := false; g_use_monitor := use_monitor;
                          g_form := Some "control"; g_as_namespace := false |}
            else if use_monitor then ret (_args p)
            else ret ∅) ;;
     md <- get_with_metadata_fetch type_key (g_as_string a) use_monitor count timeout md ;;
     tf <- typefull ;;
     enum_strs <- (if g_as_string a && type_in tf enum_types then enum_strs else ret PNone) ;;
     raw_value <- dict_item md "raw_value" ;;
     char_value <- dict_item md "char_value" ;;
     tf <- typefull ;;
     native_count <- args_item "count" ;;
     v <- lift (_pyepics_get_value raw_value char_value tf native_count count
                  enum_strs (g_as_string a) (g_as_numpy a)) ;;
     ret (<["value" := v]> md)).

(** [get], given [get_with_metadata]. *)
Definition get_with (gwm : GetArgs -> M (gmap string pyval))
    (count : option Z) (as_string as_numpy : bool) (timeout : Timeout)
    (with_ctrlvars use_monitor : bool) : M pyval :=
  p <- self ;;
  data <- gwm {| g_count := count; g_as_string := as_string; g_as_numpy := as_numpy;
                 g_timeout := Some timeout; g_with_ctrlvars := with_ctrlvars;
                 g_use_monitor := use_monitor; g_form := Some (form p);
                 g_as_namespace := false |} ;;
  dict_item data "value".

(** The methods call each other: [get_with_metadata] reads the property
    [enum_strs], which is [_getarg], which calls [get], which is
    [get_with_metadata].  [depth] bounds the nesting of these calls, as the
    interpreter's recursion limit does. *)
Fixpoint get_with_metadata (depth : nat) (a : GetArgs) : M (gmap string pyval) :=
  match depth with
  | O => raise RecursionError
  | S d =>
      get_with_metadata_body
        (get_with_metadata d)
        (_getarg_with (get_with (get_with_metadata d) None false true TNone false true)
                      "enum_strs")
        a
  end.

Definition get (depth : nat) (count : option Z) (as_string as_numpy : bool)
    (timeout : Timeout) (with_ctrlvars use_monitor : bool) : M pyval :=
  get_with (get_with_metadata depth) count as_string as_numpy timeout
    with_ctrlvars use_monitor.

Definition _getarg (depth : nat) (arg : string) : M pyval :=
  _getarg_with (get depth None false true TNone false true) arg.

Definition enum_strs (depth : nat) : M pyval := _getarg depth "enum_strs".

Definition put_complete : M pyval := args_item "put_complete".

(** *** Writing *)

(** [x == s] for a text [s]. *)
Definition py_eq_str (x : pyval) (s : string) : bool :=
  match x with PStr t => String.eqb t s | _ => false end.

Fixpoint tuple_index (l : list pyval) (s : string) (i : Z) : option Z :=
  match l with
  | [] => None
  | x :: r => if py_eq_str x s then Some i else tuple_index r s (i + 1)
  end.

(** [container.index(s)] for a text [s]: [inl] is the builtin [ValueError],
    which [put] catches. *)
Definition py_index_of (container : pyval) (s : string) : Res (option Z) :=
  match container with
  | PSeq l => Ok (tuple_index l s 0)
  | PStr t => Ok (Z.of_nat <$> String.index 0 s t)
  | PBytes _ => Raise TypeError
  | _ => Raise AttributeError
  end.

Definition is_str (v : pyval) : bool :=
  match v with PStr _ => true | _ => false end.

(** [isinstance(v, Iterable)]. *)
Definition is_iterable (v : pyval) : bool :=
  match v with PStr _ | PBytes _ | PSeq _ | PArr _ => true | _ => false end.

(** [bytes(s, STR_ENC)]. *)
Definition encode (s : string) : string := s.

Definition NUL : string := String (ascii_of_N 0) "".

(** [_caproto_pv.write], played by the environment.  [on_complete] is the
    [run_callback] closure when one was passed; it runs on the notification
    thread once the server acknowledges the write.  Once the script is used
    up the write returns and no acknowledgement arrives. *)
Definition channel_write (value : pyval) (wait : bool) (on_complete : option (M unit))
    (timeout : Timeout) (notify : bool) : M unit :=
  emit (EvWrite value wait (bool_decide (is_Some on_complete)) timeout notify) ;;;
  e <- the_env ;;
  match write_script e with
  | [] => ret tt
  | o :: rest =>
      update_env (set_write_script rest) ;;;
      match o with
      | WO_Timeout => raise CaprotoTimeoutError
      | WO_Returns completed =>
          match on_complete with
          | Some run_callback => if completed && notify then swallow run_callback else ret tt
          | None => ret tt
          end
      end
  end.

(** The first half of [put]: the access check and the normalisation of the
    value (lines 534-555). *)
Definition put_value (depth : nat) (value : pyval) : M pyval :=
  wa <- args_item "write_access" ;;
  if negb (truthy wa) then raise AccessRightsException
  else
    tf <- args_item "typefull" ;;
    value <- (if type_in tf enum_types then
                match value with
                | PStr s =>
                    es <- enum_strs depth ;;
                    found <- lift (py_index_of es s) ;;
                    match found with
                    | Some i => ret (PInt i)
                    | None => enum_strs depth ;;; raise CaprotoValueError
                    end
                | _ => ret value
                end
              else ret value) ;;
    value <- (match value with
              | PStr s =>
                  tf <- typefull ;;
                  if type_in tf char_types
                  then ret (PBytes (encode s ++ NUL))
                  else ret (PSeq [value])
              | _ => if negb (is_iterable value) then ret (PSeq [value]) else ret value
              end) ;;
    n <- lift (py_len value) ;;
    if negb (Nat.eqb n 0) then
      first <- lift (py_getitem value 0) ;;
      if is_str first then
        vs <- lift (py_iter value) ;;
        vs <- lift (res_map (fun v => match v with
                                      | PStr s => Ok (PBytes (encode s))
                                      | _ => Raise AttributeError
                                      end) vs) ;;
        ret (PSeq vs)
      else ret value
    else ret value.

(** The second half of [put]: the completion flags and the write (lines
    557-578). *)
Definition put_send (value : pyval) (wait : bool) (timeout : Timeout)
    (use_complete : bool) (callback : option cbid) (callback_data : list pyval)
    : M unit :=
  let notify := use_complete || bool_decide (is_Some callback) || wait in
  let run_callback :=
    if bool_decide (callback = None) && negb use_complete then None
    else Some ((if use_complete
                then args_update {["put_complete" := PBool true]}
                else ret tt) ;;;
               match callback with
               | Some cb => call_user (EvPutCallback cb callback_data) cb
               | None => ret tt
               end) in
  wait <- (if notify then
             (if use_complete
              then args_update {["put_complete" := PBool false]}
              else ret tt) ;;;
             ret wait
           else ret false) ;;
  channel_write value wait run_callback timeout notify.

Definition put (depth : nat) (value : pyval) (wait : bool) (timeout_kw : option Timeout)
    (use_complete : bool) (callback : option cbid)
    (callback_data : option (list pyval)) : M unit :=
  ensure_connection timeout_kw
    (let timeout := match timeout_kw with None => TSeconds 30000 | Some t => t end in
     let callback_data := default [] callback_data in
     value <- put_value depth value ;;
     put_send value wait timeout use_complete callback callback_data).

(** *** The callback registry *)

(** An argument that is expected to be callable. *)
Inductive PyCallable := Callable (cb : cbid) | NotCallable (v : pyval).

Definition run_callback (index : Z) : M unit :=
  p <- self ;;
  match callbacks p !! index with
  | None => ret tt
  | Some (fcn, kwargs) =>
      let kwd := _args p in
      let kwd := kwargs ∪ kwd in
      let kwd := <["cb_info" := PSeq [PInt index; PSelf]]> kwd in
      call_user (EvCallback fcn kwd) fcn
  end.

(** [sorted(list(self.callbacks.keys()))]. *)
Definition sorted_keys (cbs : gmap Z (cbid * gmap string pyval)) : list Z :=
  merge_sort Z.le (map_to_list cbs).*1.

Definition run_callbacks : M unit :=
  p <- self ;;
  for_each (sorted_keys (callbacks p)) run_callback.

(** [__on_changes], the handler of the auto-monitor subscription. *)
Definition __on_changes (command : Command) : M unit :=
  tf <- typefull ;;
  es <- args_item "enum_strs" ;;
  info <- lift (_read_response_to_pyepics tf command es) ;;
  args_update info ;;;
  run_callbacks.

Definition add_callback (depth : nat) (callback : PyCallable) (index : pyval)
    (run_now with_ctrlvars : bool) (kw : gmap string pyval) : M Z :=
  match callback with
  | NotCallable _ => raise CaprotoValueError
  | Callable cb =>
      if negb (is_None index) then raise CaprotoValueError
      else
        p <- self ;;
        let index := _cb_count p in
        update (set__cb_count (index + 1)) ;;;
        update (fun p => set_callbacks (<[index := (cb, kw)]> (callbacks p)) p) ;;;
        c <- connected ;;
        (if c then _check_auto_monitor_sub None else ret tt) ;;;
        c <- connected ;;
        (if with_ctrlvars && c then get_ctrlvars ;;; ret tt else ret tt) ;;;
        (if run_now then
           get depth None true true TNone false true ;;;
           c <- connected ;;
           if c then run_callback index else ret tt
         else ret tt) ;;;
        ret index
  end.

Definition remove_callback (index : Z) : M unit :=
  update (fun p => set_callbacks (delete index (callbacks p)) p).

Definition clear_callbacks : M unit :=
  update (set_callbacks ∅).

(** [__eq__]. *)
Definition PV_eq (a b : PV) : bool := false.

Definition disconnect : M unit :=
  c <- connected ;;
  if c then emit EvGoIdle else ret tt.

(** *** Construction *)

(** [str.strip()] and [str.lower()], on one-byte characters. *)
Definition is_space (c : ascii) : bool :=
  let n := Z.of_N (N_of_ascii c) in
  ((9 <=? n) && (n <=? 13)) || ((28 <=? n) && (n <=? 32)) || (n =? 133) || (n =? 160).

Fixpoint lstrip (s : string) : string :=
  match s with
  | String c r => if is_space c then lstrip r else s
  | EmptyString => s
  end.

Definition strip (s : string) : string :=
  String.rev (lstrip (String.rev (lstrip s))).

Definition lower_char (c : ascii) : ascii :=
  let n := Z.of_N (N_of_ascii c) in
  if ((65 <=? n) && (n <=? 90)) || ((192 <=? n) && (n <=? 222) && negb (n =? 215))
  then ascii_of_N (Z.to_N (n + 32)) else c.

Definition lower (s : string) : string :=
  String.string_of_list_ascii (lower_char <$> String.list_ascii_of_string s).

Definition _fields : list string :=
  ["pvname"; "value"; "char_value"; "status"; "ftype"; "chid";
   "host"; "count"; "access"; "write_access"; "read_access";
   "severity"; "timestamp"; "posixseconds"; "nanoseconds";
   "precision"; "units"; "enum_strs";
   "upper_disp_limit"; "lower_disp_limit"; "upper_alarm_limit";
   "lower_alarm_limit"; "lower_warning_limit";
   "upper_warning_limit"; "upper_ctrl_limit"; "lower_ctrl_limit";
   "put_complete"].

(** The [callback] argument of the constructor. *)
Inductive CallbackArg :=
| CbNone
| CbOne (c : PyCallable)
| CbMany (l : list PyCallable).

(** [for i, thiscb in enumerate(callback): if callable(thiscb): ...]. *)
Fixpoint enumerate_callbacks (l : list PyCallable) (i : Z)
    : gmap Z (cbid * gmap string pyval) :=
  match l with
  | [] => ∅
  | Callable cb :: r => <[i := (cb, ∅)]> (enumerate_callbacks r (i + 1))
  | NotCallable _ :: r => enumerate_callbacks r (i + 1)
  end.

Definition opt_pyint (o : option Z) : pyval :=
  match o with Some z => PInt z | None => PNone end.

(** The handle as [__init__] leaves it before it asks for its channel. *)
Definition new_PV (name form_ : string) (callback : CallbackArg)
    (auto_monitor_ : AutoMonitor) (count : option Z)
    (connection_callback : option cbid) (connection_timeout_ : Timeout)
    (access_callback : option cbid) (chan : CaPV) : PV :=
  {| pvname := strip name;
     form := lower form_;
     auto_monitor := auto_monitor_;
     _connected := false;
     _connect_event := false;
     connection_timeout := match connection_timeout_ with
                           | TNone => TSeconds 1000
                           | t => t
                           end;
     default_count := count;
     _auto_monitor_sub := None;
     _args := <["access" := PNone]>
                (<["typefull" := PNone]>
                   (<["type" := PNone]>
                      (<["nelm" := PInt (-1)]>
                         (<["count" := opt_pyint count]>
                            (<["pvname" := PStr (strip name)]>
                               (foldr (fun k d => <[k := PNone]> d) ∅ _fields))))));
     connection_callbacks := match connection_callback with Some cb => [cb] | None => [] end;
     access_callbacks := match access_callback with Some cb => [cb] | None => [] end;
     callbacks := match callback with
                  | CbMany l => enumerate_callbacks l 0
                  | CbOne (Callable cb) => {[0 := (cb, ∅)]}
                  | _ => ∅
                  end;
     _cb_count := 0;
     _caproto_pv := chan |}.

(** [PV(...)]: [chan] is the channel object [context.get_pvs] hands out. *)
Definition PV_init (name form_ : string) (callback : CallbackArg)
    (auto_monitor_ : AutoMonitor) (count : option Z)
    (connection_callback : option cbid) (connection_timeout_ : Timeout)
    (access_callback : option cbid) (chan : CaPV) (e : Env) : Res unit * World :=
  let w := {| pv := new_PV name form_ callback auto_monitor_ count connection_callback
                      connection_timeout_ access_callback chan;
              env := e; trace := [] |} in
  (if ca_connected chan then _connection_state_changed chan "connected" else ret tt) w.

(** ** [caput_many] *)

(** The body of the [try] in [caput_many]. *)
Definition connect_and_put (depth : nat) (v : pyval) (wait_each wait_all : bool)
    (connection_timeout_ put_timeout : Timeout) : M unit :=
  wait_for_connection connection_timeout_ ;;;
  put depth v wait_each (Some put_timeout) wait_all None None.

(** The loop [for p, v in zip(pvs, values)]: a [TimeoutError] of a pair is
    recorded, any other exception leaves the loop. *)
Fixpoint caput_loop (depth : nat) (pvs : list World) (values : list pyval)
    (wait_each wait_all : bool) (connection_timeout_ put_timeout : Timeout)
    : Res (list Z) * list World :=
  match pvs, values with
  | p :: pvs', v :: values' =>
      let '(r, p') :=
        connect_and_put depth v wait_each wait_all connection_timeout_ put_timeout p in
      match r with
      | Ok _ =>
          let '(rs, ps) := caput_loop depth pvs' values' wait_each wait_all
                             connection_timeout_ put_timeout in
          (res_bind rs (fun out => Ok (1 :: out)), p' :: ps)
      | Raise e =>
          if is_TimeoutError e then
            let '(rs, ps) := caput_loop depth pvs' values' wait_each wait_all
                               connection_timeout_ put_timeout in
            (res_bind rs (fun out => Ok (-1 :: out)), p' :: ps)
          else (Raise e, p' :: pvs')
      end
  | _, _ => (Ok [], pvs)
  end.

(** [[PV(name, auto_monitor=False, connection_timeout=...) for name in
    pvlist]]; [context] is what the default context answers for a name. *)
Fixpoint make_pvs (context : string -> CaPV * Env) (pvlist : list string)
    (connection_timeout_ : Timeout) : Res (list World) :=
  match pvlist with
  | [] => Ok []
  | name :: rest =>
      let '(chan, e) := context name in
      match PV_init name "time" CbNone (AM_Bool false) None None
              connection_timeout_ None chan e with
      | (Ok _, w) =>
          res_bind (make_pvs context rest connection_timeout_) (fun ws => Ok (w :: ws))
      | (Raise e, _) => Raise e
      end
  end.

(** [1 if (p.connected and p.put_complete) else -1]. *)
Definition put_status (w : World) : Res Z :=
  if PV_connected (pv w) then
    match _args (pv w) !! "put_complete" with
    | Some v => Ok (if truthy v then 1 else -1)
    | None => Raise KeyError
    end
  else Ok (-1).

(** [caput_many].  With [wait='all'] the function polls the handles until
    all are connected with their put complete or [put_timeout] elapses; the
    completions that arrive are those the environment announced for the
    writes, so polling leaves the handles as the loop left them. *)
Definition caput_many (depth : nat) (context : string -> CaPV * Env)
    (pvlist : list string) (values : list pyval) (wait : pyval)
    (connection_timeout_ put_timeout : Timeout) : Res (list Z) :=
  if negb (Nat.eqb (length pvlist) (length values)) then Raise CaprotoValueError
  else
    res_bind (make_pvs context pvlist connection_timeout_) (fun pvs =>
    let wait_all := py_eq_str wait "all" in
    let wait_each := py_eq_str wait "each" in
    let '(rout, pvs) := caput_loop depth pvs values wait_each wait_all
                          connection_timeout_ put_timeout in
    res_bind rout (fun out =>
    if negb wait_all then Ok ((fun o => if o =? 1 then o else -1) <$> out)
    else res_map put_status pvs)).

(** ** [get_pv] and [caput] *)

(** [get_pv(pvname, connect=..., timeout=...)]: the handle is built with
    the defaults of [PV]; [context] is what the context answers for the
    name. *)
Definition get_pv (context : string -> CaPV * Env) (pvname : string) (connect_ : bool)
    (timeout : Timeout) : Res unit * World :=
  let '(chan, e) := context pvname in
  match PV_init pvname "time" CbNone AM_None None None TNone None chan e with
  | (Ok _, w) => (if connect_ then wait_for_connection timeout ;;; ret tt else ret tt) w
  | r => r
  end.

(** [caput(pvname, value, wait, timeout)]; [get_pv] waits for the
    connection with its default of five seconds, and the function returns
    [None] on both branches of its test. *)
Definition caput (depth : nat) (context : string -> CaPV * Env) (pvname : string)
    (value : pyval) (wait : bool) (timeout : Timeout) : Res unit * World :=
  match get_pv context pvname true (TSeconds 5000) with
  | (Ok _, w) =>
      (c <- connected ;;
       if c then put depth value wait (Some timeout) false None None else ret tt) w
  | r => r
  end.

(** ** Notions used to state the properties *)

(** A value in array form: a list, a tuple or a numpy array. *)
Definition is_array_form (v : pyval) : bool :=
  match v with PSeq _ | PArr _ => true | _ => false end.

(** The ['value'] and ['char_value'] entries of a translated response. *)
Definition info_entry (r : Res (gmap string pyval)) (key : string) : option pyval :=
  match r with Ok info => info !! key | Raise _ => None end.

(** The name list the enum branch of the translator resolves against: the
    response's own names when it carries some, the caller's otherwise. *)
Definition effective_enum_names (command : Command) (caller : pyval) : pyval :=
  match md_enum_strings (metadata command) with
  | Some (n :: ns) => PSeq (PStr <$> (n :: ns))
  | _ => caller
  end.

(** The display text of index [idx] in [names]: the name at that position,
    the empty text outside the list. *)
Definition enum_display (names : list pyval) (idx : Z) : pyval :=
  if (0 <=? idx) && (idx <? Z.of_nat (length names))
  then default (PStr "") (names !! Z.to_nat idx)
  else PStr "".

(** Sample responses, used to exercise the statements below. *)
Definition no_metadata : Metadata :=
  {| md_attrs := ∅; md_units := None; md_enum_strings := None; md_stamp := None |}.

Definition sample_string_response : Command :=
  {| data := PSeq [PBytes "abc"]; data_type := STRING; data_count := 1;
     metadata := no_metadata |}.

Definition sample_enum_response : Command :=
  {| data := PArr (NdArray 2 true [1; 5]); data_type := CTRL_ENUM; data_count := 2;
     metadata := {| md_attrs := {["status" := PInt 0]}; md_units := None;
                    md_enum_strings := Some ["off"; "on"]; md_stamp := None |} |}.

Definition sample_time_enum_response : Command :=
  {| data := PArr (NdArray 2 true [1; 5]); data_type := TIME_ENUM; data_count := 2;
     metadata := {| md_attrs := {["status" := PInt 0]}; md_units := None;
                    md_enum_strings := None; md_stamp := Some (10, 20) |} |}.

(** The type code [get_with_metadata] asks the channel for: the integer
    equivalent when character data is wanted without string formatting. *)
Definition requested_type (as_string : bool) (dt : ChannelType) : ChannelType :=
  if negb as_string && type_in (PType dt) char_types
  then default dt (re_map dt)
  else dt.

(** The four reasons for [get_with_metadata] to go to the network;
    [use_monitor] counts as false when character data is wanted without
    string formatting. *)
Definition read_required (as_string use_monitor : bool) (dt : ChannelType)
    (sub : option Subscription) (cached : pyval) (count : option Z) : Prop :=
  (use_monitor = false \/ (as_string = false /\ type_in (PType dt) char_types = true))
  \/ sub = None
  \/ cached = PNone
  \/ (exists c n, count = Some c /\ py_len cached = Ok n /\ Z.of_nat n < c).

(** Sample handles: a handle built on a channel that is already connected,
    in an environment that plays the given scripts, and the same handle
    after some entries reached its cache. *)
Definition script_env (conns : list ConnOutcome) (reads : list (option Command))
    (writes : list WriteOutcome) : Env :=
  {| conn_script := conns; read_script := reads; write_script := writes;
     cb_raises := fun _ => false |}.

Definition sample_channel (t : ChannelType) (n rights : Z) : CaPV :=
  {| ca_connected := true;
     ca_channel := Some {| native_data_type := t; native_data_count := n;
                           access_rights := rights |} |}.

Definition connected_world (t : ChannelType) (n rights : Z) (e : Env) : World :=
  snd (PV_init "pv" "time" CbNone AM_None None None TNone None
         (sample_channel t n rights) e).

Definition with_cache (d : gmap string pyval) (w : World) : World :=
  {| pv := set__args (d ∪ _args (pv w)) (pv w); env := env w; trace := [] |}.

(** A connected enum handle with write access whose monitor delivered a
    value, and which has not fetched its enum names yet; the channel will
    answer one control-form read. *)
Definition enum_world : World :=
  with_cache (<["value" := PNp 1]>
                (<["raw_value" := PArr (NdArray 2 true [1])]>
                   {["char_value" := PNone]}))
    (connected_world ENUM 1 3 (script_env [] [Some sample_enum_response] [])).

(** The same handle once the names are in its cache. *)
Definition enum_world_with_names : World :=
  with_cache {["enum_strs" := PSeq [PStr "off"; PStr "on"]]} enum_world.

(** What happens to each pair of [caput_many]: the result of its connect
    and put, and the handle afterwards. *)
Definition pair_outcomes (depth : nat) (pvs : list World) (values : list pyval)
    (wait_each wait_all : bool) (connection_timeout_ put_timeout : Timeout)
    : list (Res unit * World) :=
  (fun pv_v : World * pyval =>
     connect_and_put depth (snd pv_v) wait_each wait_all connection_timeout_
       put_timeout (fst pv_v)) <$> zip pvs values.

(** The pair ended normally or with a [TimeoutError]. *)
Definition ok_or_timeout (o : Res unit * World) : Prop :=
  match fst o with
  | Ok _ => True
  | Raise e => is_TimeoutError e = true
  end.

(** The status recorded for a pair when [wait] is not ['all']. *)
Definition pair_status (o : Res unit * World) : Z :=
  match fst o with Ok _ => 1 | Raise _ => -1 end.

(** A context in which every channel is connected and read-only. *)
Definition read_only_context (name : string) : CaPV * Env :=
  (sample_channel DOUBLE 1 1, script_env [] [] []).

(** A context in which every channel is connected and writable, and
    acknowledges its first write. *)
Definition writable_context (name : string) : CaPV * Env :=
  (sample_channel DOUBLE 1 3, script_env [] [] [WO_Returns true]).

(** A writable context in which the channel named ["slow"] is not connected
    and does not connect in time. *)
Definition mixed_context (name : string) : CaPV * Env :=
  if String.eqb name "slow"
  then ({| ca_connected := false; ca_channel := None |}, script_env [CO_Timeout] [] [])
  else writable_context name.

(** What can happen to a handle during its lifetime: the channel changes
    state and notifies the handle, and callers use its methods.
    [OpAddCallback] is the only one that answers with a callback index. *)
Inductive Op :=
| OpChannelChanges (ch : CaPV)
| OpConnectionStateChanged (ch : CaPV) (state : string)
| OpAccessRightsChanged (ch : CaPV) (rights : Z)
| OpOnChanges (command : Command)
| OpWaitForConnection (timeout : Timeout)
| OpGetWithMetadata (a : GetArgs)
| OpGetCtrlvars
| OpGetTimevars
| OpPut (value : pyval) (wait : bool) (timeout_kw : option Timeout)
    (use_complete : bool) (callback : option cbid) (callback_data : option (list pyval))
| OpAddCallback (callback : PyCallable) (index : pyval) (run_now with_ctrlvars : bool)
    (kw : gmap string pyval)
| OpRemoveCallback (index : Z)
| OpClearCallbacks
| OpRunCallbacks
| OpDisconnect.

Definition op_method (depth : nat) (op : Op) : M (option Z) :=
  match op with
  | OpChannelChanges ch => update (set__caproto_pv ch) ;;; ret None
  | OpConnectionStateChanged ch state => _connection_state_changed ch state ;;; ret None
  | OpAccessRightsChanged ch rights => _access_rights_changed ch rights ;;; ret None
  | OpOnChanges command => __on_changes command ;;; ret None
  | OpWaitForConnection timeout => wait_for_connection timeout ;;; ret None
  | OpGetWithMetadata a => get_with_metadata depth a ;;; ret None
  | OpGetCtrlvars => get_ctrlvars ;;; ret None
  | OpGetTimevars => get_timevars ;;; ret None
  | OpPut value wait timeout_kw use_complete callback callback_data =>
      put depth value wait timeout_kw use_complete callback callback_data ;;; ret None
  | OpAddCallback callback index run_now with_ctrlvars kw =>
      i <- add_callback depth callback index run_now with_ctrlvars kw ;; ret (Some i)
  | OpRemoveCallback index => remove_callback index ;;; ret None
  | OpClearCallbacks => clear_callbacks ;;; ret None
  | OpRunCallbacks => run_callbacks ;;; ret None
  | OpDisconnect => disconnect ;;; ret None
  end.

(** Running a sequence of operations: the callback indices handed out, in
    order, and the final world.  An operation that raises leaves the handle
    as it was when the exception left it. *)
Fixpoint run_ops (depth : nat) (ops : list Op) (w : World) : list Z * World :=
  match ops with
  | [] => ([], w)
  | op :: rest =>
      let '(r, w1) := op_method depth op w in
      let '(indices, w2) := run_ops depth rest w1 in
      (match r with Ok (Some i) => i :: indices | _ => indices end, w2)
  end.

(** The event logged when the callback stored under [index] is run on the
    handle [p]. *)
Definition dispatch_of (p : PV) (index : Z) (ev : Event) : Prop :=
  exists fcn kwargs,
    callbacks p !! index = Some (fcn, kwargs)
    /\ ev = EvCallback fcn (<["cb_info" := PSeq [PInt index; PSelf]]> (kwargs ∪ _args p)).

(** A connection notification other than ['connected'], in an operation or
    in the environment's script. *)
Definition op_not_connected (op : Op) : Prop :=
  match op with
  | OpConnectionStateChanged _ state => state <> "connected"
  | _ => True
  end.

Definition outcome_not_connected (o : ConnOutcome) : Prop :=
  match o with
  | CO_Returns _ (Some state) => state <> "connected"
  | _ => True
  end.

(** A handle with two registered callbacks. *)
Definition registry_world : World :=
  snd (run_ops 2 [OpAddCallback (Callable 7%nat) PNone false false ∅;
                  OpAddCallback (Callable 8%nat) PNone false false {["tag" := PInt 1]}]
         (connected_world DOUBLE 1 3 (script_env [] [] []))).

(** The handle has not been told yet that its channel is connected: its
    connect event is clear, and no ['connected'] notification is waiting in
    the environment's script. *)
Definition not_yet_notified (w : World) : Prop :=
  _connect_event (pv w) = false
  /\ Forall outcome_not_connected (conn_script (env w)).

(** A channel that is not connected when the handle is built. *)
Definition idle_channel : CaPV := {| ca_connected := false; ca_channel := None |}.

(** ** Relations between worlds, used to state what methods leave alone *)

Definition is_value_read (ev : Event) : bool :=
  match ev with EvRead _ _ _ => true | _ => false end.

Definition is_write (ev : Event) : bool :=
  match ev with EvWrite _ _ _ _ _ => true | _ => false end.

Definition with_pv (p : PV) (w : World) : World :=
  {| pv := p; env := env w; trace := trace w |}.

Definition with_env (e : Env) (w : World) : World :=
  {| pv := pv w; env := e; trace := trace w |}.

Definition with_event (ev : Event) (w : World) : World :=
  {| pv := pv w; env := env w; trace := (trace w ++ [ev])%list |}.

Definition respects (R : World -> World -> Prop) {A} (m : M A) : Prop :=
  forall w, R w (snd (m w)).

(** What the scheme asks of [R]: a preorder that allows the emission of the
    events in [Pev], any change of the handle that keeps the callback
    counter and the connect event, the clearing of the connect event, and
    any change of the environment that keeps the connection script. *)
Class Respected (R : World -> World -> Prop) := {
  Pev : Event -> Prop;
  R_refl : forall w, R w w;
  R_trans : forall a b c, R a b -> R b c -> R a c;
  R_emit : forall w ev, Pev ev -> R w (with_event ev w);
  R_pv : forall w p,
      _cb_count p = _cb_count (pv w) ->
      _connect_event p = _connect_event (pv w) ->
      R w (with_pv p w);
  R_event_clear : forall w, R w (with_pv (set__connect_event false (pv w)) w);
  R_env : forall w e,
      conn_script e = conn_script (env w) -> R w (with_env e w);
  Pev_other : forall ev,
      is_value_read ev = false -> is_write ev = false -> Pev ev
}.
Arguments Pev R {_} ev.

(** The channel's [wait_for_connection] may deliver the connection
    notification; whether that step respects [R] depends on [R]. *)
Class WaitRespected (R : World -> World -> Prop) : Prop :=
  respects_channel_wait :
    forall timeout, respects R (channel_wait_for_connection timeout).

(** [emits P w w']: the log of [w'] is the log of [w] followed by events
    that all satisfy [P]. *)
Definition emits (P : Event -> Prop) (w w' : World) : Prop :=
  exists evs, trace w' = (trace w ++ evs)%list /\ Forall P evs.

(** Every event but a write. *)
Definition not_write (ev : Event) : Prop := is_write ev = false.

(** Every event, a write only with the given [wait] and [notify]. *)
Definition write_with (wait notify : bool) (ev : Event) : Prop :=
  match ev with
  | EvWrite _ wait' _ _ notify' => wait' = wait /\ notify' = notify
  | _ => True
  end.

(** The callback counter is the same in both worlds. *)
Definition same_cb_count (w w' : World) : Prop :=
  _cb_count (pv w') = _cb_count (pv w).

(** [keeps I]: a property of worlds that survives. *)
Definition keeps (I : World -> Prop) (w w' : World) : Prop := I w -> I w'.

Definition event_clear (w : World) : Prop := _connect_event (pv w) = false.

(** Every event but the value read of [get_with_metadata]. *)
Definition not_value_read (ev : Event) : Prop := is_value_read ev = false.

(** The keyword arguments of a plain [get_with_metadata()] call. *)
Definition default_get_args : GetArgs :=
  {| g_count := None; g_as_string := false; g_as_numpy := true; g_timeout := None;
     g_with_ctrlvars := false; g_use_monitor := true; g_form := None;
     g_as_namespace := false |}.

(** A handle with two registered callbacks, in an environment where the
    first of them raises. *)
Definition raising_registry_world : World :=
  with_env {| conn_script := []; read_script := []; write_script := [];
              cb_raises := fun cb => Nat.eqb cb 7 |} registry_world.

(** A call with the default arguments and [as_string=True]. *)
Definition text_get_args : GetArgs :=
  {| g_count := None; g_as_string := true; g_as_numpy := true; g_timeout := None;
     g_with_ctrlvars := false; g_use_monitor := true; g_form := None;
     g_as_namespace := false |}.

(** ** Notions used to state what the handle keeps *)

(** The names of the dictionary [_parse_dbr_metadata] can return. *)
Definition metadata_keys : list string :=
  (arg_map_plain ++ ["units"; "enum_strs"; "posixseconds"; "nanoseconds"; "timestamp"])%list.

(** The bytes of a text as the elements of a character array. *)
Definition byte_values (s : string) : list Z :=
  (fun c => Z.of_N (N_of_ascii c)) <$> String.list_ascii_of_string s.

(** The text holds no NUL character. *)
Definition nul_free (s : string) : Prop :=
  Forall (fun c => c <> ascii_of_N 0) (String.list_ascii_of_string s).

Definition is_subscribe (ev : Event) : bool :=
  match ev with EvSubscribe _ _ _ => true | _ => false end.

Definition not_subscribe (ev : Event) : Prop := is_subscribe ev = false.

(** A dictionary that may be merged into the cache: when it brings a value
    it brings the raw value and the display value with it. *)
Definition cache_update (d : gmap string pyval) : Prop :=
  is_Some (d !! "value") -> is_Some (d !! "raw_value") /\ is_Some (d !! "char_value").

(** The event of a subscription. *)
Definition subscribe_event (s : Subscription) : Event :=
  EvSubscribe (sub_data_type s) (sub_data_count s) (sub_mask s).

(** A relation between worlds that every elementary step of the methods
    respects.  The steps are those the methods are made of: logging a call
    other than a subscription, consuming the environment, storing the
    channel and the connection flags, merging a dictionary into the cache,
    deciding [auto_monitor] when the caller left it open, and subscribing
    when monitoring is on and no subscription is held. *)
Class Stable (R : World -> World -> Prop) : Prop := {
  St_refl : forall w, R w w;
  St_trans : forall a b c, R a b -> R b c -> R a c;
  St_emit : forall w ev, is_subscribe ev = false -> R w (with_event ev w);
  St_env : forall w e, R w (with_env e w);
  St_caproto_pv : forall w ch, R w (with_pv (set__caproto_pv ch (pv w)) w);
  St_connect_event : forall w b, R w (with_pv (set__connect_event b (pv w)) w);
  St_connected : forall w b, R w (with_pv (set__connected b (pv w)) w);
  St_args : forall w d,
      cache_update d -> R w (with_pv (set__args (d ∪ _args (pv w)) (pv w)) w);
  St_auto_monitor : forall w b,
      auto_monitor (pv w) = AM_None ->
      R w (with_pv (set_auto_monitor (AM_Bool b) (pv w)) w);
  St_subscribe : forall w s,
      am_truthy (auto_monitor (pv w)) = true ->
      _auto_monitor_sub (pv w) = None ->
      R w (with_pv (set__auto_monitor_sub (Some s) (pv w))
             (with_event (subscribe_event s) w))
}.

(** The operations that change the registry of callbacks. *)
Definition changes_registry (op : Op) : bool :=
  match op with
  | OpAddCallback _ _ _ _ _ | OpRemoveCallback _ | OpClearCallbacks => true
  | _ => false
  end.

(** The registry of callbacks changes in [add_callback], [remove_callback]
    and [clear_callbacks] only; whether those steps respect [R] depends on
    [R]. *)
Class RegistryStable (R : World -> World -> Prop) : Prop := {
  St_cb_count : forall w z, R w (with_pv (set__cb_count z (pv w)) w);
  St_callbacks : forall w c, R w (with_pv (set_callbacks c (pv w)) w)
}.

(** Every name of the cache of [w] is a name of the cache of [w']. *)
Definition keys_kept (w w' : World) : Prop :=
  forall k, is_Some (_args (pv w) !! k) -> is_Some (_args (pv w') !! k).

(** The cache holds the raw and the display value whenever it holds a
    value. *)
Definition value_backed (w : World) : Prop :=
  forall v, _args (pv w) !! "value" = Some v -> v <> PNone ->
    is_Some (_args (pv w) !! "raw_value") /\ is_Some (_args (pv w) !! "char_value").

(** The names the constructor puts in the cache. *)
Definition initial_keys : list string := (_fields ++ ["nelm"; "type"; "typefull"])%list.

(** Between [w] and [w'] the subscription the handle holds is kept, and a
    handle that holds none makes at most one. *)
Definition subscribes_once (w w' : World) : Prop :=
  exists evs, trace w' = (trace w ++ evs)%list /\
    match _auto_monitor_sub (pv w) with
    | Some s => _auto_monitor_sub (pv w') = Some s /\ Forall not_subscribe evs
    | None =>
        match _auto_monitor_sub (pv w') with
        | None => Forall not_subscribe evs
        | Some s => exists pre post, evs = (pre ++ subscribe_event s :: post)%list
                      /\ Forall not_subscribe pre /\ Forall not_subscribe post
        end
    end.

(** [auto_monitor] was given, and it is false, zero or an empty mask. *)
Definition monitoring_off (p : PV) : Prop :=
  auto_monitor p <> AM_None /\ am_truthy (auto_monitor p) = false.

(** A setting of [auto_monitor] that was given or decided stays; with
    monitoring off the handle keeps its subscription field and subscribes
    to nothing. *)
Definition setting_kept (w w' : World) : Prop :=
  (auto_monitor (pv w) <> AM_None -> auto_monitor (pv w') = auto_monitor (pv w))
  /\ (monitoring_off (pv w) ->
      _auto_monitor_sub (pv w') = _auto_monitor_sub (pv w) /\ emits not_subscribe w w').

(** The registry of callbacks and its counter are the same. *)
Definition registry_kept (w w' : World) : Prop :=
  callbacks (pv w') = callbacks (pv w) /\ _cb_count (pv w') = _cb_count (pv w).

(** What the constructor was given is the same. *)
Definition configuration_kept (w w' : World) : Prop :=
  pvname (pv w') = pvname (pv w)
  /\ form (pv w') = form (pv w)
  /\ default_count (pv w') = default_count (pv w)
  /\ connection_timeout (pv w') = connection_timeout (pv w)
  /\ connection_callbacks (pv w') = connection_callbacks (pv w)
  /\ access_callbacks (pv w') = access_callbacks (pv w).

(** The world with the events [evs] added to its log. *)
Definition with_events (evs : list Event) (w : World) : World :=
  {| pv := pv w; env := env w; trace := (trace w ++ evs)%list |}.

(** The entries [_access_rights_changed] stores for the rights [rights]. *)
Definition access_entries (rights : Z) (access : pyval) : gmap string pyval :=
  <["write_access" := PBool (Z.testbit rights WRITE_bit)]>
    (<["read_access" := PBool (Z.testbit rights READ_bit)]> {["access" := access]}).

(** The entries [_connection_established] stores for a channel. *)
Definition connection_entries (info : ChannelInfo) (ft : ChannelType)
    : gmap string pyval :=
  <["type" := PType (native_data_type info)]>
    (<["typefull" := PType ft]>
       (<["nelm" := PInt (native_data_count info)]>
          {["count" := PInt (native_data_count info)]})).

(** What [auto_monitor] is once the handle is connected: the caller's
    setting, or the comparison of the count with [AUTOMONITOR_MAXLENGTH]. *)
Definition monitor_setting (p : PV) (info : ChannelInfo) : AutoMonitor :=
  match auto_monitor p with
  | AM_None =>
      AM_Bool (match default_count p with
               | Some c => c
               | None => native_data_count info
               end <? AUTOMONITOR_MAXLENGTH)
  | a => a
  end.

(** The subscription [_check_auto_monitor_sub] asks for. *)
Definition monitor_subscription (a : AutoMonitor) (tf : pyval) (count : option Z)
    : Subscription :=
  {| sub_data_type := tf; sub_data_count := count;
     sub_mask := match a with
                 | AM_Bool true => DEFAULT_SUBSCRIPTION_MASK
                 | AM_Mask m => m
                 | _ => 0
                 end |}.

(** A value as the channel's [write] takes it: bytes, an array, or a list
    or tuple whose first element is not a text. *)
Definition wire_ready (v : pyval) : bool :=
  match v with
  | PBytes _ | PArr _ => true
  | PSeq (PStr _ :: _) => false
  | PSeq _ => true
  | _ => false
  end.

(** The acknowledgement the environment has in store for the next write. *)
Definition next_write_acknowledged (e : Env) : bool :=
  match write_script e with
  | WO_Returns true :: _ => true
  | _ => false
  end.

(** The events [m] adds to the log of [w] start with [ev], and the others
    satisfy [P]. *)
Definition starts_with {A} (ev : Event) (P : Event -> Prop) (m : M A) (w : World) : Prop :=
  exists post, trace (snd (m w)) = (trace w ++ ev :: post)%list /\ Forall P post.

(** The names [_getarg] fetches with [get_timevars]. *)
Definition time_keys : list string :=
  ["status"; "severity"; "timestamp"; "posixseconds"; "nanoseconds"].

(** The count, the timeout and the form [get_with_metadata] works with
    once the defaults of the handle are filled in. *)
Definition effective_count (a : GetArgs) (p : PV) : option Z :=
  match g_count a with None => default_count p | Some c => Some c end.

Definition effective_timeout (a : GetArgs) (p : PV) : Timeout :=
  match g_timeout a with
  | None | Some TNone =>
      match effective_count a p with
      | None => TSeconds 1000
      | Some c => TLogCount c
      end
  | Some t => t
  end.

Definition effective_type_key (a : GetArgs) (p : PV) : string :=
  type_key_of (default (form p) (g_form a)).

(** The call does not fetch the control form first. *)
Definition direct_call (a : GetArgs) (p : PV) : Prop :=
  g_with_ctrlvars a
  && negb (bool_decide (effective_type_key a p ∈ ["control"; "native"])) = false.

(** * Properties *)

Local Open Scope list_scope.

(** ** Value coercion and the response translator *)

Lemma type_in_inv (v : pyval) (l : list ChannelType) :
  type_in v l = true -> exists t, v = PType t /\ t ∈ l.
Proof.
  destruct v; simpl; try discriminate.
  intros H. apply bool_decide_eq_true in H. eauto.
Qed.

Lemma enum_not_char_string (ft : pyval) :
  type_in ft enum_types = true ->
  type_in ft char_types = false /\ type_in ft string_types = false.
Proof.
  intros H. destruct (type_in_inv _ _ H) as (t & -> & Ht).
  unfold enum_types in Ht.
  repeat (apply elem_of_cons in Ht; destruct Ht as [-> | Ht]; [split; reflexivity |]).
  inversion Ht.
Qed.

Lemma pyepics_get_value_raw (value sv ft native_count : pyval)
    (requested_count : option Z) (es : pyval) (as_numpy : bool) :
  type_in ft string_types = false ->
  _pyepics_get_value value sv ft native_count requested_count es false as_numpy
  = raw_value_path value native_count requested_count as_numpy.
Proof. unfold _pyepics_get_value. intros ->. reflexivity. Qed.

(** C5 (as amended): the display value is returned for a string type
    whatever [as_string] is, and for a character type when [as_string] is
    set; with [as_string] unset and a type that is not a string type the
    function works on the raw value. *)
Theorem pyepics_get_value_display_or_raw
    (value string_value full_type native_count : pyval)
    (requested_count : option Z) (enum_strings : pyval) (as_string as_numpy : bool) :
  (type_in full_type string_types = true ->
   _pyepics_get_value value string_value full_type native_count requested_count
     enum_strings as_string as_numpy = Ok string_value)
  /\ (as_string = true -> type_in full_type char_types = true ->
      _pyepics_get_value value string_value full_type native_count requested_count
        enum_strings as_string as_numpy = Ok string_value)
  /\ (as_string = false -> type_in full_type string_types = false ->
      _pyepics_get_value value string_value full_type native_count requested_count
        enum_strings as_string as_numpy
      = raw_value_path value native_count requested_count as_numpy).
Proof.
  unfold _pyepics_get_value. repeat split.
  - intros ->. now rewrite orb_true_r.
  - intros -> ->. reflexivity.
  - intros -> H. now apply pyepics_get_value_raw.
Qed.

Lemma pyepics_get_value_display_or_raw_witness :
  _pyepics_get_value (PSeq [PBytes "on"; PBytes "off"]) (PSeq [PStr "on"; PStr "off"])
    (PType TIME_STRING) (PInt 2) None PNone false true
  = Ok (PSeq [PStr "on"; PStr "off"])
  /\ _pyepics_get_value (PArr (NdArray 1 true [104; 105; 0])) (PStr "hi")
       (PType TIME_CHAR) (PInt 3) None PNone true true
     = Ok (PStr "hi")
  /\ _pyepics_get_value (PArr (NdArray 8 false [7; 8])) PNone
       (PType TIME_DOUBLE) (PInt 2) None PNone false true
     = Ok (PArr (NdArray 8 true [7; 8])).
Proof.
  pose proof (pyepics_get_value_display_or_raw
                (PSeq [PBytes "on"; PBytes "off"]) (PSeq [PStr "on"; PStr "off"])
                (PType TIME_STRING) (PInt 2) None PNone false true) as (H1 & _ & _).
  pose proof (pyepics_get_value_display_or_raw
                (PArr (NdArray 1 true [104; 105; 0])) (PStr "hi")
                (PType TIME_CHAR) (PInt 3) None PNone true true) as (_ & H2 & _).
  pose proof (pyepics_get_value_display_or_raw
                (PArr (NdArray 8 false [7; 8])) PNone
                (PType TIME_DOUBLE) (PInt 2) None PNone false true) as (_ & _ & H3).
  split; [apply H1; reflexivity |].
  split; [apply H2; reflexivity |].
  rewrite H3; reflexivity.
Defined.

(** C5, as stated, fails: for a string type the display value comes back
    although [as_string] is unset, and it is not what the raw value path
    yields. *)
Lemma pyepics_get_value_string_type_not_raw :
  _pyepics_get_value (PSeq [PBytes "abc"]) (PStr "abc") (PType STRING) (PInt 1)
    (Some 1) PNone false true = Ok (PStr "abc")
  /\ raw_value_path (PSeq [PBytes "abc"]) (PInt 1) (Some 1) true
     = Ok (PSeq [PBytes "abc"])
  /\ _pyepics_get_value (PSeq [PBytes "abc"]) (PStr "abc") (PType STRING) (PInt 1)
       (Some 1) PNone false true
     <> raw_value_path (PSeq [PBytes "abc"]) (PInt 1) (Some 1) true.
Proof. repeat split; try reflexivity. discriminate. Qed.

Lemma seq_getitem_in_range {A} (l : list A) (i : Z) (d : A) :
  0 <= i < Z.of_nat (length l) ->
  seq_getitem l i = Ok (default d (l !! Z.to_nat i)).
Proof.
  intros Hi. unfold seq_getitem.
  destruct (Z.ltb_spec i 0) as [Hneg | _]; [lia |].
  destruct (Z.leb_spec 0 i) as [_ | Hneg]; [| lia].
  destruct (Z.ltb_spec i (Z.of_nat (length l))) as [_ | Hge]; [| lia].
  simpl. destruct (l !! Z.to_nat i) eqn:E; [reflexivity |].
  apply lookup_ge_None in E. lia.
Qed.

Lemma seq_getitem_0 {A} (x : A) (r : list A) : seq_getitem (x :: r) 0 = Ok x.
Proof.
  rewrite (seq_getitem_in_range (x :: r) 0 x); [reflexivity |].
  simpl length. lia.
Qed.

Lemma scalarify_keeps (data : pyval) (ntype : ChannelType) (count : Z) :
  count <> 1 \/ ntype = CHAR \/ ntype = STRING ->
  _scalarify data ntype count = Ok data.
Proof.
  unfold _scalarify. intros [H | [-> | ->]].
  - destruct (Z.eqb_spec count 1); [contradiction | reflexivity].
  - now rewrite andb_false_r.
  - now rewrite andb_false_r.
Qed.

Lemma scalarify_collapses (a : ndarray) (ntype : ChannelType) (x : Z) (r : list Z) :
  type_in (PType ntype) char_types = false ->
  type_in (PType ntype) string_types = false ->
  a_data a = x :: r ->
  _scalarify (PArr a) ntype 1 = Ok (PNp x).
Proof.
  intros Hc Hs Ha. unfold _scalarify.
  assert (type_in (PType ntype) [CHAR; STRING] = false) as ->.
  { simpl in *. apply bool_decide_eq_false. intros Hin.
    apply elem_of_cons in Hin. destruct Hin as [-> | Hin]; [discriminate Hc |].
    apply elem_of_cons in Hin. destruct Hin as [-> | Hin]; [discriminate Hs |].
    inversion Hin. }
  simpl. rewrite Ha, seq_getitem_0. reflexivity.
Qed.

Lemma res_map_decode (bs : list string) :
  res_map (fun v => match v with
                    | PBytes b => Ok (PStr (decode b))
                    | _ => Raise AttributeError
                    end) (PBytes <$> bs) = Ok (PStr <$> bs).
Proof.
  induction bs as [| b bs IH]; [reflexivity |].
  rewrite fmap_cons. cbn [res_map]. rewrite IH. reflexivity.
Qed.

Lemma scalarify_bytes_ok (bs : list string) (ntype : ChannelType) (count : Z) :
  (count = 1 -> bs <> []) ->
  exists sv, _scalarify (PSeq (PBytes <$> bs)) ntype count = Ok sv.
Proof.
  intros H. unfold _scalarify.
  destruct ((count =? 1) && negb (type_in (PType ntype) [CHAR; STRING])) eqn:E;
    [| eauto].
  apply andb_true_iff in E. destruct E as [E _]. apply Z.eqb_eq in E.
  destruct bs as [| b bs]; [now destruct (H E) |].
  simpl. rewrite seq_getitem_0. eauto.
Qed.

Lemma read_response_string_value (ft : pyval) (command : Command)
    (caller : pyval) (bs : list string) :
  type_in ft string_types = true ->
  data command = PSeq (PBytes <$> bs) ->
  (data_count command = 1 -> bs <> []) ->
  info_entry (_read_response_to_pyepics ft command caller) "value"
  = Some (unwrap_single (PStr <$> bs)).
Proof.
  intros Hs Hd Hne. unfold _read_response_to_pyepics. rewrite Hd.
  destruct (scalarify_bytes_ok bs (data_type command) (data_count command) Hne)
    as [sv ->].
  simpl res_bind.
  assert (type_in ft char_types = false) as ->.
  { destruct (type_in_inv _ _ Hs) as (t & -> & Ht). unfold string_types in Ht.
    repeat (apply elem_of_cons in Ht; destruct Ht as [-> | Ht]; [reflexivity |]).
    inversion Ht. }
  rewrite Hs. simpl py_iter. simpl res_bind at 1. rewrite res_map_decode.
  simpl. rewrite lookup_insert_ne by discriminate. apply lookup_insert_eq.
Qed.

Lemma raw_value_path_single (a : ndarray) (x : Z) (requested_count : option Z)
    (as_numpy : bool) :
  a_data a = [x] ->
  raw_value_path (PArr a) (PInt 1) requested_count as_numpy
  = Ok (match requested_count with None => PInt x | Some _ => PArr a end).
Proof.
  intros Ha. unfold raw_value_path, tolist. cbn [py_eq_int py_len res_bind].
  rewrite Ha. cbn.
  destruct requested_count; reflexivity.
Qed.

Lemma raw_value_path_array (a : ndarray) (native_count : pyval)
    (requested_count : option Z) (as_numpy : bool) :
  length (a_data a) <> 1%nat ->
  exists v, raw_value_path (PArr a) native_count requested_count as_numpy = Ok v
            /\ is_array_form v = true
            /\ py_len v = Ok (length (a_data a)).
Proof.
  intros Hlen. unfold raw_value_path.
  assert ((if py_eq_int native_count 1
           then res_bind (py_len (PArr a)) (fun n => Ok (Nat.eqb n 1))
           else Ok false) = Ok false) as ->.
  { destruct (py_eq_int native_count 1); [| reflexivity]. simpl.
    destruct (Nat.eqb_spec (length (a_data a)) 1); [contradiction | reflexivity]. }
  simpl. destruct as_numpy; simpl.
  - destruct (a_isnative a); simpl; eexists; repeat split; reflexivity.
  - eexists. repeat split. simpl. now rewrite length_fmap.
Qed.

(** C6 (as amended): [_scalarify] unwraps the single element of a response
    whose declared count is 1 and whose type is neither a character nor a
    string type, and keeps the data as it is for any other count and for
    the native character and string codes; for a string type the
    translator's ['value'] is the decoded texts, a bare text when there is
    exactly one.  Value coercion gives a bare scalar for a native count of
    1 with a one-element raw value when no count was requested, the array
    itself when one was, and a sequence of the raw value's length for a raw
    array of any other length. *)
Theorem scalar_collapse_and_shape :
  (forall (a : ndarray) (ntype : ChannelType) (x : Z) (r : list Z),
      type_in (PType ntype) char_types = false ->
      type_in (PType ntype) string_types = false ->
      a_data a = x :: r ->
      _scalarify (PArr a) ntype 1 = Ok (PNp x))
  /\ (forall (data : pyval) (ntype : ChannelType) (count : Z),
         count <> 1 \/ ntype = CHAR \/ ntype = STRING ->
         _scalarify data ntype count = Ok data)
  /\ (forall (ft : pyval) (command : Command) (caller : pyval) (bs : list string),
         type_in ft string_types = true ->
         data command = PSeq (PBytes <$> bs) ->
         (data_count command = 1 -> bs <> []) ->
         info_entry (_read_response_to_pyepics ft command caller) "value"
         = Some (unwrap_single (PStr <$> bs)))
  /\ (forall (a : ndarray) (x : Z) (sv ft es : pyval) (requested_count : option Z)
             (as_numpy : bool),
         type_in ft string_types = false ->
         a_data a = [x] ->
         _pyepics_get_value (PArr a) sv ft (PInt 1) requested_count es false as_numpy
         = Ok (match requested_count with None => PInt x | Some _ => PArr a end))
  /\ (forall (a : ndarray) (sv ft native_count es : pyval)
             (requested_count : option Z) (as_numpy : bool),
         type_in ft string_types = false ->
         length (a_data a) <> 1%nat ->
         exists v,
           _pyepics_get_value (PArr a) sv ft native_count requested_count es false as_numpy
           = Ok v
           /\ is_array_form v = true
           /\ py_len v = Ok (length (a_data a))).
Proof.
  split; [exact scalarify_collapses |].
  split; [exact scalarify_keeps |].
  split; [exact read_response_string_value |].
  split.
  - intros a x sv ft es rc np Hs Ha.
    rewrite pyepics_get_value_raw by assumption. now apply raw_value_path_single.
  - intros a sv ft nc es rc np Hs Hlen.
    rewrite pyepics_get_value_raw by assumption. now apply raw_value_path_array.
Qed.

Lemma scalar_collapse_and_shape_witness :
  _scalarify (PArr (NdArray 8 true [42])) TIME_DOUBLE 1 = Ok (PNp 42)
  /\ _scalarify (PArr (NdArray 8 true [1; 2; 3])) TIME_DOUBLE 3
     = Ok (PArr (NdArray 8 true [1; 2; 3]))
  /\ info_entry (_read_response_to_pyepics (PType STRING) sample_string_response PNone)
       "value" = Some (PStr "abc")
  /\ _pyepics_get_value (PArr (NdArray 8 true [42])) PNone (PType TIME_DOUBLE) (PInt 1)
       None PNone false true = Ok (PInt 42)
  /\ exists v,
       _pyepics_get_value (PArr (NdArray 8 true [1; 2; 3])) PNone (PType TIME_DOUBLE)
         (PInt 3) None PNone false true = Ok v
       /\ is_array_form v = true /\ py_len v = Ok 3%nat.
Proof.
  destruct scalar_collapse_and_shape as (H1 & H2 & H3 & H4 & H5).
  split; [apply (H1 (NdArray 8 true [42]) TIME_DOUBLE 42 []); reflexivity |].
  split; [apply H2; left; discriminate |].
  split; [apply (H3 (PType STRING) sample_string_response PNone ["abc"]);
          [reflexivity | reflexivity | discriminate] |].
  split; [apply (H4 (NdArray 8 true [42]) 42 PNone (PType TIME_DOUBLE) PNone None true);
          reflexivity |].
  apply (H5 (NdArray 8 true [1; 2; 3]) PNone (PType TIME_DOUBLE) (PInt 3) PNone None true);
    [reflexivity | discriminate].
Defined.

(** C6, as stated, fails: a string response with one element has a bare
    text as its ['value'], not a value in array form; and with an explicit
    count a native-count-1 numeric read comes back as an array. *)
Lemma string_response_value_not_array :
  info_entry (_read_response_to_pyepics (PType STRING) sample_string_response PNone)
    "value" = Some (PStr "abc")
  /\ is_array_form (PStr "abc") = false
  /\ _pyepics_get_value (PArr (NdArray 8 true [42])) PNone (PType TIME_DOUBLE) (PInt 1)
       (Some 1) PNone false true = Ok (PArr (NdArray 8 true [42])).
Proof. repeat split; vm_compute; reflexivity. Qed.

(** ** Enum display text *)

Lemma foldl_insert_lookup_other (attrs : gmap string pyval) (keys : list string)
    (k : string) (r : gmap string pyval) :
  k ∉ keys ->
  foldl (fun r attr => match attrs !! attr with
                       | Some v => <[attr := v]> r
                       | None => r
                       end) r keys !! k = r !! k.
Proof.
  revert r. induction keys as [| a keys IH]; intros r Hk; [reflexivity |].
  apply not_elem_of_cons in Hk. destruct Hk as [Hne Hk].
  simpl. rewrite IH by assumption.
  destruct (attrs !! a); [| reflexivity].
  now rewrite lookup_insert_ne.
Qed.

Lemma decode_item_bytes (es : list string) :
  decode_item <$> (PBytes <$> es) = PStr <$> es.
Proof.
  induction es as [| x xs IH]; [reflexivity |].
  rewrite !fmap_cons, IH. reflexivity.
Qed.

Lemma parse_dbr_metadata_enum_strs (m : Metadata) :
  _parse_dbr_metadata m !! "enum_strs"
  = match md_enum_strings m with
    | Some [] => Some (PSeq [])
    | Some es => Some (PSeq (PStr <$> es))
    | None => None
    end.
Proof.
  unfold _parse_dbr_metadata.
  set (r0 := foldl _ ∅ arg_map_plain).
  assert (r0 !! "enum_strs" = None) as H0.
  { unfold r0. rewrite foldl_insert_lookup_other; [apply lookup_empty |].
    unfold arg_map_plain. intros H.
    repeat (apply elem_of_cons in H; destruct H as [H | H]; [discriminate H |]).
    inversion H. }
  set (r1 := match md_units m with Some u => _ | None => r0 end).
  assert (r1 !! "enum_strs" = None) as H1.
  { unfold r1. destruct (md_units m); [| exact H0].
    rewrite lookup_insert_ne by discriminate. exact H0. }
  set (r2 := match md_enum_strings m with Some es => _ | None => r1 end).
  set (r3 := match r2 !! "enum_strs" with Some (PSeq ks) => _ | _ => r2 end).
  assert (r3 !! "enum_strs"
          = match md_enum_strings m with
            | Some [] => Some (PSeq [])
            | Some es => Some (PSeq (PStr <$> es))
            | None => None
            end) as H3.
  { unfold r3, r2. destruct (md_enum_strings m) as [[| e es] |].
    - rewrite lookup_insert_eq. simpl. apply lookup_insert_eq.
    - rewrite lookup_insert_eq. cbn [truthy fmap list_fmap].
      rewrite lookup_insert_eq. do 3 f_equal. apply decode_item_bytes.
    - rewrite H1. exact H1. }
  set (r4 := match md_stamp m with Some (sec, nano) => _ | None => r3 end).
  assert (r4 !! "enum_strs" = r3 !! "enum_strs") as H4.
  { unfold r4. destruct (md_stamp m) as [[sec nano] |]; [| reflexivity].
    now rewrite !lookup_insert_ne by discriminate. }
  rewrite <- H3, <- H4.
  destruct (r4 !! "units") as [[] |]; try reflexivity.
  now rewrite lookup_insert_ne by discriminate.
Qed.

Lemma res_map_enum_text (names : list pyval) (l : list Z) :
  res_map (enum_text (PSeq names)) (PNp <$> l) = Ok (enum_display names <$> l).
Proof.
  induction l as [| z l IH]; [reflexivity |].
  rewrite !fmap_cons. cbn [res_map]. rewrite IH.
  assert (enum_text (PSeq names) (PNp z) = Ok (enum_display names z)) as ->;
    [| reflexivity].
  unfold enum_text, enum_display. cbn [py_index res_bind py_len py_getitem].
  destruct (Z.leb_spec 0 z) as [Hz | Hz]; [| reflexivity].
  destruct (Z.ltb_spec z (Z.of_nat (length names))) as [Hlt | Hge]; [| reflexivity].
  cbn [andb]. now apply seq_getitem_in_range.
Qed.

Lemma scalarify_array_ok (a : ndarray) (ntype : ChannelType) (count : Z) :
  (count = 1 -> a_data a <> []) ->
  exists sv, _scalarify (PArr a) ntype count = Ok sv.
Proof.
  intros H. unfold _scalarify.
  destruct ((count =? 1) && negb (type_in (PType ntype) [CHAR; STRING])) eqn:E;
    [| eauto].
  apply andb_true_iff in E. destruct E as [E _]. apply Z.eqb_eq in E.
  cbn [py_getitem]. destruct (a_data a) as [| x r]; [now destruct (H E) |].
  rewrite seq_getitem_0. eauto.
Qed.

Lemma enum_names_effective (command : Command) (caller sv rv : pyval) :
  py_or (dict_get (<["value" := sv]>
                     (<["raw_value" := rv]>
                        (_parse_dbr_metadata (metadata command)))) "enum_strs") caller
  = effective_enum_names command caller.
Proof.
  unfold dict_get, effective_enum_names.
  rewrite !lookup_insert_ne by discriminate.
  rewrite parse_dbr_metadata_enum_strs.
  destruct (md_enum_strings (metadata command)) as [[| n ns] |]; reflexivity.
Qed.

(** C7: for an enumerated type the translator resolves every raw index
    against the response's own name list, or the caller's list when the
    response carries none; an index outside the list gives the empty text;
    with no list at all every element is the marker [None], which is
    neither an error nor a text. *)
Theorem enum_char_value_tristate (ft : pyval) (command : Command) (caller : pyval)
    (a : ndarray) :
  type_in ft enum_types = true ->
  data command = PArr a ->
  (data_count command = 1 -> a_data a <> []) ->
  (forall names, effective_enum_names command caller = PSeq names ->
     info_entry (_read_response_to_pyepics ft command caller) "char_value"
     = Some (unwrap_single (enum_display names <$> a_data a)))
  /\ (effective_enum_names command caller = PNone ->
      info_entry (_read_response_to_pyepics ft command caller) "char_value"
      = Some (unwrap_single (replicate (length (a_data a)) PNone)))
  /\ (forall names idx, ~ (0 <= idx < Z.of_nat (length names)) ->
        enum_display names idx = PStr "")
  /\ (forall s, PNone <> PStr s).
Proof.
  intros Hen Hd Hne.
  destruct (enum_not_char_string ft Hen) as [Hc Hs].
  destruct (scalarify_array_ok a (data_type command) (data_count command) Hne)
    as [sv Hsv].
  assert (Hgen :
    info_entry (_read_response_to_pyepics ft command caller) "char_value"
    = info_entry
        (res_bind (if is_None (effective_enum_names command caller)
                   then res_bind (py_len (PArr a)) (fun n => Ok (replicate n PNone))
                   else res_bind (py_iter (PArr a)) (fun idxs =>
                          res_map (enum_text (effective_enum_names command caller)) idxs))
           (fun cv => Ok ({["char_value" := unwrap_single cv]} : gmap string pyval)))
        "char_value").
  { unfold _read_response_to_pyepics. rewrite Hd, Hsv. cbn [res_bind].
    rewrite Hc, Hs, Hen. rewrite enum_names_effective.
    destruct (if is_None (effective_enum_names command caller) then _ else _)
      as [cv | e]; [| reflexivity].
    cbn [res_bind info_entry]. now rewrite lookup_insert_eq, lookup_singleton_eq. }
  split; [| split; [| split]].
  - intros names Heff. rewrite Hgen, Heff. cbn [is_None py_iter res_bind].
    rewrite res_map_enum_text. cbn [res_bind info_entry].
    apply lookup_singleton_eq.
  - intros Heff. rewrite Hgen, Heff. cbn [is_None py_len res_bind info_entry].
    apply lookup_singleton_eq.
  - intros names idx Hout. unfold enum_display.
    destruct (Z.leb_spec 0 idx); [| reflexivity].
    destruct (Z.ltb_spec idx (Z.of_nat (length names))); [lia | reflexivity].
  - discriminate.
Qed.

Lemma enum_char_value_tristate_witness :
  info_entry (_read_response_to_pyepics (PType CTRL_ENUM) sample_enum_response PNone)
    "char_value" = Some (PSeq [PStr "on"; PStr ""])
  /\ info_entry (_read_response_to_pyepics (PType TIME_ENUM) sample_time_enum_response
                   (PSeq [PStr "a"; PStr "b"])) "char_value"
     = Some (PSeq [PStr "b"; PStr ""])
  /\ info_entry (_read_response_to_pyepics (PType TIME_ENUM) sample_time_enum_response PNone)
       "char_value" = Some (PSeq [PNone; PNone]).
Proof.
  pose proof (enum_char_value_tristate (PType CTRL_ENUM) sample_enum_response PNone
                (NdArray 2 true [1; 5]) eq_refl eq_refl
                ltac:(discriminate)) as (H1 & _).
  pose proof (enum_char_value_tristate (PType TIME_ENUM) sample_time_enum_response
                (PSeq [PStr "a"; PStr "b"]) (NdArray 2 true [1; 5]) eq_refl eq_refl
                ltac:(discriminate)) as (H2 & _).
  pose proof (enum_char_value_tristate (PType TIME_ENUM) sample_time_enum_response PNone
                (NdArray 2 true [1; 5]) eq_refl eq_refl
                ltac:(discriminate)) as (_ & H3 & _).
  split; [exact (H1 [PStr "off"; PStr "on"] eq_refl) |].
  split; [exact (H2 [PStr "a"; PStr "b"] eq_refl) |].
  exact (H3 eq_refl).
Defined.

(** ** Equality of handles *)

(** C10: [a == b] is [False] for all handles, also for a handle and itself:
    the relation is not reflexive. *)
Theorem PV_eq_never_true :
  (forall a b : PV, PV_eq a b = false)
  /\ (forall a : PV, PV_eq a a = false)
  /\ ~ (forall a : PV, PV_eq a a = true).
Proof.
  repeat split.
  intros H.
  specialize (H (new_PV "x" "time" CbNone AM_None None None TNone None
                   {| ca_connected := false; ca_channel := None |})).
  discriminate H.
Qed.

(** ** The read decision of [get_with_metadata] *)

Lemma needs_network_read_spec (as_string use_monitor : bool) (dt : ChannelType)
    (sub : option Subscription) (cached : pyval) (count : option Z) :
  let um := if negb as_string && type_in (PType dt) char_types then false else use_monitor in
  (read_required as_string use_monitor dt sub cached count ->
   needs_network_read um sub cached count = Ok true)
  /\ (~ read_required as_string use_monitor dt sub cached count ->
      needs_network_read um sub cached count = Ok false
      \/ needs_network_read um sub cached count = Raise TypeError).
Proof.
  cbn zeta. unfold read_required.
  set (um := if negb as_string && type_in (PType dt) char_types then false else use_monitor).
  assert (Hum : um = false <->
                (use_monitor = false \/
                 (as_string = false /\ type_in (PType dt) char_types = true))).
  { unfold um. destruct as_string, (type_in (PType dt) char_types), use_monitor;
      cbn; split; intros; try tauto; try discriminate;
      repeat match goal with
             | H : _ \/ _ |- _ => destruct H
             | H : _ /\ _ |- _ => destruct H
             end; try discriminate. }
  unfold needs_network_read.
  destruct um.
  2:{ split; [reflexivity |]. intros Hno. exfalso. apply Hno. left. now apply Hum. }
  assert (Hnf : ~ (use_monitor = false \/
                   (as_string = false /\ type_in (PType dt) char_types = true))).
  { intros H. apply Hum in H. discriminate H. }
  cbn [negb].
  destruct sub as [sb |].
  2:{ cbn. split; [reflexivity |]. intros Hno. exfalso. apply Hno. tauto. }
  rewrite bool_decide_eq_true_2 by eauto. cbn [negb].
  destruct (is_None cached) eqn:Hnone.
  { split; [reflexivity |]. intros Hno. exfalso. apply Hno.
    destruct cached; try discriminate Hnone. tauto. }
  assert (Hc : cached <> PNone) by (intros ->; discriminate Hnone).
  destruct count as [c |].
  2:{ split; [| intros _; now left].
      intros [H | [H | [H | (c' & n & H & _)]]];
        [contradiction | discriminate H | contradiction | discriminate H]. }
  destruct (py_len cached) as [n | e] eqn:Hlen; cbn [res_bind].
  - split.
    + intros [H | [H | [H | (c' & n' & Hc' & Hn & Hlt)]]];
        [contradiction | discriminate H | contradiction |].
      injection Hc' as <-. injection Hn as <-. f_equal. now apply Z.ltb_lt.
    + intros Hno. left. f_equal. apply Z.ltb_ge.
      destruct (Z.le_gt_cases c (Z.of_nat n)) as [Hle | Hgt]; [exact Hle |].
      exfalso. apply Hno. right; right; right. exists c, n. repeat split. lia.
  - split.
    + intros [H | [H | [H | (c' & n' & Hc' & Hn & Hlt)]]];
        [contradiction | discriminate H | contradiction | discriminate Hn].
    + intros _. right. f_equal.
      destruct cached; cbn in Hlen; congruence.
Qed.

Lemma re_map_char (dt : ChannelType) :
  type_in (PType dt) char_types = true -> exists dt', re_map dt = Some dt'.
Proof.
  intros H. destruct (type_in_inv _ _ H) as (t & [= <-] & Ht).
  unfold char_types in Ht.
  repeat (apply elem_of_cons in Ht; destruct Ht as [-> | Ht]; [eexists; reflexivity |]).
  inversion Ht.
Qed.

Ltac unfold_monad :=
  unfold bind, ret, raise, lift, self, the_env, update, update_env, emit in *.

Lemma channel_read_trace (ev : Event) (w : World) :
  trace (snd (channel_read ev w)) = trace w ++ [ev]
  /\ pv (snd (channel_read ev w)) = pv w.
Proof.
  unfold channel_read. unfold_monad. cbn.
  destruct (read_script (env w)) as [| [c |] rest]; cbn; auto.
Qed.

Lemma fetch_after_read (dt : ChannelType) (count : option Z) (timeout : Timeout)
    (md : gmap string pyval) (w : World) :
  trace (snd ((command <- channel_read (EvRead dt count timeout) ;;
               tf <- typefull ;;
               es <- args_item "enum_strs" ;;
               response <- lift (_read_response_to_pyepics tf command es) ;;
               args_update response ;;;
               ret (response ∪ md)) w))
  = trace w ++ [EvRead dt count timeout].
Proof.
  destruct (channel_read_trace (EvRead dt count timeout) w) as [Ht Hp].
  unfold bind at 1.
  destruct (channel_read (EvRead dt count timeout) w) as [[command | e] w1];
    cbn [snd] in *; [| exact Ht].
  unfold typefull, args_item, args_update. unfold_monad. cbn.
  destruct (_args (pv w1) !! "typefull"); cbn; [| exact Ht].
  destruct (_args (pv w1) !! "enum_strs"); cbn; [| exact Ht].
  destruct (_read_response_to_pyepics _ _ _); cbn; exact Ht.
Qed.

(** The fetch phase reads exactly when a read is required. *)
Lemma fetch_reads_iff
    (type_key : string) (as_string use_monitor : bool) (count : option Z)
    (timeout : Timeout) (md : gmap string pyval) (w : World)
    (t dt : ChannelType) (cached : pyval) :
  _args (pv w) !! "type" = Some (PType t) ->
  field_types type_key t = Some dt ->
  _args (pv w) !! "value" = Some cached ->
  let w' := snd (get_with_metadata_fetch type_key as_string use_monitor count
                   timeout md w) in
  let required := read_required as_string use_monitor dt
                    (_auto_monitor_sub (pv w)) cached count in
  let read := EvRead (requested_type as_string dt) count timeout in
  (required -> trace w' = trace w ++ [read])
  /\ (~ required -> trace w' = trace w)
  /\ (forall c n, count = Some c -> py_len cached = Ok n -> Z.of_nat n < c ->
      trace w' = trace w ++ [read]).
Proof.
  intros Ht Hft Hv. cbn zeta.
  pose proof (needs_network_read_spec as_string use_monitor dt
                (_auto_monitor_sub (pv w)) cached count) as [Hyes Hno].
  cbn zeta in Hyes, Hno.
  assert (Hfetch : forall need,
    needs_network_read
      (if negb as_string && type_in (PType dt) char_types then false else use_monitor)
      (_auto_monitor_sub (pv w)) cached count = need ->
    trace (snd (get_with_metadata_fetch type_key as_string use_monitor count
                  timeout md w))
    = match need with
      | Ok true => trace w ++ [EvRead (requested_type as_string dt) count timeout]
      | _ => trace w
      end).
  { intros need Hneed.
    unfold get_with_metadata_fetch, type_, args_item.
    unfold bind at 1. unfold bind at 1. unfold self at 1. rewrite Ht.
    unfold ret at 1. unfold bind at 1. unfold field_type_item. rewrite Hft.
    unfold ret at 1. unfold requested_type.
    destruct (negb as_string && type_in (PType dt) char_types) eqn:Hforced.
    - apply andb_true_iff in Hforced. destruct Hforced as [_ Hchar].
      destruct (re_map_char dt Hchar) as [dt' Hdt']. rewrite Hdt' in *.
      unfold bind at 1. unfold ret at 1. cbn [fst snd default].
      unfold bind at 1. unfold bind at 1. unfold self at 1. rewrite Hv.
      unfold ret at 1. unfold bind at 1. unfold self at 1.
      unfold bind at 1. unfold lift at 1. rewrite Hneed.
      destruct need as [[|] | e]; [apply fetch_after_read | reflexivity | reflexivity].
    - unfold bind at 1. unfold ret at 1. cbn [fst snd].
      unfold bind at 1. unfold bind at 1. unfold self at 1. rewrite Hv.
      unfold ret at 1. unfold bind at 1. unfold self at 1.
      unfold bind at 1. unfold lift at 1. rewrite Hneed.
      destruct need as [[|] | e]; [apply fetch_after_read | reflexivity | reflexivity]. }
  assert (Hreq : read_required as_string use_monitor dt (_auto_monitor_sub (pv w))
                   cached count ->
                 trace (snd (get_with_metadata_fetch type_key as_string use_monitor
                               count timeout md w))
                 = trace w ++ [EvRead (requested_type as_string dt) count timeout]).
  { intros Hr. now rewrite (Hfetch _ (Hyes Hr)). }
  split; [exact Hreq |]. split.
  - intros Hn. destruct (Hno Hn) as [H | H]; now rewrite (Hfetch _ H).
  - intros c n Hc Hn Hlt. apply Hreq. unfold read_required.
    right; right; right. eauto.
Qed.

(** ** Relations that every method respects

    Many properties below say that a quantity is left alone, or only moves
    in one direction, whatever method runs.  They are instances of one
    scheme: a preorder [R] on worlds that every primitive step of the
    methods respects. *)

Create HintDb respects.

Section RespectsBasics.
Context (R : World -> World -> Prop) `{HR : !Respected R}.

Lemma respects_ret {A} (a : A) : respects R (ret a).
Proof. intros w. apply R_refl. Qed.

Lemma respects_raise {A} (e : exn) : respects R (raise (A := A) e).
Proof. intros w. apply R_refl. Qed.

Lemma respects_lift {A} (r : Res A) : respects R (lift r).
Proof. intros w. apply R_refl. Qed.

Lemma respects_self : respects R self.
Proof. intros w. apply R_refl. Qed.

Lemma respects_the_env : respects R the_env.
Proof. intros w. apply R_refl. Qed.

Lemma respects_bind {A B} (m : M A) (k : A -> M B) :
  respects R m -> (forall a, respects R (k a)) -> respects R (bind m k).
Proof.
  intros Hm Hk w. unfold bind. specialize (Hm w).
  destruct (m w) as [[a | e] w1]; cbn [snd] in *; [| exact Hm].
  eapply R_trans; [exact Hm | apply Hk].
Qed.

Lemma respects_bind_post {A B} (P : A -> Prop) (m : M A) (k : A -> M B) :
  respects R m -> (forall w a, fst (m w) = Ok a -> P a) ->
  (forall a, P a -> respects R (k a)) -> respects R (bind m k).
Proof.
  intros Hm HP Hk w. unfold bind. specialize (Hm w). specialize (HP w).
  destruct (m w) as [[a | e] w1]; cbn [fst snd] in *; [| exact Hm].
  eapply R_trans; [exact Hm | apply Hk, HP; reflexivity].
Qed.

Lemma respects_update (f : PV -> PV) :
  (forall p, _cb_count (f p) = _cb_count p /\ _connect_event (f p) = _connect_event p) ->
  respects R (update f).
Proof. intros Hf w. apply (R_pv w (f (pv w))); apply Hf. Qed.

Lemma respects_update_env (f : Env -> Env) :
  (forall e, conn_script (f e) = conn_script e) -> respects R (update_env f).
Proof. intros Hf w. apply (R_env w (f (env w))). apply Hf. Qed.

Lemma respects_emit (ev : Event) : Pev R ev -> respects R (emit ev).
Proof. intros H w. now apply R_emit. Qed.

Lemma respects_try_finally {A} (body : M A) (fin : M unit) :
  respects R body -> respects R fin -> respects R (try_finally body fin).
Proof.
  intros Hb Hf w. unfold try_finally. specialize (Hb w).
  destruct (body w) as [r w1]. specialize (Hf w1).
  destruct (fin w1) as [[u | e] w2]; cbn [snd] in *; eapply R_trans; eauto.
Qed.

Lemma respects_swallow (body : M unit) : respects R body -> respects R (swallow body).
Proof.
  intros Hb w. unfold swallow. specialize (Hb w).
  destruct (body w) as [r w1]. exact Hb.
Qed.

Lemma respects_for_each {A} (l : list A) (f : A -> M unit) :
  (forall x, respects R (f x)) -> respects R (for_each l f).
Proof.
  intros Hf. induction l as [| x l IH]; cbn [for_each].
  - apply respects_ret.
  - apply respects_bind; [apply Hf | intros _; exact IH].
Qed.

End RespectsBasics.

Ltac rstep :=
  lazymatch goal with
  | |- respects ?R _ =>
      first
        [ assumption
        | solve [auto 2 with respects nocore]
        | apply (respects_ret R) | apply (respects_raise R) | apply (respects_lift R)
        | apply (respects_self R) | apply (respects_the_env R)
        | apply (respects_update R); intros ?; split; reflexivity
        | apply (respects_update_env R); intros ?; reflexivity
        | apply (respects_emit R); first [assumption | apply Pev_other; reflexivity]
        | apply (respects_swallow R)
        | apply (respects_try_finally R)
        | apply (respects_for_each R); intros ?
        | match goal with
          | |- respects _ (if ?b then _ else _) => destruct b
          | |- respects _ (match ?x with _ => _ end) => destruct x
          end
        | apply (respects_bind R); [| intros ?]
        | progress cbv zeta ]
  end.

Ltac respects_tac := repeat rstep.

Section RespectsMethods.
Context (R : World -> World -> Prop) `{HR : !Respected R}.

Lemma respects_args_item (key : string) : respects R (args_item key).
Proof. unfold args_item. respects_tac. Qed.

Lemma respects_dict_item (d : gmap string pyval) (key : string) :
  respects R (dict_item d key).
Proof. unfold dict_item. respects_tac. Qed.

Lemma respects_args_update (d : gmap string pyval) : respects R (args_update d).
Proof. unfold args_update. respects_tac. Qed.

Lemma respects_call_user (ev : Event) (cb : cbid) : Pev R ev -> respects R (call_user ev cb).
Proof. intros H. unfold call_user. respects_tac. Qed.

Lemma respects_connected : respects R connected.
Proof. unfold connected. respects_tac. Qed.

Hint Resolve respects_args_item respects_dict_item respects_args_update
  respects_connected : respects.

Lemma respects_access_rights_changed (ch : CaPV) (rights : Z) :
  respects R (_access_rights_changed ch rights).
Proof. unfold _access_rights_changed. respects_tac. Qed.

Lemma respects_check_auto_monitor_sub (count : option Z) :
  respects R (_check_auto_monitor_sub count).
Proof. unfold _check_auto_monitor_sub, typefull. respects_tac. Qed.

Hint Resolve respects_access_rights_changed respects_check_auto_monitor_sub
  : respects.

Lemma respects_field_type_item (type_key : string) (t : pyval) :
  respects R (field_type_item type_key t).
Proof. unfold field_type_item. respects_tac. Qed.

Hint Resolve respects_field_type_item : respects.

Lemma respects_connection_established : respects R _connection_established.
Proof. unfold _connection_established. respects_tac. Qed.

Hint Resolve respects_connection_established : respects.

Lemma respects_connection_state_changed (ch : CaPV) (state : string) :
  (state = "connected" ->
   forall w, R w (with_pv (set__connect_event true (pv w)) w)) ->
  respects R (_connection_state_changed ch state).
Proof.
  intros Hset. unfold _connection_state_changed.
  destruct (bool_decide (state = "connected")) eqn:E.
  - apply bool_decide_eq_true in E. specialize (Hset E).
    assert (respects R (update (set__connect_event true))) by (intros w; apply Hset).
    respects_tac.
  - respects_tac.
Qed.

Lemma respects_channel_wait_free :
  (forall w e, R w (with_env e w)) ->
  (forall w, R w (with_pv (set__connect_event true (pv w)) w)) ->
  forall timeout, respects R (channel_wait_for_connection timeout).
Proof.
  intros Henv Hset timeout.
  assert (forall f, respects R (update_env f)) by (intros f w; apply Henv).
  assert (forall ch state, respects R (_connection_state_changed ch state))
    by (intros; now apply respects_connection_state_changed).
  unfold channel_wait_for_connection. respects_tac.
Qed.

Context `{HW : !WaitRespected R}.

Lemma respects_channel_wait_for_connection (timeout : Timeout) :
  respects R (channel_wait_for_connection timeout).
Proof. apply HW. Qed.

Hint Resolve respects_channel_wait_for_connection : respects.

Lemma respects_wait_for_connection (timeout : Timeout) :
  respects R (wait_for_connection timeout).
Proof.
  assert (respects R (update (set__connect_event false)))
    by (intros w; apply R_event_clear).
  unfold wait_for_connection. respects_tac.
Qed.

Hint Resolve respects_wait_for_connection : respects.

Lemma respects_ensure_connection {A} (timeout_kw : option Timeout) (func : M A) :
  respects R func -> respects R (ensure_connection timeout_kw func).
Proof. intros H. unfold ensure_connection. respects_tac. Qed.

Lemma respects_channel_read (ev : Event) : Pev R ev -> respects R (channel_read ev).
Proof. intros H. unfold channel_read. respects_tac. Qed.

Lemma respects_read_and_update (dtype : ChannelType) (timeout : Timeout) :
  respects R (_read_and_update dtype timeout).
Proof.
  assert (respects R (channel_read (EvReadMeta dtype timeout)))
    by (apply respects_channel_read, Pev_other; reflexivity).
  unfold _read_and_update. respects_tac.
Qed.

Hint Resolve respects_read_and_update : respects.

Lemma respects_force_read_access_rights : respects R force_read_access_rights.
Proof.
  unfold force_read_access_rights. apply respects_ensure_connection. respects_tac.
Qed.

Hint Resolve respects_force_read_access_rights : respects.

Lemma respects_get_ctrlvars : respects R get_ctrlvars.
Proof.
  unfold get_ctrlvars, type_. apply respects_ensure_connection. respects_tac.
Qed.

Lemma respects_get_timevars : respects R get_timevars.
Proof.
  unfold get_timevars, type_. apply respects_ensure_connection. respects_tac.
Qed.

Hint Resolve respects_get_ctrlvars respects_get_timevars : respects.

Lemma respects_getarg_with (get : M pyval) (arg : string) :
  respects R get -> respects R (_getarg_with get arg).
Proof. intros H. unfold _getarg_with. respects_tac. Qed.

Section WithValueReads.
Hypothesis Pev_read : forall dt count timeout, Pev R (EvRead dt count timeout).

Lemma respects_fetch (type_key : string) (as_string use_monitor : bool)
    (count : option Z) (timeout : Timeout) (md : gmap string pyval) :
  respects R (get_with_metadata_fetch type_key as_string use_monitor count timeout md).
Proof.
  assert (forall dt, respects R (channel_read (EvRead dt count timeout)))
    by (intros; apply respects_channel_read, Pev_read).
  unfold get_with_metadata_fetch, type_, typefull. respects_tac.
Qed.

Lemma respects_body (recur : GetArgs -> M (gmap string pyval)) (es : M pyval)
    (a : GetArgs) :
  (forall a', respects R (recur a')) -> respects R es ->
  respects R (get_with_metadata_body recur es a).
Proof.
  intros Hr He. unfold get_with_metadata_body.
  apply respects_ensure_connection.
  pose proof respects_fetch.
  unfold typefull. respects_tac.
Qed.

Lemma respects_get_with (gwm : GetArgs -> M (gmap string pyval))
    (count : option Z) (as_string as_numpy : bool) (timeout : Timeout)
    (with_ctrlvars use_monitor : bool) :
  (forall a, respects R (gwm a)) ->
  respects R (get_with gwm count as_string as_numpy timeout with_ctrlvars use_monitor).
Proof. intros H. unfold get_with. respects_tac. Qed.

Lemma respects_get_with_metadata (depth : nat) (a : GetArgs) :
  respects R (get_with_metadata depth a).
Proof.
  revert a. induction depth as [| d IH]; intros a; cbn [get_with_metadata].
  - apply (respects_raise R).
  - apply respects_body; [exact IH |].
    apply respects_getarg_with. now apply respects_get_with.
Qed.

Lemma respects_get (depth : nat) (count : option Z) (as_string as_numpy : bool)
    (timeout : Timeout) (with_ctrlvars use_monitor : bool) :
  respects R (get depth count as_string as_numpy timeout with_ctrlvars use_monitor).
Proof. apply respects_get_with, respects_get_with_metadata. Qed.

Lemma respects_getarg (depth : nat) (arg : string) : respects R (_getarg depth arg).
Proof. apply respects_getarg_with, respects_get. Qed.

Lemma respects_enum_strs (depth : nat) : respects R (enum_strs depth).
Proof. apply respects_getarg. Qed.
End WithValueReads.

Lemma respects_channel_write (value : pyval) (wait : bool)
    (on_complete : option (M unit)) (timeout : Timeout) (notify : bool) :
  Pev R (EvWrite value wait (bool_decide (is_Some on_complete)) timeout notify) ->
  (forall m, on_complete = Some m -> respects R m) ->
  respects R (channel_write value wait on_complete timeout notify).
Proof.
  intros Hev Hoc. unfold channel_write.
  destruct on_complete as [m |].
  - specialize (Hoc m eq_refl). respects_tac.
  - respects_tac.
Qed.

Lemma respects_put_value (depth : nat) (value : pyval) :
  (forall dt count timeout, Pev R (EvRead dt count timeout)) ->
  respects R (put_value depth value).
Proof.
  intros Hread. pose proof (respects_enum_strs Hread depth) as Hes.
  unfold put_value, typefull. respects_tac.
Qed.

Lemma respects_put_send (value : pyval) (wait : bool) (timeout : Timeout)
    (use_complete : bool) (callback : option cbid) (callback_data : list pyval) :
  (forall cb,
      Pev R (EvWrite value
             (if use_complete || bool_decide (is_Some callback) || wait
              then wait else false)
             cb timeout
             (use_complete || bool_decide (is_Some callback) || wait))) ->
  respects R (put_send value wait timeout use_complete callback callback_data).
Proof.
  intros Hwrite. unfold put_send. cbv zeta.
  set (notify := use_complete || bool_decide (is_Some callback) || wait) in *.
  set (run_callback := if bool_decide (callback = None) && negb use_complete
                       then None else Some _).
  assert (Hrc : forall m, run_callback = Some m -> respects R m).
  { intros m Hm. unfold run_callback in Hm.
    destruct (bool_decide (callback = None) && negb use_complete);
      [discriminate Hm |].
    injection Hm as <-. respects_tac. }
  clearbody run_callback.
  apply (respects_bind_post R (fun wait0 => wait0 = if notify then wait else false)).
  - destruct notify; respects_tac.
  - intros w a. destruct notify, use_complete; cbn; congruence.
  - intros wait0 ->. apply respects_channel_write; [apply Hwrite | exact Hrc].
Qed.

Lemma respects_put (depth : nat) (value : pyval) (wait : bool)
    (timeout_kw : option Timeout) (use_complete : bool) (callback : option cbid)
    (callback_data : option (list pyval)) :
  (forall dt count timeout, Pev R (EvRead dt count timeout)) ->
  (forall v cb t,
      Pev R (EvWrite v
             (if use_complete || bool_decide (is_Some callback) || wait
              then wait else false)
             cb t
             (use_complete || bool_decide (is_Some callback) || wait))) ->
  respects R (put depth value wait timeout_kw use_complete callback callback_data).
Proof.
  intros Hread Hwrite. unfold put.
  apply respects_ensure_connection. cbv zeta.
  apply (respects_bind R); [now apply respects_put_value |].
  intros v. apply respects_put_send. intros cb. apply Hwrite.
Qed.

Lemma respects_run_callback (index : Z) : respects R (run_callback index).
Proof. unfold run_callback. respects_tac. Qed.

Hint Resolve respects_run_callback : respects.

Lemma respects_run_callbacks : respects R run_callbacks.
Proof. unfold run_callbacks. respects_tac. Qed.

Hint Resolve respects_run_callbacks : respects.

Lemma respects_on_changes (command : Command) : respects R (__on_changes command).
Proof. unfold __on_changes, typefull. respects_tac. Qed.

Lemma respects_remove_callback (index : Z) : respects R (remove_callback index).
Proof. unfold remove_callback. respects_tac. Qed.

Lemma respects_clear_callbacks : respects R clear_callbacks.
Proof. unfold clear_callbacks. respects_tac. Qed.

Lemma respects_disconnect : respects R disconnect.
Proof. unfold disconnect. respects_tac. Qed.

Lemma respects_add_callback (depth : nat) (callback : PyCallable) (index : pyval)
    (run_now with_ctrlvars : bool) (kw : gmap string pyval) :
  (forall dt count timeout, Pev R (EvRead dt count timeout)) ->
  (forall w z, R w (with_pv (set__cb_count z (pv w)) w)) ->
  respects R (add_callback depth callback index run_now with_ctrlvars kw).
Proof.
  intros Hread Hcount.
  assert (forall z, respects R (update (set__cb_count z)))
    by (intros z w; apply Hcount).
  pose proof (respects_get Hread depth None true true TNone false true).
  unfold add_callback. respects_tac.
Qed.
Lemma respects_op_method (depth : nat) (op : Op) :
  (forall dt count timeout, Pev R (EvRead dt count timeout)) ->
  (forall v wait cb t notify, Pev R (EvWrite v wait cb t notify)) ->
  (forall c i rn wc kw, op = OpAddCallback c i rn wc kw ->
     forall w z, R w (with_pv (set__cb_count z (pv w)) w)) ->
  (forall ch, op = OpConnectionStateChanged ch "connected" ->
     forall w, R w (with_pv (set__connect_event true (pv w)) w)) ->
  respects R (op_method depth op).
Proof.
  intros Hread Hwrite Hadd Hconn.
  destruct op; cbn [op_method];
    (apply (respects_bind R); [| intros ?; apply (respects_ret R)]).
  - respects_tac.
  - apply respects_connection_state_changed. intros ->. now apply (Hconn ch).
  - apply respects_access_rights_changed.
  - apply respects_on_changes.
  - apply respects_wait_for_connection.
  - now apply respects_get_with_metadata.
  - apply respects_get_ctrlvars.
  - apply respects_get_timevars.
  - apply respects_put; [assumption | intros; apply Hwrite].
  - apply respects_add_callback; [assumption |]. eapply Hadd. reflexivity.
  - apply respects_remove_callback.
  - apply respects_clear_callbacks.
  - apply respects_run_callbacks.
  - apply respects_disconnect.
Qed.
End RespectsMethods.

#[global] Hint Extern 1 (respects ?R (args_item _)) =>
  apply (respects_args_item R) : respects.
#[global] Hint Extern 1 (respects ?R (dict_item _ _)) =>
  apply (respects_dict_item R) : respects.
#[global] Hint Extern 1 (respects ?R (args_update _)) =>
  apply (respects_args_update R) : respects.
#[global] Hint Extern 1 (respects ?R connected) =>
  apply (respects_connected R) : respects.
#[global] Hint Extern 1 (respects ?R (field_type_item _ _)) =>
  apply (respects_field_type_item R) : respects.
#[global] Hint Extern 1 (respects ?R (wait_for_connection _)) =>
  apply (respects_wait_for_connection R) : respects.
#[global] Hint Extern 1 (respects ?R get_ctrlvars) =>
  apply (respects_get_ctrlvars R) : respects.
#[global] Hint Extern 1 (respects ?R get_timevars) =>
  apply (respects_get_timevars R) : respects.
#[global] Hint Extern 1 (respects ?R (run_callback _)) =>
  apply (respects_run_callback R) : respects.

(** *** The events a method adds to the log *)

Lemma emits_refl (P : Event -> Prop) (w : World) : emits P w w.
Proof. exists []. split; [now rewrite app_nil_r | constructor]. Qed.

Lemma emits_trans (P : Event -> Prop) (a b c : World) :
  emits P a b -> emits P b c -> emits P a c.
Proof.
  intros (e1 & H1 & F1) (e2 & H2 & F2). exists (e1 ++ e2).
  split; [now rewrite H2, H1, app_assoc | now apply Forall_app].
Qed.

Lemma emits_same_trace (P : Event -> Prop) (w w' : World) :
  trace w' = trace w -> emits P w w'.
Proof. intros H. exists []. split; [now rewrite app_nil_r | constructor]. Qed.

#[global] Instance emits_not_write_respected : Respected (emits not_write).
Proof.
  refine {| Pev := not_write |}.
  - apply emits_refl.
  - apply emits_trans.
  - intros w ev H. exists [ev]. split; [reflexivity | now constructor].
  - intros w p _ _. now apply emits_same_trace.
  - intros w. now apply emits_same_trace.
  - intros w e _. now apply emits_same_trace.
  - intros ev _ H. exact H.
Defined.

#[global] Instance emits_write_with_respected (wait notify : bool) :
  Respected (emits (write_with wait notify)).
Proof.
  refine {| Pev := write_with wait notify |}.
  - apply emits_refl.
  - apply emits_trans.
  - intros w ev H. exists [ev]. split; [reflexivity | now constructor].
  - intros w p _ _. now apply emits_same_trace.
  - intros w. now apply emits_same_trace.
  - intros w e _. now apply emits_same_trace.
  - intros ev _ H. destruct ev; try exact I. discriminate H.
Defined.

#[global] Instance emits_wait_respected (P : Event -> Prop)
    `{HR : !Respected (emits P)} : WaitRespected (emits P).
Proof.
  intros timeout. revert timeout.
  apply (respects_channel_wait_free (emits P)).
  - intros w e. now apply emits_same_trace.
  - intros w. now apply emits_same_trace.
Qed.

(** ** The write issued by [put] *)

Lemma bind_ok {A B} (m : M A) (k : A -> M B) (w w' : World) (b : B) :
  bind m k w = (Ok b, w') ->
  exists a w1, m w = (Ok a, w1) /\ k a w1 = (Ok b, w').
Proof.
  unfold bind. destruct (m w) as [[a | e] w1]; [eauto | discriminate].
Qed.

Lemma channel_write_trace (value : pyval) (wait : bool) (on_complete : option (M unit))
    (timeout : Timeout) (notify : bool) (w : World) :
  (forall m, on_complete = Some m -> respects (emits not_write) m) ->
  exists post,
    trace (snd (channel_write value wait on_complete timeout notify w))
    = trace w ++ EvWrite value wait (bool_decide (is_Some on_complete)) timeout notify
                   :: post
    /\ Forall not_write post.
Proof.
  intros Hoc.
  set (ev := EvWrite value wait (bool_decide (is_Some on_complete)) timeout notify).
  assert (Hrest : respects (emits not_write)
            (e <- the_env ;;
             match write_script e with
             | [] => ret tt
             | o :: rest =>
                 update_env (set_write_script rest) ;;;
                 match o with
                 | WO_Timeout => raise CaprotoTimeoutError
                 | WO_Returns completed =>
                     match on_complete with
                     | Some run_callback =>
                         if completed && notify then swallow run_callback else ret tt
                     | None => ret tt
                     end
                 end
             end)).
  { destruct on_complete as [m |]; [specialize (Hoc m eq_refl) |]; respects_tac. }
  unfold channel_write. fold ev. unfold bind at 1. unfold emit at 1.
  destruct (Hrest (with_event ev w)) as (post & Hpost & Fpost).
  exists post. split; [| exact Fpost].
  unfold with_event in Hpost. cbn [trace] in Hpost.
  rewrite <- app_assoc in Hpost. exact Hpost.
Qed.

Lemma put_send_trace (value : pyval) (wait : bool) (timeout : Timeout)
    (use_complete : bool) (callback : option cbid) (callback_data : list pyval)
    (w : World) :
  let notify := use_complete || bool_decide (is_Some callback) || wait in
  exists cb post,
    trace (snd (put_send value wait timeout use_complete callback callback_data w))
    = trace w ++ EvWrite value (if notify then wait else false) cb timeout notify :: post
    /\ Forall not_write post.
Proof.
  cbn zeta. unfold put_send. cbv zeta.
  set (notify := use_complete || bool_decide (is_Some callback) || wait).
  set (run_callback := if bool_decide (callback = None) && negb use_complete
                       then None else Some _).
  assert (Hrc : forall m, run_callback = Some m -> respects (emits not_write) m).
  { intros m Hm. unfold run_callback in Hm.
    destruct (bool_decide (callback = None) && negb use_complete);
      [discriminate Hm |].
    injection Hm as <-. respects_tac. }
  clearbody run_callback.
  set (pre := if notify then _ else ret false).
  assert (Hpre : exists w1, pre w = (Ok (if notify then wait else false), w1)
                            /\ trace w1 = trace w).
  { unfold pre. destruct notify, use_complete; cbn; eauto. }
  destruct Hpre as (w1 & Hw1 & Ht1).
  unfold bind at 1. rewrite Hw1.
  destruct (channel_write_trace value (if notify then wait else false) run_callback
              timeout notify w1 Hrc) as (post & Hpost & Fpost).
  exists (bool_decide (is_Some run_callback)), post.
  rewrite <- Ht1. split; assumption.
Qed.

(** C9: every write that [put] issues carries [notify = use_complete or
    (callback is not None) or wait], and its [wait] is the caller's when
    [notify] holds and false otherwise; a [put] that returns has issued
    such a write; so a bare [put] writes with [wait] and [notify] false. *)
Theorem put_notify_iff_any
    (depth : nat) (value : pyval) (wait : bool) (timeout_kw : option Timeout)
    (use_complete : bool) (callback : option cbid)
    (callback_data : option (list pyval)) (w : World) :
  let notify := use_complete || bool_decide (is_Some callback) || wait in
  let result := put depth value wait timeout_kw use_complete callback callback_data w in
  emits (write_with (if notify then wait else false) notify) w (snd result)
  /\ (fst result = Ok tt ->
      exists pre v cb t post,
        trace (snd result)
        = pre ++ EvWrite v (if notify then wait else false) cb t notify :: post)
  /\ (use_complete = false -> callback = None -> wait = false ->
      emits (write_with false false) w (snd result)).
Proof.
  cbn zeta.
  set (notify := use_complete || bool_decide (is_Some callback) || wait).
  assert (Hall : emits (write_with (if notify then wait else false) notify) w
                   (snd (put depth value wait timeout_kw use_complete callback
                           callback_data w))).
  { apply (respects_put (emits (write_with (if notify then wait else false) notify))).
    - intros; exact I.
    - intros v cb t. cbn. fold notify. auto. }
  split; [exact Hall |]. split.
  - intros Hok.
    destruct (put depth value wait timeout_kw use_complete callback callback_data w)
      as [r w'] eqn:Hput.
    cbn [fst snd] in *. subst r.
    unfold put, ensure_connection in Hput.
    apply bind_ok in Hput. destruct Hput as (c & w1 & _ & Hput).
    cbv zeta in Hput.
    apply bind_ok in Hput. destruct Hput as (v & w2 & _ & Hsend).
    destruct (put_send_trace v wait
                (match timeout_kw with None => TSeconds 30000 | Some t => t end)
                use_complete callback (default [] callback_data) w2)
      as (cb & post & Htr & _).
    rewrite Hsend in Htr. cbn [snd] in Htr. fold notify in Htr.
    eauto 6.
  - intros -> -> ->. exact Hall.
Qed.

Lemma put_notify_iff_any_witness :
  let w := connected_world DOUBLE 1 3 (script_env [] [] [WO_Returns true]) in
  (exists pre v cb t post,
      trace (snd (put 2 (PInt 5) true None false None None w))
      = pre ++ EvWrite v true cb t true :: post)
  /\ emits (write_with false false) w (snd (put 2 (PInt 5) false None false None None w)).
Proof.
  cbn zeta. split.
  - refine (proj1 (proj2 (put_notify_iff_any 2 (PInt 5) true None false None None _)) _).
    vm_compute. reflexivity.
  - exact (proj2 (proj2 (put_notify_iff_any 2 (PInt 5) false None false None None _))
             eq_refl eq_refl eq_refl).
Defined.

(** ** [put] on an enumerated type *)

Lemma bind_eq_ok {A B} (m : M A) (k : A -> M B) (w w1 : World) (a : A) :
  m w = (Ok a, w1) -> bind m k w = k a w1.
Proof. intros H. unfold bind. now rewrite H. Qed.

Lemma bind_eq_raise {A B} (m : M A) (k : A -> M B) (w w1 : World) (e : exn) :
  m w = (Raise e, w1) -> bind m k w = (Raise e, w1).
Proof. intros H. unfold bind. now rewrite H. Qed.

Lemma bind_raise {A B} (m : M A) (k : A -> M B) (w w' : World) (e : exn) :
  bind m k w = (Raise e, w') ->
  m w = (Raise e, w') \/ exists a w1, m w = (Ok a, w1) /\ k a w1 = (Raise e, w').
Proof.
  unfold bind. destruct (m w) as [[a | e1] w1]; intros H; [right; eauto | left].
  injection H as -> ->. reflexivity.
Qed.

Lemma args_item_some (key : string) (w : World) (v : pyval) :
  _args (pv w) !! key = Some v -> args_item key w = (Ok v, w).
Proof. intros H. unfold args_item, bind, self. now rewrite H. Qed.

Lemma wait_for_connection_connected (timeout : Timeout) (w : World) :
  PV_connected (pv w) = true -> wait_for_connection timeout w = (Ok true, w).
Proof.
  intros H. unfold wait_for_connection, connected, bind, self, ret. now rewrite H.
Qed.

Lemma ensure_connection_connected {A} (timeout_kw : option Timeout) (func : M A)
    (w : World) :
  PV_connected (pv w) = true -> ensure_connection timeout_kw func w = func w.
Proof.
  intros H. unfold ensure_connection.
  now rewrite (bind_eq_ok _ _ _ _ _ (wait_for_connection_connected _ w H)).
Qed.

Lemma getarg_cached (get : M pyval) (arg : string) (w : World) (v a : pyval) :
  _args (pv w) !! "value" = Some v -> is_None v = false ->
  _args (pv w) !! arg = Some a -> is_None a = false ->
  _getarg_with get arg w = (Ok a, w).
Proof.
  intros Hv Hnv Ha Hna. unfold _getarg_with.
  rewrite (bind_eq_ok _ _ _ _ _ (args_item_some _ _ _ Hv)). rewrite Hnv.
  unfold bind at 1. unfold ret at 1.
  rewrite (bind_eq_ok _ _ _ _ _ (args_item_some _ _ _ Ha)). rewrite Hna.
  unfold connected, bind, self, ret, dict_get. cbn. now rewrite Ha.
Qed.

Lemma put_send_never_value_error (value : pyval) (wait : bool) (timeout : Timeout)
    (use_complete : bool) (callback : option cbid) (callback_data : list pyval)
    (w : World) :
  fst (put_send value wait timeout use_complete callback callback_data w)
  <> Raise CaprotoValueError.
Proof.
  unfold put_send. cbv zeta.
  set (notify := use_complete || bool_decide (is_Some callback) || wait).
  set (run_callback := if bool_decide (callback = None) && negb use_complete
                       then None else Some _).
  clearbody run_callback.
  set (pre := if notify then _ else ret false).
  assert (Hpre : exists x w1, pre w = (Ok x, w1)).
  { unfold pre. destruct notify, use_complete; cbn; eauto. }
  destruct Hpre as (x & w1 & Hpre).
  rewrite (bind_eq_ok _ _ _ _ _ Hpre).
  unfold channel_write, bind, emit, the_env, update_env, ret, raise, swallow. cbn.
  destruct (write_script (env w1)) as [| [| completed] rest]; cbn; try discriminate.
  destruct run_callback as [m |]; cbn; try discriminate.
  destruct (completed && _); cbn; try discriminate.
  destruct (m _); cbn. discriminate.
Qed.

Lemma put_value_enum_cached (depth : nat) (s : string) (w : World)
    (wa tf v : pyval) (names : list pyval) :
  _args (pv w) !! "write_access" = Some wa -> truthy wa = true ->
  _args (pv w) !! "typefull" = Some tf -> type_in tf enum_types = true ->
  _args (pv w) !! "value" = Some v -> is_None v = false ->
  _args (pv w) !! "enum_strs" = Some (PSeq names) ->
  put_value depth (PStr s) w
  = match tuple_index names s 0 with
    | Some i => (Ok (PSeq [PInt i]), w)
    | None => (Raise CaprotoValueError, w)
    end.
Proof.
  intros Hwa Hta Htf Hen Hv Hnv Hes.
  assert (Hget : enum_strs depth w = (Ok (PSeq names), w)).
  { unfold enum_strs, _getarg. now apply (getarg_cached _ _ _ v). }
  unfold put_value.
  rewrite (bind_eq_ok _ _ _ _ _ (args_item_some _ _ _ Hwa)). rewrite Hta. cbn [negb].
  rewrite (bind_eq_ok _ _ _ _ _ (args_item_some _ _ _ Htf)). rewrite Hen.
  destruct (tuple_index names s 0) as [i |] eqn:Hidx.
  - erewrite (bind_eq_ok _ _ w w (PInt i)); [reflexivity |].
    rewrite (bind_eq_ok _ _ _ _ _ Hget).
    unfold lift, bind, ret. cbn [py_index_of]. rewrite Hidx. reflexivity.
  - erewrite (bind_eq_raise _ _ w w CaprotoValueError); [reflexivity |].
    rewrite (bind_eq_ok _ _ _ _ _ Hget).
    unfold lift at 1. unfold bind at 1. cbn [py_index_of]. rewrite Hidx.
    rewrite (bind_eq_ok _ _ _ _ _ Hget). reflexivity.
Qed.

Lemma put_value_error_no_write (depth : nat) (value : pyval) (wait : bool)
    (timeout_kw : option Timeout) (use_complete : bool) (callback : option cbid)
    (callback_data : option (list pyval)) (w : World) :
  fst (put depth value wait timeout_kw use_complete callback callback_data w)
  = Raise CaprotoValueError ->
  emits not_write w
    (snd (put depth value wait timeout_kw use_complete callback callback_data w)).
Proof.
  destruct (put depth value wait timeout_kw use_complete callback callback_data w)
    as [r w'] eqn:Hput.
  cbn [fst snd]. intros ->.
  unfold put, ensure_connection in Hput. cbv zeta in Hput.
  set (t0 := match timeout_kw with Some t => t | None => TSeconds 5000 end) in Hput.
  pose proof (respects_wait_for_connection (emits not_write) t0 w) as Hwfc.
  apply bind_raise in Hput. destruct Hput as [Hput | (c & w1 & Hc & Hput)].
  { now rewrite Hput in Hwfc. }
  rewrite Hc in Hwfc. cbn [snd] in Hwfc.
  assert (Hpv : emits not_write w1 (snd (put_value depth value w1))).
  { apply (respects_put_value (emits not_write)). intros; reflexivity. }
  apply bind_raise in Hput. destruct Hput as [Hput | (v & w2 & Hv & Hput)].
  { rewrite Hput in Hpv. eapply emits_trans; eassumption. }
  exfalso.
  eapply put_send_never_value_error. rewrite Hput. reflexivity.
Qed.

(** C4 (as amended): on a connected handle of enumerated type with write
    access whose cache holds a value and the enum names, [put] of a text
    that is not among the names fails with a value error and leaves the
    handle, its cache and the log of calls as they were; [put] of a text
    found at index [i] writes [(i,)].  From any state, a [put] that ends
    with the value error has issued no write. *)
Theorem put_enum_text
    (depth : nat) (s : string) (wait : bool) (timeout_kw : option Timeout)
    (use_complete : bool) (callback : option cbid)
    (callback_data : option (list pyval)) (w : World)
    (wa tf v : pyval) (names : list pyval) :
  PV_connected (pv w) = true ->
  _args (pv w) !! "write_access" = Some wa -> truthy wa = true ->
  _args (pv w) !! "typefull" = Some tf -> type_in tf enum_types = true ->
  _args (pv w) !! "value" = Some v -> is_None v = false ->
  _args (pv w) !! "enum_strs" = Some (PSeq names) ->
  let result := put depth (PStr s) wait timeout_kw use_complete callback
                  callback_data w in
  (tuple_index names s 0 = None -> result = (Raise CaprotoValueError, w))
  /\ (forall i, tuple_index names s 0 = Some i ->
      result = put_send (PSeq [PInt i]) wait
                 (match timeout_kw with None => TSeconds 30000 | Some t => t end)
                 use_complete callback (default [] callback_data) w)
  /\ (forall depth' value' w',
         fst (put depth' value' wait timeout_kw use_complete callback callback_data w')
         = Raise CaprotoValueError ->
         emits not_write w'
           (snd (put depth' value' wait timeout_kw use_complete callback
                   callback_data w'))).
Proof.
  intros Hconn Hwa Hta Htf Hen Hv Hnv Hes. cbn zeta.
  pose proof (put_value_enum_cached depth s w wa tf v names Hwa Hta Htf Hen Hv Hnv Hes)
    as Hpv.
  split; [| split].
  - intros Hidx. rewrite Hidx in Hpv.
    unfold put. rewrite ensure_connection_connected by assumption. cbv zeta.
    now rewrite (bind_eq_raise _ _ _ _ _ Hpv).
  - intros i Hidx. rewrite Hidx in Hpv.
    unfold put. rewrite ensure_connection_connected by assumption. cbv zeta.
    now rewrite (bind_eq_ok _ _ _ _ _ Hpv).
  - intros depth' value' w'. apply put_value_error_no_write.
Qed.

Lemma put_enum_text_witness :
  put 2 (PStr "zzz") false None false None None enum_world_with_names
  = (Raise CaprotoValueError, enum_world_with_names)
  /\ put 2 (PStr "on") false None false None None enum_world_with_names
     = put_send (PSeq [PInt 1]) false (TSeconds 30000) false None []
         enum_world_with_names
  /\ emits not_write enum_world
       (snd (put 2 (PStr "zzz") false None false None None enum_world)).
Proof.
  pose proof (put_enum_text 2 "zzz" false None false None None enum_world_with_names
                (PBool true) (PType TIME_ENUM) (PNp 1) [PStr "off"; PStr "on"]) as Hz.
  pose proof (put_enum_text 2 "on" false None false None None enum_world_with_names
                (PBool true) (PType TIME_ENUM) (PNp 1) [PStr "off"; PStr "on"]) as Hon.
  cbn zeta in Hz, Hon.
  destruct Hz as (Hz1 & _ & Hz3);
    [vm_compute; reflexivity .. |].
  destruct Hon as (_ & Hon2 & _);
    [vm_compute; reflexivity .. |].
  split; [apply Hz1; reflexivity |].
  split; [apply (Hon2 1); reflexivity |].
  apply Hz3. vm_compute. reflexivity.
Defined.

(** C4, as stated, fails: on a connected handle of enumerated type whose
    enum names are not cached yet, [put] of an unknown text first fetches
    the control metadata, which lands in the cache, and only then fails. *)
Lemma put_unknown_enum_text_changes_cache :
  let result := put 2 (PStr "zzz") false None false None None enum_world in
  PV_connected (pv enum_world) = true
  /\ _args (pv enum_world) !! "typefull" = Some (PType TIME_ENUM)
  /\ _args (pv enum_world) !! "enum_strs" = Some PNone
  /\ fst result = Raise CaprotoValueError
  /\ _args (pv (snd result)) !! "enum_strs" = Some (PSeq [PStr "off"; PStr "on"])
  /\ _args (pv (snd result)) <> _args (pv enum_world).
Proof.
  cbn zeta. repeat split; try (vm_compute; reflexivity).
  intros H.
  apply (f_equal (fun m : gmap string pyval => m !! "enum_strs")) in H.
  vm_compute in H. discriminate H.
Qed.

(** ** [caput_many] *)

Lemma caput_loop_ok (depth : nat) (pvs : list World) (values : list pyval)
    (wait_each wait_all : bool) (ct pt : Timeout) :
  length pvs = length values ->
  Forall ok_or_timeout (pair_outcomes depth pvs values wait_each wait_all ct pt) ->
  caput_loop depth pvs values wait_each wait_all ct pt
  = (Ok (pair_status <$> pair_outcomes depth pvs values wait_each wait_all ct pt),
     snd <$> pair_outcomes depth pvs values wait_each wait_all ct pt).
Proof.
  revert values. induction pvs as [| p pvs IH]; intros [| v values] Hlen Hall;
    try discriminate Hlen; [reflexivity |].
  unfold pair_outcomes in *. cbn [zip zip_with fmap list_fmap fst snd] in *.
  apply Forall_cons in Hall. destruct Hall as [Ho Hall].
  injection Hlen as Hlen. specialize (IH values Hlen Hall).
  cbn [caput_loop].
  destruct (connect_and_put depth v wait_each wait_all ct pt p) as [r p'] eqn:E.
  unfold ok_or_timeout, pair_status in *. cbn [fst snd] in *.
  destruct r as [u | e].
  - rewrite IH. reflexivity.
  - rewrite Ho, IH. reflexivity.
Qed.

Lemma caput_loop_raise (depth : nat) (pvs : list World) (values : list pyval)
    (wait_each wait_all : bool) (ct pt : Timeout)
    (pre post : list (Res unit * World)) (o : Res unit * World) (e : exn) :
  pair_outcomes depth pvs values wait_each wait_all ct pt = pre ++ o :: post ->
  Forall ok_or_timeout pre ->
  fst o = Raise e -> is_TimeoutError e = false ->
  fst (caput_loop depth pvs values wait_each wait_all ct pt) = Raise e.
Proof.
  revert pvs values. induction pre as [| o1 pre IH]; intros pvs values Hout Hpre Ho He.
  - destruct pvs as [| p pvs], values as [| v values]; try discriminate Hout.
    unfold pair_outcomes in Hout. cbn [zip zip_with fmap list_fmap fst snd app] in Hout.
    injection Hout as Hout _. cbn [caput_loop].
    rewrite Hout. destruct o as [r p']. cbn [fst] in Ho. subst r.
    rewrite He. reflexivity.
  - destruct pvs as [| p pvs], values as [| v values]; try discriminate Hout.
    unfold pair_outcomes in Hout. cbn [zip zip_with fmap list_fmap fst snd app] in Hout.
    injection Hout as Ho1 Hout.
    apply Forall_cons in Hpre. destruct Hpre as [Hok Hpre].
    specialize (IH pvs values Hout Hpre Ho He).
    cbn [caput_loop]. rewrite Ho1.
    destruct o1 as [r p']. unfold ok_or_timeout in Hok. cbn [fst] in Hok.
    destruct (caput_loop depth pvs values wait_each wait_all ct pt) as [rs ps].
    cbn [fst] in IH. subst rs.
    destruct r as [u | e1]; [reflexivity |]. rewrite Hok. reflexivity.
Qed.

Lemma caput_loop_statuses (depth : nat) (pvs : list World) (values : list pyval)
    (wait_each wait_all : bool) (ct pt : Timeout) (out : list Z) :
  length pvs = length values ->
  fst (caput_loop depth pvs values wait_each wait_all ct pt) = Ok out ->
  length out = length pvs /\ Forall (fun s => s = 1 \/ s = -1) out
  /\ length (snd (caput_loop depth pvs values wait_each wait_all ct pt)) = length pvs.
Proof.
  revert values out. induction pvs as [| p pvs IH]; intros [| v values] out Hlen Hok;
    try discriminate Hlen.
  - cbn in Hok. injection Hok as <-. repeat split. constructor.
  - injection Hlen as Hlen. cbn [caput_loop] in *.
    destruct (connect_and_put depth v wait_each wait_all ct pt p) as [r p'].
    specialize (IH values).
    destruct (caput_loop depth pvs values wait_each wait_all ct pt) as [rs ps].
    cbn [fst snd] in *.
    destruct r as [u | e]; [| destruct (is_TimeoutError e); [| discriminate Hok]].
    all: destruct rs as [out' | e']; [| discriminate Hok].
    all: cbn [res_bind fst snd] in *.
    all: injection Hok as <-.
    all: destruct (IH out' Hlen eq_refl) as (H1 & H2 & H3).
    all: cbn [length]; repeat split; try (f_equal; assumption).
    all: constructor; [tauto | assumption].
Qed.

Lemma make_pvs_length (context : string -> CaPV * Env) (pvlist : list string)
    (ct : Timeout) (pvs : list World) :
  make_pvs context pvlist ct = Ok pvs -> length pvs = length pvlist.
Proof.
  revert pvs. induction pvlist as [| name rest IH]; intros pvs H.
  - injection H as <-. reflexivity.
  - cbn [make_pvs] in H. destruct (context name) as [chan e].
    destruct (PV_init _ _ _ _ _ _ _ _ _ _) as [[u | e'] w]; [| discriminate H].
    destruct (make_pvs context rest ct) as [ws | e']; [| discriminate H].
    injection H as <-. cbn [length]. f_equal. now apply IH.
Qed.

Lemma res_map_put_status (ws : list World) (out : list Z) :
  res_map put_status ws = Ok out ->
  length out = length ws /\ Forall (fun s => s = 1 \/ s = -1) out.
Proof.
  revert out. induction ws as [| w ws IH]; intros out H.
  - injection H as <-. split; [reflexivity | constructor].
  - cbn [res_map] in H.
    destruct (put_status w) as [z | e] eqn:Hz; [| discriminate H].
    destruct (res_map put_status ws) as [zs | e]; [| discriminate H].
    injection H as <-. destruct (IH zs eq_refl) as [H1 H2].
    split; [cbn [length]; now f_equal |].
    constructor; [| assumption].
    unfold put_status in Hz. destruct (PV_connected (pv w)).
    + destruct (_args (pv w) !! "put_complete") as [x |]; [| discriminate Hz].
      injection Hz as <-. destruct (truthy x); tauto.
    + injection Hz as <-. tauto.
Qed.

Lemma caput_many_unfold (depth : nat) (context : string -> CaPV * Env)
    (pvlist : list string) (values : list pyval) (wait : pyval) (ct pt : Timeout)
    (pvs : list World) :
  length pvlist = length values ->
  make_pvs context pvlist ct = Ok pvs ->
  caput_many depth context pvlist values wait ct pt
  = res_bind (fst (caput_loop depth pvs values (py_eq_str wait "each")
                     (py_eq_str wait "all") ct pt))
      (fun out =>
         if negb (py_eq_str wait "all")
         then Ok ((fun o => if o =? 1 then o else -1) <$> out)
         else res_map put_status
                (snd (caput_loop depth pvs values (py_eq_str wait "each")
                        (py_eq_str wait "all") ct pt))).
Proof.
  intros Hlen Hmake. unfold caput_many.
  rewrite Hlen, Nat.eqb_refl. cbn [negb]. rewrite Hmake. cbn [res_bind].
  destruct (caput_loop _ _ _ _ _ _ _) as [rout ws]. reflexivity.
Qed.

Lemma normalise_statuses (os : list (Res unit * World)) :
  (fun o => if o =? 1 then o else -1) <$> (pair_status <$> os) = pair_status <$> os.
Proof.
  induction os as [| o os IH]; [reflexivity |].
  rewrite !fmap_cons, IH. f_equal.
  unfold pair_status. destruct (fst o); reflexivity.
Qed.




(** ** The callback registry *)

#[global] Instance same_cb_count_respected : Respected same_cb_count.
Proof.
  refine {| Pev := fun _ => True |}; unfold same_cb_count; cbn; try congruence; auto.
Defined.

#[global] Instance same_cb_count_wait_respected : WaitRespected same_cb_count.
Proof.
  intros timeout. revert timeout.
  apply (respects_channel_wait_free same_cb_count); reflexivity.
Qed.

Lemma op_keeps_cb_count (depth : nat) (op : Op) (w : World) :
  (forall c i rn wc kw, op <> OpAddCallback c i rn wc kw) ->
  _cb_count (pv (snd (op_method depth op w))) = _cb_count (pv w).
Proof.
  intros Hop.
  apply (respects_op_method same_cb_count depth op); try (intros; exact I).
  - intros c i rn wc kw ->. now destruct (Hop c i rn wc kw).
  - intros; reflexivity.
Qed.

Lemma bind_ret_value {A B} (m : M A) (b b' : B) (w w' : World) :
  (m ;;; ret b) w = (Ok b', w') -> b' = b.
Proof.
  unfold bind, ret. destruct (m w) as [[a | e] w1]; intros H; [| discriminate H].
  now injection H as <- _.
Qed.

(** [add_callback] hands out the current value of the counter and moves
    the counter one up; a rejected call leaves the world alone. *)
Lemma add_callback_counts (depth : nat) (callback : PyCallable) (index : pyval)
    (run_now with_ctrlvars : bool) (kw : gmap string pyval) (w : World) :
  let result := add_callback depth callback index run_now with_ctrlvars kw w in
  (forall i, fst result = Ok i -> i = _cb_count (pv w))
  /\ (_cb_count (pv (snd result)) = _cb_count (pv w) + 1
      \/ (snd result = w /\ fst result = Raise CaprotoValueError)).
Proof.
  cbn zeta. unfold add_callback.
  destruct callback as [cb | v]; [| split; [discriminate | right; split; reflexivity]].
  destruct (is_None index); cbn [negb];
    [| split; [discriminate | right; split; reflexivity]].
  set (X := bind self _ w).
  assert (H : exists (rest : M Z) (w1 : World),
             X = rest w1
             /\ _cb_count (pv w1) = _cb_count (pv w) + 1
             /\ respects same_cb_count rest
             /\ forall i w2, rest w1 = (Ok i, w2) -> i = _cb_count (pv w)).
  { unfold X. unfold bind at 1. unfold self at 1.
    unfold bind at 1. unfold update at 1.
    eexists _, {| pv := set__cb_count (_cb_count (pv w) + 1) (pv w);
                  env := env w; trace := trace w |}.
    split; [reflexivity |]. split; [reflexivity |]. split.
    - pose proof (respects_get same_cb_count (fun _ _ _ => I) depth None true true TNone
                    false true).
      pose proof (respects_get_ctrlvars same_cb_count).
      pose proof (respects_check_auto_monitor_sub same_cb_count None).
      pose proof (respects_run_callback same_cb_count (_cb_count (pv w))).
      pose proof (respects_connected same_cb_count).
      respects_tac.
    - intros i w2 Hw2.
      repeat (apply bind_ok in Hw2; destruct Hw2 as (? & ? & _ & Hw2)).
      unfold ret in Hw2. now injection Hw2 as <- _. }
  clearbody X. destruct H as (rest & w1 & -> & Hw1 & Hrest & Hret).
  split.
  - intros i Hi. destruct (rest w1) as [r w2] eqn:Hw2. cbn [fst] in Hi. subst r.
    now apply (Hret i w2).
  - left. rewrite (Hrest w1). exact Hw1.
Qed.

Lemma op_method_counts (depth : nat) (op : Op) (w : World) :
  _cb_count (pv w) <= _cb_count (pv (snd (op_method depth op w)))
  /\ (forall i, fst (op_method depth op w) = Ok (Some i) ->
      i = _cb_count (pv w)
      /\ _cb_count (pv (snd (op_method depth op w))) = i + 1).
Proof.
  destruct op as [| | | | | | | | | c idx rn wc kw | | | |].
  10:{ cbn [op_method].
       pose proof (add_callback_counts depth c idx rn wc kw w) as [Hi Hc].
       cbn zeta in Hi, Hc. unfold bind, ret.
       destruct (add_callback depth c idx rn wc kw w) as [[i | e] w1];
         cbn [fst snd] in *.
       - destruct Hc as [Hc | [_ Hc]]; [| discriminate Hc].
         split; [lia |]. intros i' [= <-]. split; [now apply Hi |].
         rewrite Hc, (Hi i eq_refl). reflexivity.
       - split; [| discriminate]. destruct Hc as [Hc | [-> _]]; lia. }
  all: match goal with
       | |- context [op_method ?d ?op ?w0] =>
           pose proof (op_keeps_cb_count d op w0 ltac:(discriminate)) as Hk
       end.
  all: split; [lia |].
  all: intros i Hi; exfalso; cbn [op_method] in Hi; unfold bind, ret in Hi.
  all: match type of Hi with
       | context [match ?m ?w0 with _ => _ end] =>
           destruct (m w0) as [[? | ?] ?]; discriminate Hi
       end.
Qed.

Lemma run_ops_indices (depth : nat) (ops : list Op) (w : World) :
  Forall (fun i => _cb_count (pv w) <= i) (fst (run_ops depth ops w))
  /\ StronglySorted Z.lt (fst (run_ops depth ops w)).
Proof.
  revert w. induction ops as [| op ops IH]; intros w.
  - split; constructor.
  - cbn [run_ops].
    pose proof (op_method_counts depth op w) as [Hle Hidx].
    destruct (op_method depth op w) as [r w1]. cbn [fst snd] in *.
    destruct (IH w1) as [Hall Hsorted].
    destruct (run_ops depth ops w1) as [indices w2]. cbn [fst] in *.
    assert (Hall' : Forall (fun i => _cb_count (pv w) <= i) indices).
    { eapply Forall_impl; [exact Hall |]. cbn. intros; lia. }
    destruct r as [[i |] | e]; try (split; assumption).
    destruct (Hidx i eq_refl) as [-> Hnext].
    split.
    + constructor; [lia | exact Hall'].
    + constructor; [exact Hsorted |].
      eapply Forall_impl; [exact Hall |]. cbn. intros; lia.
Qed.

Lemma run_callback_dispatches (p : PV) (e : Env) (tr : list Event) (i : Z)
    (fcn : cbid) (kwargs : gmap string pyval) :
  callbacks p !! i = Some (fcn, kwargs) ->
  cb_raises e fcn = false ->
  run_callback i {| pv := p; env := e; trace := tr |}
  = (Ok tt,
     {| pv := p; env := e;
        trace := tr ++ [EvCallback fcn
                          (<["cb_info" := PSeq [PInt i; PSelf]]> (kwargs ∪ _args p))] |}).
Proof.
  intros Hcb Hr. unfold run_callback, call_user, bind, self, emit, the_env, ret.
  cbn. rewrite Hcb. cbn. rewrite Hr. reflexivity.
Qed.

Lemma for_each_run_callback (l : list Z) (p : PV) (e : Env) (tr : list Event) :
  (forall i, i ∈ l -> exists fcn kwargs,
        callbacks p !! i = Some (fcn, kwargs) /\ cb_raises e fcn = false) ->
  exists evs,
    for_each l run_callback {| pv := p; env := e; trace := tr |}
    = (Ok tt, {| pv := p; env := e; trace := tr ++ evs |})
    /\ Forall2 (dispatch_of p) l evs.
Proof.
  revert tr. induction l as [| i l IH]; intros tr Hl.
  - exists []. split; [now rewrite app_nil_r | constructor].
  - destruct (Hl i) as (fcn & kwargs & Hcb & Hr); [now left |].
    destruct (IH (tr ++ [EvCallback fcn
                           (<["cb_info" := PSeq [PInt i; PSelf]]> (kwargs ∪ _args p))]))
      as (evs & Hevs & Hdisp).
    { intros j Hj. apply Hl. now right. }
    eexists (_ :: evs). split.
    + cbn [for_each].
      rewrite (bind_eq_ok _ _ _ _ _ (run_callback_dispatches p e tr i fcn kwargs Hcb Hr)).
      rewrite Hevs. now rewrite <- app_assoc.
    + constructor; [| exact Hdisp]. exists fcn, kwargs. split; [exact Hcb | reflexivity].
Qed.

Lemma sorted_keys_elem (cbs : gmap Z (cbid * gmap string pyval)) (i : Z) :
  i ∈ sorted_keys cbs <-> is_Some (cbs !! i).
Proof.
  unfold sorted_keys. rewrite merge_sort_Permutation.
  rewrite list_elem_of_fmap. split.
  - intros ([j x] & -> & Hin). apply elem_of_map_to_list in Hin. cbn. eauto.
  - intros [x Hx]. exists (i, x). split; [reflexivity |].
    now apply elem_of_map_to_list.
Qed.

Lemma sorted_le_nodup_lt (l : list Z) :
  StronglySorted Z.le l -> NoDup l -> StronglySorted Z.lt l.
Proof.
  induction 1 as [| x l Hs IH Hall]; intros Hnd; [constructor |].
  apply NoDup_cons in Hnd. destruct Hnd as [Hx Hnd].
  constructor; [now apply IH |].
  apply Forall_forall. intros y Hy.
  rewrite Forall_forall in Hall. specialize (Hall y Hy).
  assert (x <> y) by (intros ->; contradiction). lia.
Qed.

Lemma sorted_keys_ascending (cbs : gmap Z (cbid * gmap string pyval)) :
  StronglySorted Z.lt (sorted_keys cbs).
Proof.
  apply sorted_le_nodup_lt.
  - unfold sorted_keys. apply StronglySorted_merge_sort; apply _.
  - unfold sorted_keys. rewrite merge_sort_Permutation.
    apply NoDup_fst_map_to_list.
Qed.

Lemma run_callback_raises (p : PV) (e : Env) (tr : list Event) (i : Z)
    (fcn : cbid) (kwargs : gmap string pyval) :
  callbacks p !! i = Some (fcn, kwargs) ->
  cb_raises e fcn = true ->
  run_callback i {| pv := p; env := e; trace := tr |}
  = (Raise UserError,
     {| pv := p; env := e;
        trace := tr ++ [EvCallback fcn
                          (<["cb_info" := PSeq [PInt i; PSelf]]> (kwargs ∪ _args p))] |}).
Proof.
  intros Hcb Hr. unfold run_callback, call_user, bind, self, emit, the_env, raise.
  cbn. rewrite Hcb. cbn. rewrite Hr. reflexivity.
Qed.

Lemma for_each_run_callback_raises (pre post : list Z) (i : Z) (p : PV) (e : Env)
    (tr : list Event) (fcn : cbid) (kwargs : gmap string pyval) :
  (forall j, j ∈ pre -> exists f kw,
        callbacks p !! j = Some (f, kw) /\ cb_raises e f = false) ->
  callbacks p !! i = Some (fcn, kwargs) ->
  cb_raises e fcn = true ->
  exists evs,
    for_each (pre ++ i :: post) run_callback {| pv := p; env := e; trace := tr |}
    = (Raise UserError, {| pv := p; env := e; trace := tr ++ evs |})
    /\ Forall2 (dispatch_of p) (pre ++ [i]) evs.
Proof.
  intros Hpre Hcb Hr. revert tr Hpre.
  induction pre as [| j pre IH]; intros tr Hpre; cbn [app for_each].
  - eexists [_]. split.
    + now rewrite (bind_eq_raise _ _ _ _ _ (run_callback_raises p e tr i fcn kwargs Hcb Hr)).
    + constructor; [| constructor]. exists fcn, kwargs. split; [exact Hcb | reflexivity].
  - destruct (Hpre j) as (f & kw & Hj & Hq); [now left |].
    destruct (IH (tr ++ [EvCallback f
                           (<["cb_info" := PSeq [PInt j; PSelf]]> (kw ∪ _args p))]))
      as (evs & Hevs & Hdisp).
    { intros k Hk. apply Hpre. now right. }
    eexists (_ :: evs). split.
    + rewrite (bind_eq_ok _ _ _ _ _ (run_callback_dispatches p e tr j f kw Hj Hq)).
      rewrite Hevs. now rewrite <- app_assoc.
    + constructor; [| exact Hdisp]. exists f, kw. split; [exact Hj | reflexivity].
Qed.

(** C8 (as amended): whatever happens to a handle, the indices that
    [add_callback] hands out are strictly increasing, so none is handed out
    twice, also after [remove_callback] and [clear_callbacks];
    [run_callbacks] runs the registered callbacks in ascending order of
    index, each with the same cache contents merged with its own keyword
    arguments, up to and including the first one that raises.  When none
    raises, every registered callback is run; when one raises, its
    exception leaves [run_callbacks] and the callbacks registered under
    higher indices are not run. *)
Theorem callback_indices_and_dispatch :
  (forall (depth : nat) (ops : list Op) (w : World),
      StronglySorted Z.lt (fst (run_ops depth ops w))
      /\ Forall (fun i => _cb_count (pv w) <= i) (fst (run_ops depth ops w)))
  /\ (forall w : World,
         (forall i fcn kwargs,
             callbacks (pv w) !! i = Some (fcn, kwargs) ->
             cb_raises (env w) fcn = false) ->
         exists evs,
           run_callbacks w
           = (Ok tt, {| pv := pv w; env := env w; trace := trace w ++ evs |})
           /\ Forall2 (dispatch_of (pv w)) (sorted_keys (callbacks (pv w))) evs)
  /\ (forall (w : World) (pre post : list Z) (i : Z) (fcn : cbid)
             (kwargs : gmap string pyval),
         sorted_keys (callbacks (pv w)) = pre ++ i :: post ->
         (forall j f kw, j ∈ pre -> callbacks (pv w) !! j = Some (f, kw) ->
                         cb_raises (env w) f = false) ->
         callbacks (pv w) !! i = Some (fcn, kwargs) ->
         cb_raises (env w) fcn = true ->
         exists evs,
           run_callbacks w
           = (Raise UserError, {| pv := pv w; env := env w; trace := trace w ++ evs |})
           /\ Forall2 (dispatch_of (pv w)) (pre ++ [i]) evs)
  /\ (forall cbs : gmap Z (cbid * gmap string pyval),
         StronglySorted Z.lt (sorted_keys cbs)
         /\ forall i, i ∈ sorted_keys cbs <-> is_Some (cbs !! i)).
Proof.
  split; [| split; [| split]].
  - intros depth ops w. destruct (run_ops_indices depth ops w). now split.
  - intros [p e tr] Hquiet. cbn [pv env trace] in *.
    unfold run_callbacks. unfold bind at 1. unfold self at 1. cbn [pv].
    apply for_each_run_callback.
    intros i Hi. apply sorted_keys_elem in Hi. destruct Hi as [[fcn kwargs] Hcb].
    exists fcn, kwargs. split; [exact Hcb | now apply (Hquiet i fcn kwargs)].
  - intros [p e tr] pre post i fcn kwargs Hkeys Hquiet Hcb Hr. cbn [pv env trace] in *.
    unfold run_callbacks. unfold bind at 1. unfold self at 1. cbn [pv].
    rewrite Hkeys. apply (for_each_run_callback_raises pre post i p e tr fcn kwargs);
      try assumption.
    intros j Hj.
    assert (Hin : j ∈ sorted_keys (callbacks p)).
    { rewrite Hkeys. apply elem_of_app. now left. }
    apply sorted_keys_elem in Hin. destruct Hin as [[f kw] Hf].
    exists f, kw. split; [exact Hf | now apply (Hquiet j f kw)].
  - intros cbs. split; [apply sorted_keys_ascending | apply sorted_keys_elem].
Qed.

Lemma callback_indices_and_dispatch_witness :
  fst (run_ops 2 [OpAddCallback (Callable 7%nat) PNone false false ∅;
                  OpAddCallback (Callable 8%nat) PNone false false ∅;
                  OpRemoveCallback 0; OpClearCallbacks;
                  OpAddCallback (Callable 9%nat) PNone false false ∅]
         (connected_world DOUBLE 1 3 (script_env [] [] []))) = [0; 1; 2]
  /\ sorted_keys (callbacks (pv registry_world)) = [0; 1]
  /\ (exists evs,
       run_callbacks registry_world
       = (Ok tt, {| pv := pv registry_world; env := env registry_world;
                    trace := trace registry_world ++ evs |})
       /\ Forall2 (dispatch_of (pv registry_world))
            (sorted_keys (callbacks (pv registry_world))) evs)
  /\ (exists evs,
       run_callbacks raising_registry_world
       = (Raise UserError,
          {| pv := pv raising_registry_world; env := env raising_registry_world;
             trace := trace raising_registry_world ++ evs |})
       /\ Forall2 (dispatch_of (pv raising_registry_world)) [0] evs).
Proof.
  split; [vm_compute; reflexivity |].
  split; [vm_compute; reflexivity |].
  split.
  - apply (proj1 (proj2 callback_indices_and_dispatch) registry_world).
    intros i fcn kwargs _. vm_compute. reflexivity.
  - apply (proj1 (proj2 (proj2 callback_indices_and_dispatch)) raising_registry_world
             [] [1] 0 7%nat ∅).
    + vm_compute. reflexivity.
    + intros j f kw Hj. apply elem_of_nil in Hj. contradiction.
    + vm_compute. reflexivity.
    + reflexivity.
Defined.

(** C8, as stated, fails: [run_callbacks] does not guard the calls.  With
    callbacks registered under 0 and 1, of which the first raises, the
    exception leaves [run_callbacks] after one call and the callback under
    1 is never run. *)
Lemma run_callbacks_stops_at_raising_callback :
  callbacks (pv raising_registry_world) !! 1 = Some (8%nat, {["tag" := PInt 1]})
  /\ fst (run_callbacks raising_registry_world) = Raise UserError
  /\ (exists kwd,
         trace (snd (run_callbacks raising_registry_world))
         = trace raising_registry_world ++ [EvCallback 7%nat kwd])
  /\ forallb (fun ev => match ev with
                         | EvCallback cb _ => negb (Nat.eqb cb 8)
                         | _ => true
                         end)
       (trace (snd (run_callbacks raising_registry_world))) = true.
Proof.
  split; [vm_compute; reflexivity |].
  split; [vm_compute; reflexivity |].
  split.
  - eexists. vm_compute. reflexivity.
  - vm_compute. reflexivity.
Qed.

(** ** The [connected] property *)

#[global] Instance keeps_event_clear_respected : Respected (keeps event_clear).
Proof.
  refine {| Pev := fun _ => True |}; unfold keeps, event_clear; cbn; auto; congruence.
Defined.

#[global] Instance keeps_not_yet_notified_respected :
  Respected (keeps not_yet_notified).
Proof.
  refine {| Pev := fun _ => True |}; unfold keeps, not_yet_notified; cbn; auto.
  - intros w p _ -> H. exact H.
  - intros w [_ H]. split; [reflexivity | exact H].
  - intros w e -> H. exact H.
Defined.

#[global] Instance keeps_not_yet_notified_wait_respected :
  WaitRespected (keeps not_yet_notified).
Proof.
  intros timeout w [Hev Hq].
  unfold channel_wait_for_connection.
  unfold bind at 1. unfold emit at 1. unfold bind at 1. unfold the_env at 1.
  cbn [env pv trace].
  destruct (conn_script (env w)) as [| o rest] eqn:Hscript.
  { split; cbn; [exact Hev | now rewrite Hscript]. }
  apply Forall_cons in Hq. destruct Hq as [Ho Hrest].
  unfold bind at 1. unfold update_env at 1. cbn [env pv trace].
  destruct o as [| ch notified].
  { split; cbn; assumption. }
  unfold bind at 1. unfold update at 1. cbn [env pv trace].
  set (w2 := {| pv := set__caproto_pv ch (pv w);
                env := set_conn_script rest (env w);
                trace := trace w ++ [EvWaitForConnection timeout] |}).
  assert (H2 : not_yet_notified w2) by (split; cbn; assumption).
  destruct notified as [state |]; [| exact H2].
  pose proof (respects_connection_state_changed (keeps not_yet_notified) ch state) as Hn.
  unfold swallow.
  specialize (Hn ltac:(intros ->; now destruct Ho) w2 H2).
  destruct (_connection_state_changed ch state w2) as [r w3]. exact Hn.
Qed.

Lemma op_stays_unnotified (depth : nat) (op : Op) (w : World) :
  op_not_connected op -> not_yet_notified w ->
  not_yet_notified (snd (op_method depth op w)).
Proof.
  intros Hop Hw.
  refine (respects_op_method (keeps not_yet_notified) depth op _ _ _ _ w Hw);
    try (intros; exact I).
  - intros c i rn wc kw _ w0 z H. exact H.
  - intros ch ->. now destruct Hop.
Qed.

Lemma run_ops_unnotified (depth : nat) (ops : list Op) (w : World) :
  Forall op_not_connected ops -> not_yet_notified w ->
  not_yet_notified (snd (run_ops depth ops w)).
Proof.
  revert w. induction ops as [| op ops IH]; intros w Hops Hw; [exact Hw |].
  apply Forall_cons in Hops. destruct Hops as [Hop Hops].
  cbn [run_ops].
  pose proof (op_stays_unnotified depth op w Hop Hw) as H1.
  destruct (op_method depth op w) as [r w1]. cbn [snd] in H1.
  specialize (IH w1 Hops H1).
  destruct (run_ops depth ops w1) as [indices w2]. exact IH.
Qed.

Lemma for_each_pv {A} (l : list A) (f : A -> M unit) (w : World) :
  (forall x w0, pv (snd (f x w0)) = pv w0) ->
  pv (snd (for_each l f w)) = pv w.
Proof.
  intros Hf. revert w. induction l as [| x l IH]; intros w; [reflexivity |].
  cbn [for_each]. unfold bind. specialize (Hf x w).
  destruct (f x w) as [[u | e] w1]; cbn [snd] in *; [| exact Hf].
  now rewrite IH.
Qed.

Lemma call_user_pv (ev : Event) (cb : cbid) (w : World) :
  pv (snd (call_user ev cb w)) = pv w.
Proof.
  unfold call_user, bind, emit, the_env, ret, raise. cbn.
  destruct (cb_raises (env w) cb); reflexivity.
Qed.

Lemma connection_callbacks_pv (connected_ : bool) (w : World) :
  pv (snd ((p <- self ;;
            for_each (connection_callbacks p) (fun cb =>
              call_user (EvConnectionCallback cb (pvname p) connected_) cb)) w))
  = pv w.
Proof.
  unfold bind at 1. unfold self at 1. apply for_each_pv.
  intros cb w0. apply call_user_pv.
Qed.

Lemma connected_notification_sets_event (ch : CaPV) (w : World) :
  _connect_event (pv (snd (_connection_state_changed ch "connected" w))) = true.
Proof.
  unfold _connection_state_changed.
  rewrite bool_decide_eq_true_2 by reflexivity.
  unfold bind at 1. unfold update at 1.
  set (w1 := {| pv := set__caproto_pv ch (pv w); env := env w; trace := trace w |}).
  unfold bind at 1. unfold try_finally.
  destruct (_connection_established w1) as [r w2].
  unfold update at 1.
  destruct r as [u | e]; [| reflexivity].
  rewrite connection_callbacks_pv. reflexivity.
Qed.

Lemma other_notification_keeps_handle (ch : CaPV) (state : string) (w : World) :
  state <> "connected" ->
  pv (snd (_connection_state_changed ch state w)) = set__caproto_pv ch (pv w).
Proof.
  intros Hs. unfold _connection_state_changed.
  rewrite bool_decide_eq_false_2 by assumption.
  unfold bind at 1. unfold update at 1.
  unfold bind at 1. unfold try_finally, ret.
  rewrite connection_callbacks_pv. reflexivity.
Qed.

Lemma run_ops_step (depth : nat) (op : Op) (rest : list Op) (w : World) :
  snd (run_ops depth (op :: rest) w)
  = snd (run_ops depth rest (snd (op_method depth op w))).
Proof.
  cbn [run_ops]. destruct (op_method depth op w) as [r w1]. cbn [snd].
  now destruct (run_ops depth rest w1).
Qed.

Lemma bind_ret_world {A B} (m : M A) (b : B) (w : World) :
  snd ((m ;;; ret b) w) = snd (m w).
Proof. unfold bind, ret. now destruct (m w) as [[a | e] w1]. Qed.




(** ** The read decision, for the whole of [get_with_metadata] *)

#[global] Instance emits_not_value_read_respected : Respected (emits not_value_read).
Proof.
  refine {| Pev := not_value_read |}.
  - apply emits_refl.
  - apply emits_trans.
  - intros w ev H. exists [ev]. split; [reflexivity | now constructor].
  - intros w p _ _. now apply emits_same_trace.
  - intros w. now apply emits_same_trace.
  - intros w e _. now apply emits_same_trace.
  - intros ev H _. exact H.
Defined.

Lemma fetch_without_read (type_key : string) (as_string use_monitor : bool)
    (count : option Z) (timeout : Timeout) (md : gmap string pyval) (w : World)
    (t dt : ChannelType) (cached : pyval) :
  _args (pv w) !! "type" = Some (PType t) ->
  field_types type_key t = Some dt ->
  _args (pv w) !! "value" = Some cached ->
  ~ read_required as_string use_monitor dt (_auto_monitor_sub (pv w)) cached count ->
  get_with_metadata_fetch type_key as_string use_monitor count timeout md w = (Ok md, w)
  \/ get_with_metadata_fetch type_key as_string use_monitor count timeout md w
     = (Raise TypeError, w).
Proof.
  intros Ht Hft Hv Hno.
  pose proof (needs_network_read_spec as_string use_monitor dt
                (_auto_monitor_sub (pv w)) cached count) as [_ Hneed].
  cbn zeta in Hneed. specialize (Hneed Hno).
  assert (Hforced : negb as_string && type_in (PType dt) char_types = false).
  { destruct (negb as_string && type_in (PType dt) char_types) eqn:E; [| reflexivity].
    exfalso. apply Hno. left. right. apply andb_true_iff in E. destruct E as [E1 E2].
    split; [now destruct as_string | exact E2]. }
  rewrite Hforced in Hneed.
  unfold get_with_metadata_fetch, type_.
  rewrite (bind_eq_ok _ _ _ _ _ (args_item_some _ _ _ Ht)).
  unfold field_type_item. rewrite Hft.
  rewrite (bind_eq_ok _ _ w w dt) by reflexivity.
  rewrite Hforced.
  rewrite (bind_eq_ok _ _ w w (dt, use_monitor)) by reflexivity.
  cbn [fst snd].
  rewrite (bind_eq_ok _ _ _ _ _ (args_item_some _ _ _ Hv)).
  rewrite (bind_eq_ok _ _ w w (pv w)) by reflexivity.
  destruct Hneed as [Hneed | Hneed].
  - left. rewrite (bind_eq_ok _ _ w w false); [reflexivity |].
    unfold lift. now rewrite Hneed.
  - right. rewrite (bind_eq_raise _ _ w w TypeError); [reflexivity |].
    unfold lift. now rewrite Hneed.
Qed.

Lemma getarg_value_cached (get : M pyval) (arg : string) (w : World) (v : pyval) :
  _args (pv w) !! "value" = Some v -> is_None v = false ->
  _getarg_with get arg w = _getarg_with (ret PNone) arg w.
Proof.
  intros Hv Hnv. unfold _getarg_with.
  rewrite !(bind_eq_ok _ _ _ _ _ (args_item_some _ _ _ Hv)). rewrite Hnv.
  reflexivity.
Qed.

Lemma bind_getarg_value_cached {B} (get : M pyval) (arg : string) (k : pyval -> M B)
    (w : World) (v : pyval) :
  _args (pv w) !! "value" = Some v -> is_None v = false ->
  bind (_getarg_with get arg) k w = bind (_getarg_with (ret PNone) arg) k w.
Proof.
  intros Hv Hnv. unfold bind.
  now rewrite (getarg_value_cached get arg w v Hv Hnv).
Qed.

Lemma method_reads_when_required (depth : nat) (a : GetArgs) (w : World)
    (t dt : ChannelType) (cached : pyval) :
  PV_connected (pv w) = true ->
  g_with_ctrlvars a
  && negb (bool_decide (type_key_of (default (form (pv w)) (g_form a))
                          ∈ ["control"; "native"])) = false ->
  _args (pv w) !! "type" = Some (PType t) ->
  field_types (type_key_of (default (form (pv w)) (g_form a))) t = Some dt ->
  _args (pv w) !! "value" = Some cached ->
  read_required (g_as_string a) (g_use_monitor a) dt (_auto_monitor_sub (pv w)) cached
    (match g_count a with None => default_count (pv w) | Some c => Some c end) ->
  exists timeout post,
    trace (snd (get_with_metadata (S depth) a w))
    = trace w ++ EvRead (requested_type (g_as_string a) dt)
                   (match g_count a with None => default_count (pv w) | Some c => Some c end)
                   timeout :: post.
Proof.
  intros Hconn Hnorec Ht Hft Hv Hreq.
  cbn [get_with_metadata]. unfold get_with_metadata_body.
  rewrite ensure_connection_connected by assumption.
  rewrite (bind_eq_ok _ _ w w (pv w)) by reflexivity. cbv zeta.
  change (match g_form a with Some f => f | None => form (pv w) end)
    with (default (form (pv w)) (g_form a)).
  rewrite Hnorec.
  set (md0 := if g_use_monitor a then _args (pv w) else ∅).
  rewrite (bind_eq_ok _ _ w w md0) by (unfold md0; destruct (g_use_monitor a); reflexivity).
  match goal with
  | |- context [get_with_metadata_fetch ?tk ?s ?um ?c ?to ?md] =>
      pose proof (fetch_reads_iff tk s um c to md w t dt cached Ht Hft Hv) as Hfetch;
      exists to
  end.
  cbn zeta in Hfetch. destruct Hfetch as [Hfetch _]. specialize (Hfetch Hreq).
  unfold bind at 1.
  match goal with
  | |- context [get_with_metadata_fetch ?tk ?s ?um ?c ?to ?md] =>
      destruct (get_with_metadata_fetch tk s um c to md w) as [[md1 | e] w1]
  end; cbn [snd] in Hfetch.
  2:{ exists []. exact Hfetch. }
  match goal with
  | |- context [snd (?m w1)] =>
      assert (Hrest : respects (emits not_write) m)
  end.
  { assert (Hes : respects (emits not_write)
                    (_getarg_with
                       (get_with (get_with_metadata depth) None false true TNone
                          false true) "enum_strs")).
    { apply (respects_getarg_with (emits not_write)).
      apply (respects_get_with (emits not_write)). intros a'.
      apply (respects_get_with_metadata (emits not_write)). intros; reflexivity. }
    unfold typefull. respects_tac. }
  destruct (Hrest w1) as (post & Hpost & _).
  exists post. rewrite Hpost, Hfetch. now rewrite <- app_assoc.
Qed.

Lemma method_no_read_when_not_required (depth : nat) (a : GetArgs) (w : World)
    (t dt : ChannelType) (cached : pyval) :
  PV_connected (pv w) = true ->
  g_with_ctrlvars a
  && negb (bool_decide (type_key_of (default (form (pv w)) (g_form a))
                          ∈ ["control"; "native"])) = false ->
  _args (pv w) !! "type" = Some (PType t) ->
  field_types (type_key_of (default (form (pv w)) (g_form a))) t = Some dt ->
  _args (pv w) !! "value" = Some cached ->
  ~ read_required (g_as_string a) (g_use_monitor a) dt (_auto_monitor_sub (pv w)) cached
      (match g_count a with None => default_count (pv w) | Some c => Some c end) ->
  emits not_value_read w (snd (get_with_metadata (S depth) a w)).
Proof.
  intros Hconn Hnorec Ht Hft Hv Hno.
  assert (Hnn : is_None cached = false).
  { destruct cached; try reflexivity. exfalso. apply Hno.
    right. right. left. reflexivity. }
  cbn [get_with_metadata]. unfold get_with_metadata_body.
  rewrite ensure_connection_connected by assumption.
  rewrite (bind_eq_ok _ _ w w (pv w)) by reflexivity. cbv zeta.
  change (match g_form a with Some f => f | None => form (pv w) end)
    with (default (form (pv w)) (g_form a)).
  rewrite Hnorec.
  set (md0 := if g_use_monitor a then _args (pv w) else ∅).
  rewrite (bind_eq_ok _ _ w w md0) by (unfold md0; destruct (g_use_monitor a); reflexivity).
  match goal with
  | |- context [get_with_metadata_fetch ?tk ?s ?um ?c ?to ?md] =>
      destruct (fetch_without_read tk s um c to md w t dt cached Ht Hft Hv Hno)
        as [Hfetch | Hfetch]
  end.
  2:{ rewrite (bind_eq_raise _ _ _ _ _ Hfetch). apply emits_refl. }
  rewrite (bind_eq_ok _ _ _ _ _ Hfetch).
  destruct (_args (pv w) !! "typefull") as [tf |] eqn:Htf.
  2:{ rewrite (bind_eq_raise _ _ w w KeyError)
        by (unfold typefull, args_item, bind, self; now rewrite Htf).
      apply emits_refl. }
  rewrite (bind_eq_ok _ _ w w tf) by (apply args_item_some; exact Htf).
  destruct (g_as_string a && type_in tf enum_types).
  - rewrite (bind_getarg_value_cached _ _ _ w cached Hv Hnn).
    match goal with
    | |- emits _ w (snd (?m w)) =>
        assert (Hrest : respects (emits not_value_read) m); [| exact (Hrest w)]
    end.
    assert (Hes : respects (emits not_value_read) (_getarg_with (ret PNone) "enum_strs")).
    { apply (respects_getarg_with (emits not_value_read)).
      apply (respects_ret (emits not_value_read)). }
    unfold typefull. respects_tac.
  - match goal with
    | |- emits _ w (snd (?m w)) =>
        assert (Hrest : respects (emits not_value_read) m); [| exact (Hrest w)]
    end.
    unfold typefull. respects_tac.
Qed.

(** C2: [get_with_metadata] issues its network read if and only if
    [use_monitor] is false (also when forced false for character data
    wanted without string formatting), or there is no live auto-monitor
    subscription, or no value is cached, or the requested count exceeds the
    length of the cached value; in particular a count larger than the
    cached array always goes to the network.  This holds of the fetch phase
    (lines 449-473) in any state, and of the whole method on a connected
    handle when it does not fetch the control form first. *)
Theorem get_with_metadata_reads_iff :
  (forall (type_key : string) (as_string use_monitor : bool) (count : option Z)
          (timeout : Timeout) (md : gmap string pyval) (w : World)
          (t dt : ChannelType) (cached : pyval),
      _args (pv w) !! "type" = Some (PType t) ->
      field_types type_key t = Some dt ->
      _args (pv w) !! "value" = Some cached ->
      let w' := snd (get_with_metadata_fetch type_key as_string use_monitor count
                       timeout md w) in
      let required := read_required as_string use_monitor dt
                        (_auto_monitor_sub (pv w)) cached count in
      let read := EvRead (requested_type as_string dt) count timeout in
      (required -> trace w' = trace w ++ [read])
      /\ (~ required -> trace w' = trace w)
      /\ (forall c n, count = Some c -> py_len cached = Ok n -> Z.of_nat n < c ->
          trace w' = trace w ++ [read]))
  /\ (forall (depth : nat) (a : GetArgs) (w : World) (t dt : ChannelType)
             (cached : pyval),
         PV_connected (pv w) = true ->
         g_with_ctrlvars a
         && negb (bool_decide (type_key_of (default (form (pv w)) (g_form a))
                                 ∈ ["control"; "native"])) = false ->
         _args (pv w) !! "type" = Some (PType t) ->
         field_types (type_key_of (default (form (pv w)) (g_form a))) t = Some dt ->
         _args (pv w) !! "value" = Some cached ->
         let count := match g_count a with
                      | None => default_count (pv w)
                      | Some c => Some c
                      end in
         let w' := snd (get_with_metadata (S depth) a w) in
         let required := read_required (g_as_string a) (g_use_monitor a) dt
                           (_auto_monitor_sub (pv w)) cached count in
         (required ->
          exists timeout post,
            trace w' = trace w ++ EvRead (requested_type (g_as_string a) dt) count
                                    timeout :: post)
         /\ (~ required -> emits not_value_read w w')).
Proof.
  split.
  - intros. now apply (fetch_reads_iff type_key as_string use_monitor count timeout md w
                         t dt cached).
  - intros depth a w t dt cached Hconn Hnorec Ht Hft Hv. cbn zeta. split.
    + now apply (method_reads_when_required depth a w t dt cached).
    + now apply (method_no_read_when_not_required depth a w t dt cached).
Qed.

Lemma get_with_metadata_reads_iff_witness :
  let w := with_cache {["value" := PArr (NdArray 8 true [1; 2; 3])]}
             (connected_world DOUBLE 5 3 (script_env [] [] [])) in
  trace (snd (get_with_metadata_fetch "time" false true (Some 5) (TSeconds 1000) ∅ w))
  = trace w ++ [EvRead TIME_DOUBLE (Some 5) (TSeconds 1000)]
  /\ emits not_value_read w (snd (get_with_metadata 1 default_get_args w)).
Proof.
  cbn zeta. destruct get_with_metadata_reads_iff as [Hfetch Hmethod]. split.
  - refine (proj2 (proj2 (Hfetch "time" false true (Some 5) (TSeconds 1000) ∅ _ DOUBLE
                            TIME_DOUBLE (PArr (NdArray 8 true [1; 2; 3])) _ _ _))
              5 3%nat _ _ _).
    + vm_compute. reflexivity.
    + reflexivity.
    + vm_compute. reflexivity.
    + reflexivity.
    + reflexivity.
    + lia.
  - refine (proj2 (Hmethod 0%nat default_get_args _ DOUBLE TIME_DOUBLE
                     (PArr (NdArray 8 true [1; 2; 3])) _ _ _ _ _) _).
    + vm_compute. reflexivity.
    + reflexivity.
    + vm_compute. reflexivity.
    + vm_compute. reflexivity.
    + vm_compute. reflexivity.
    + cbn zeta. unfold read_required.
      intros [[H | [_ H]] | [H | [H | (c & n & H & _)]]];
        vm_compute in H; discriminate H.
Defined.

(** * Further properties of the translators and of the handle *)

(** ** The metadata of a response *)

Lemma copy_attrs_lookup (attrs : gmap string pyval) (names : list string)
    (r : gmap string pyval) (k : string) :
  foldl (fun r attr => match attrs !! attr with
                       | Some v => <[attr := v]> r
                       | None => r
                       end) r names !! k
  = if bool_decide (k ∈ names)
    then match attrs !! k with Some v => Some v | None => r !! k end
    else r !! k.
Proof.
  revert r. induction names as [| a names IH]; intros r; cbn [foldl].
  - reflexivity.
  - rewrite IH. destruct (decide (k = a)) as [-> | Hne].
    + rewrite (bool_decide_eq_true_2 (a ∈ a :: names)) by constructor.
      destruct (attrs !! a) as [v |] eqn:Ha.
      * rewrite lookup_insert_eq. now destruct (bool_decide (a ∈ names)).
      * now destruct (bool_decide (a ∈ names)).
    + assert (Hin : bool_decide (k ∈ a :: names) = bool_decide (k ∈ names)).
      { apply bool_decide_ext. rewrite elem_of_cons. tauto. }
      rewrite Hin.
      destruct (attrs !! a) as [v |]; [rewrite lookup_insert_ne by congruence |];
        reflexivity.
Qed.

Lemma decode_items_bytes (es : list string) :
  decode_item <$> (PBytes <$> es) = (fun e => PStr (decode e)) <$> es.
Proof. rewrite <- list_fmap_compose. reflexivity. Qed.

Ltac string_ne := let H := fresh in intros H; discriminate H.

Ltac lookup_ins :=
  repeat first
    [ rewrite lookup_insert_eq
    | rewrite lookup_insert_ne by (first [assumption | string_ne]) ].

Lemma plain_attrs_lookup (m : Metadata) (k : string) :
  foldl (fun (r : gmap string pyval) attr => match md_attrs m !! attr with
                       | Some v => <[attr := v]> r
                       | None => r
                       end) ∅ arg_map_plain !! k
  = if bool_decide (k ∈ arg_map_plain) then md_attrs m !! k else None.
Proof.
  rewrite copy_attrs_lookup, lookup_empty.
  destruct (bool_decide (k ∈ arg_map_plain)); [| reflexivity].
  now destruct (md_attrs m !! k).
Qed.

Lemma parse_dbr_metadata_stages (m : Metadata) :
  exists r0 r1 r2 r3 r4 : gmap string pyval,
    (forall k, r0 !! k = if bool_decide (k ∈ arg_map_plain) then md_attrs m !! k else None)
    /\ r1 = match md_units m with
            | Some u => <["units" := PBytes u]> r0
            | None => r0
            end
    /\ r2 = match md_enum_strings m with
            | Some es => <["enum_strs" := PSeq (PBytes <$> es)]> r1
            | None => r1
            end
    /\ r3 = match r2 !! "enum_strs" with
            | Some (PSeq ks) =>
                if truthy (PSeq ks)
                then <["enum_strs" := PSeq (decode_item <$> ks)]> r2
                else r2
            | _ => r2
            end
    /\ r4 = match md_stamp m with
            | Some (sec, nano) =>
                <["timestamp" := epics_timestamp_to_unix sec nano]>
                  (<["nanoseconds" := PInt nano]>
                     (<["posixseconds" := PInt sec]> r3))
            | None => r3
            end
    /\ _parse_dbr_metadata m = match r4 !! "units" with
                               | Some (PBytes u) => <["units" := PStr (decode u)]> r4
                               | _ => r4
                               end.
Proof.
  eexists _, _, _, _, _. split; [apply plain_attrs_lookup |].
  repeat split; reflexivity.
Qed.

(** The entries of the translated metadata, key by key. *)
Lemma parse_dbr_metadata_lookup (m : Metadata) (k : string) :
  _parse_dbr_metadata m !! k
  = if bool_decide (k ∈ arg_map_plain) then md_attrs m !! k
    else if decide (k = "units") then (fun u => PStr (decode u)) <$> md_units m
    else if decide (k = "enum_strs")
         then (fun es => PSeq ((fun e => PStr (decode e)) <$> es)) <$> md_enum_strings m
    else if decide (k = "posixseconds") then (fun s => PInt s.1) <$> md_stamp m
    else if decide (k = "nanoseconds") then (fun s => PInt s.2) <$> md_stamp m
    else if decide (k = "timestamp")
         then (fun s => epics_timestamp_to_unix s.1 s.2) <$> md_stamp m
    else None.
Proof.
  destruct (parse_dbr_metadata_stages m)
    as (r0 & r1 & r2 & r3 & r4 & H0 & H1 & H2 & H3 & H4 & ->).
  assert (L1 : forall k', r1 !! k' = if decide (k' = "units") then PBytes <$> md_units m
                                      else r0 !! k').
  { intros k'. subst r1. destruct (md_units m) as [u |]; cbn.
    - rewrite lookup_insert. destruct (decide (k' = "units")) as [-> |].
      + now rewrite decide_True.
      + now rewrite decide_False by congruence.
    - destruct (decide (k' = "units")) as [-> |]; [| reflexivity]. now rewrite H0. }
  assert (L2 : forall k', r2 !! k'
                = if decide (k' = "enum_strs")
                  then (fun es => PSeq (PBytes <$> es)) <$> md_enum_strings m
                  else r1 !! k').
  { intros k'. subst r2. destruct (md_enum_strings m) as [es |]; cbn.
    - rewrite lookup_insert. destruct (decide (k' = "enum_strs")) as [-> |].
      + now rewrite decide_True.
      + now rewrite decide_False by congruence.
    - destruct (decide (k' = "enum_strs")) as [-> |]; [| reflexivity].
      rewrite L1, decide_False by discriminate. now rewrite H0. }
  assert (L3 : forall k', r3 !! k'
                = if decide (k' = "enum_strs")
                  then (fun es => PSeq ((fun e => PStr (decode e)) <$> es))
                         <$> md_enum_strings m
                  else r2 !! k').
  { intros k'. subst r3. rewrite (L2 "enum_strs"), decide_True by reflexivity.
    destruct (md_enum_strings m) as [[| e es] |] eqn:E; cbn.
    - destruct (decide (k' = "enum_strs")) as [-> |]; [| reflexivity].
      now rewrite L2, decide_True.
    - rewrite lookup_insert. destruct (decide (k' = "enum_strs")) as [-> |].
      + rewrite decide_True by reflexivity. now rewrite decode_items_bytes.
      + now rewrite decide_False by congruence.
    - destruct (decide (k' = "enum_strs")) as [-> |]; [| reflexivity].
      now rewrite L2, decide_True. }
  assert (L4 : forall k', r4 !! k'
                = if decide (k' = "timestamp")
                  then (fun s => epics_timestamp_to_unix s.1 s.2) <$> md_stamp m
                  else if decide (k' = "nanoseconds") then (fun s => PInt s.2) <$> md_stamp m
                  else if decide (k' = "posixseconds") then (fun s => PInt s.1) <$> md_stamp m
                  else r3 !! k').
  { intros k'. subst r4. destruct (md_stamp m) as [[sec nano] |]; cbn.
    - rewrite !lookup_insert.
      repeat (destruct (decide (k' = _)) as [-> |];
              [repeat first [rewrite decide_True by reflexivity
                            | rewrite decide_False by discriminate]; reflexivity |]).
      now rewrite !decide_False by congruence.
    - repeat (destruct (decide (k' = _)) as [-> |];
              [rewrite L3, decide_False by discriminate;
               rewrite L2, decide_False by discriminate;
               rewrite L1, decide_False by discriminate; now rewrite H0 |]).
      reflexivity. }
  assert (L5 : forall k',
             match r4 !! "units" with
             | Some (PBytes u) => <["units" := PStr (decode u)]> r4
             | _ => r4
             end !! k'
             = if decide (k' = "units") then (fun u => PStr (decode u)) <$> md_units m
               else r4 !! k').
  { intros k'.
    assert (Hu : r4 !! "units" = PBytes <$> md_units m).
    { rewrite L4, !decide_False by discriminate.
      rewrite L3, decide_False by discriminate.
      rewrite L2, decide_False by discriminate.
      now rewrite L1, decide_True. }
    rewrite Hu. destruct (md_units m) as [u |]; cbn.
    - rewrite lookup_insert. destruct (decide (k' = "units")) as [-> |].
      + now rewrite decide_True.
      + now rewrite decide_False by congruence.
    - destruct (decide (k' = "units")) as [-> |]; [exact Hu | reflexivity]. }
  rewrite L5. destruct (bool_decide (k ∈ arg_map_plain)) eqn:Hk.
  - assert (k <> "units" /\ k <> "enum_strs" /\ k <> "posixseconds"
            /\ k <> "nanoseconds" /\ k <> "timestamp") as (? & ? & ? & ? & ?).
    { repeat split; intros ->; vm_compute in Hk; discriminate Hk. }
    rewrite decide_False by assumption.
    rewrite L4, !decide_False by assumption.
    rewrite L3, decide_False by assumption.
    rewrite L2, decide_False by assumption.
    rewrite L1, decide_False by assumption.
    now rewrite H0, Hk.
  - destruct (decide (k = "units")) as [-> | Hu]; [reflexivity |].
    rewrite L4.
    destruct (decide (k = "enum_strs")) as [-> | He].
    { rewrite !decide_False by discriminate. now rewrite L3, decide_True. }
    destruct (decide (k = "posixseconds")) as [-> | Hp].
    { rewrite ?decide_False by discriminate. now rewrite ?decide_True. }
    destruct (decide (k = "nanoseconds")) as [-> | Hn].
    { rewrite ?decide_False by discriminate. now rewrite ?decide_True. }
    destruct (decide (k = "timestamp")) as [-> | Ht]; [reflexivity |].
    rewrite L3, decide_False by assumption.
    rewrite L2, decide_False by assumption.
    rewrite L1, decide_False by assumption.
    now rewrite H0, Hk.
Qed.

Lemma metadata_keys_complete (m : Metadata) (k : string) :
  is_Some (_parse_dbr_metadata m !! k) -> k ∈ metadata_keys.
Proof.
  rewrite parse_dbr_metadata_lookup. unfold metadata_keys.
  rewrite elem_of_app.
  destruct (bool_decide (k ∈ arg_map_plain)) eqn:Hk.
  { apply bool_decide_eq_true in Hk. auto. }
  intros H. right.
  repeat (destruct (decide (k = _)) as [-> |];
          [repeat first [apply list_elem_of_here | apply list_elem_of_further] |]).
  now destruct H.
Qed.

(** X1: [_parse_dbr_metadata] copies the plain attributes of the
    metadata unchanged, decodes the units and the enum names to text, and
    returns no name outside [metadata_keys]. *)
Theorem parse_dbr_metadata_table (m : Metadata) :
  (forall k, k ∈ arg_map_plain -> _parse_dbr_metadata m !! k = md_attrs m !! k)
  /\ _parse_dbr_metadata m !! "units" = (fun u => PStr (decode u)) <$> md_units m
  /\ _parse_dbr_metadata m !! "enum_strs"
     = (fun es => PSeq ((fun e => PStr (decode e)) <$> es)) <$> md_enum_strings m
  /\ (forall k, is_Some (_parse_dbr_metadata m !! k) -> k ∈ metadata_keys).
Proof.
  split; [| split; [| split]].
  - intros k Hk. rewrite parse_dbr_metadata_lookup.
    now rewrite (bool_decide_eq_true_2 _ Hk).
  - now rewrite parse_dbr_metadata_lookup.
  - now rewrite parse_dbr_metadata_lookup.
  - apply metadata_keys_complete.
Qed.

Lemma parse_dbr_metadata_table_witness :
  _parse_dbr_metadata (metadata sample_enum_response) !! "status" = Some (PInt 0)
  /\ "enum_strs" ∈ metadata_keys.
Proof.
  destruct (parse_dbr_metadata_table (metadata sample_enum_response)) as (H1 & _ & H3 & H4).
  split.
  - rewrite (H1 "status"); [reflexivity |]. vm_compute. apply list_elem_of_here.
  - apply H4. rewrite H3. cbn. eauto.
Defined.

(** ** The translator *)

Lemma read_response_lookup (ft : pyval) (command : Command) (es : pyval)
    (info : gmap string pyval) :
  _read_response_to_pyepics ft command es = Ok info ->
  info !! "raw_value" = Some (data command)
  /\ is_Some (info !! "value")
  /\ is_Some (info !! "char_value")
  /\ (forall k, k <> "raw_value" -> k <> "value" -> k <> "char_value" ->
        info !! k = _parse_dbr_metadata (metadata command) !! k).
Proof.
  unfold _read_response_to_pyepics.
  set (md := _parse_dbr_metadata (metadata command)).
  destruct (_scalarify (data command) (data_type command) (data_count command))
    as [sv | e]; [| discriminate].
  cbn [res_bind].
  set (info1 := <["value" := sv]> (<["raw_value" := data command]> md)).
  assert (H1 : info1 !! "raw_value" = Some (data command)).
  { unfold info1. rewrite lookup_insert_ne by discriminate. apply lookup_insert_eq. }
  assert (H2 : is_Some (info1 !! "value")).
  { unfold info1. rewrite lookup_insert_eq. eauto. }
  assert (H3 : forall k, k <> "raw_value" -> k <> "value" -> info1 !! k = md !! k).
  { intros k ? ?. unfold info1. now rewrite !lookup_insert_ne by congruence. }
  clearbody info1.
  assert (Hcv : forall cv, let info := <["char_value" := cv]> info1 in
            info !! "raw_value" = Some (data command)
            /\ is_Some (info !! "value")
            /\ is_Some (info !! "char_value")
            /\ (forall k, k <> "raw_value" -> k <> "value" -> k <> "char_value" ->
                  info !! k = md !! k)).
  { intros cv. cbn zeta. rewrite lookup_insert_eq.
    rewrite !(lookup_insert_ne _ "char_value") by discriminate.
    repeat split; eauto. intros k ? ? ?.
    rewrite lookup_insert_ne by congruence. now apply H3. }
  destruct (type_in ft char_types).
  { destruct (data command); try discriminate. intros [= <-]. apply Hcv. }
  destruct (type_in ft string_types).
  { destruct (py_iter (data command)) as [vs | e]; [| discriminate]. cbn [res_bind].
    destruct (res_map _ vs) as [value | e]; [| discriminate]. cbn [res_bind].
    intros [= <-]. rewrite lookup_insert_eq.
    rewrite !(lookup_insert_ne _ "char_value") by discriminate.
    rewrite lookup_insert_eq. rewrite (lookup_insert_ne _ "value") by discriminate.
    repeat split; eauto. intros k ? ? ?.
    rewrite !lookup_insert_ne by congruence. now apply H3. }
  destruct (type_in ft enum_types).
  { destruct (if is_None _ then _ else _) as [cv | e]; [| discriminate].
    cbn [res_bind]. intros [= <-]. apply Hcv. }
  intros [= <-]. apply Hcv.
Qed.

(** X2: the dictionary [_read_response_to_pyepics] returns has the
    response's data as its [raw_value], holds a [value] and a
    [char_value], and agrees with [_parse_dbr_metadata] of the response's
    metadata on every other name. *)
Theorem read_response_entries (ft : pyval) (command : Command) (es : pyval)
    (info : gmap string pyval) :
  _read_response_to_pyepics ft command es = Ok info ->
  info !! "raw_value" = Some (data command)
  /\ is_Some (info !! "value")
  /\ is_Some (info !! "char_value")
  /\ (forall k, k <> "raw_value" -> k <> "value" -> k <> "char_value" ->
        info !! k = _parse_dbr_metadata (metadata command) !! k).
Proof. apply read_response_lookup. Qed.

Lemma read_response_entries_witness :
  exists info,
    _read_response_to_pyepics (PType CTRL_ENUM) sample_enum_response PNone = Ok info
    /\ info !! "raw_value" = Some (PArr (NdArray 2 true [1; 5]))
    /\ is_Some (info !! "char_value").
Proof.
  eexists. split; [reflexivity |].
  destruct (read_response_entries (PType CTRL_ENUM) sample_enum_response PNone _ eq_refl)
    as (H1 & _ & H3 & _).
  split; [exact H1 | exact H3].
Defined.

(** ** Character data *)

Lemma tobytes_one_byte (native : bool) (l : list Z) :
  tobytes (NdArray 1 native l) = (fun z => z mod 256) <$> l.
Proof.
  unfold tobytes. cbn [a_itemsize a_isnative a_data].
  induction l as [| z l IH]; [reflexivity |].
  rewrite bind_cons, IH, fmap_cons. now destruct native.
Qed.

Lemma byte_value_range (c : ascii) : 0 <= Z.of_N (N_of_ascii c) < 256.
Proof. pose proof (N_ascii_bounded c). lia. Qed.

Lemma byte_values_mod (s : string) :
  (fun z => z mod 256) <$> byte_values s = byte_values s.
Proof.
  unfold byte_values. rewrite <- list_fmap_compose.
  apply list_fmap_ext. intros i c _. cbn.
  apply Z.mod_small, byte_value_range.
Qed.

Lemma byte_values_app (s t : string) :
  byte_values (s +:+ t) = byte_values s ++ byte_values t.
Proof.
  unfold byte_values. induction s as [| c s IH]; [reflexivity |].
  change (String c s +:+ t) with (String c (s +:+ t)).
  cbn [String.list_ascii_of_string]. rewrite !fmap_cons, IH. reflexivity.
Qed.

Lemma until_nul_text (s : string) (rest : list Z) :
  nul_free s -> until_nul (byte_values s ++ 0 :: rest) = byte_values s.
Proof.
  unfold nul_free, byte_values. induction s as [| c s IH]; intros Hs.
  - reflexivity.
  - cbn in Hs. apply Forall_cons in Hs. destruct Hs as [Hc Hs].
    cbn [String.list_ascii_of_string fmap list_fmap app until_nul].
    destruct (Z.eqb_spec (Z.of_N (N_of_ascii c)) 0) as [E | _].
    + exfalso. apply Hc. rewrite <- (ascii_N_embedding c).
      replace (N_of_ascii c) with 0%N by lia. reflexivity.
    + f_equal. now apply IH.
Qed.

Lemma string_of_byte_values (s : string) : string_of_bytes (byte_values s) = s.
Proof.
  unfold string_of_bytes, byte_values. induction s as [| c s IH]; [reflexivity |].
  cbn. rewrite N2Z.id, ascii_N_embedding. f_equal. exact IH.
Qed.

(** X3: a text without NUL that was encoded and NUL-terminated, as [put]
    sends it, and read back as a character array, with whatever the
    record holds after the terminator, is translated to a [char_value]
    that is the text. *)
Theorem char_text_round_trip (s : string) (pad : list Z) (native : bool)
    (ft : pyval) (dt : ChannelType) (n : Z) (md : Metadata) (es : pyval) :
  type_in ft char_types = true ->
  nul_free s ->
  exists info,
    _read_response_to_pyepics ft
      {| data := PArr (NdArray 1 native (byte_values (encode s +:+ NUL) ++ pad));
         data_type := dt; data_count := n; metadata := md |} es = Ok info
    /\ info !! "char_value" = Some (PStr s).
Proof.
  intros Hc Hs. unfold _read_response_to_pyepics. cbn [data data_type data_count metadata].
  rewrite byte_values_app. change (byte_values NUL) with [0].
  rewrite <- app_assoc. cbn [app].
  destruct (scalarify_array_ok (NdArray 1 native (byte_values (encode s) ++ 0 :: pad)) dt n)
    as [sv ->].
  { intros _. cbn [a_data]. now destruct (byte_values (encode s)). }
  cbn [res_bind]. rewrite Hc. eexists. split; [reflexivity |].
  rewrite lookup_insert_eq. do 2 f_equal.
  rewrite tobytes_one_byte, fmap_app, fmap_cons, byte_values_mod.
  change (0 mod 256) with 0.
  rewrite until_nul_text by exact Hs. apply string_of_byte_values.
Qed.

Lemma char_text_round_trip_witness :
  exists info,
    _read_response_to_pyepics (PType TIME_CHAR)
      {| data := PArr (NdArray 1 true (byte_values (encode "hi" +:+ NUL) ++ [7; 0]));
         data_type := TIME_CHAR; data_count := 5; metadata := no_metadata |} PNone = Ok info
    /\ info !! "char_value" = Some (PStr "hi").
Proof.
  apply (char_text_round_trip "hi" [7; 0] true (PType TIME_CHAR) TIME_CHAR 5 no_metadata
           PNone).
  - reflexivity.
  - repeat constructor; discriminate.
Defined.

(** ** Enum names *)

Lemma res_map_enum_lookup (names : list pyval) (l : list Z) :
  Forall (fun i => 0 <= i) l ->
  res_map (enum_lookup (PSeq names)) (PNp <$> l) = Ok (enum_display names <$> l).
Proof.
  induction l as [| z l IH]; intros Hl; [reflexivity |].
  apply Forall_cons in Hl. destruct Hl as [Hz Hl].
  rewrite !fmap_cons. cbn [res_map]. rewrite IH by assumption.
  assert (enum_lookup (PSeq names) (PNp z) = Ok (enum_display names z)) as ->;
    [| reflexivity].
  unfold enum_lookup, enum_display. cbn [py_index res_bind py_getitem].
  destruct (Z.leb_spec 0 z) as [_ | ?]; [| lia]. cbn [andb].
  destruct (Z.ltb_spec z (Z.of_nat (length names))) as [Hlt | Hge].
  - now rewrite (seq_getitem_in_range names z (PStr "")) by lia.
  - unfold seq_getitem.
    destruct (Z.ltb_spec z 0); [lia |].
    destruct (Z.leb_spec 0 z); [| lia].
    destruct (Z.ltb_spec z (Z.of_nat (length names))); [lia | reflexivity].
Qed.

(** X4: for enum data with non-negative indices, the [char_value] the
    translator stores is the text [_pyepics_get_value] returns with
    [as_string=True] for the same names, so the display value of the cache
    and of [get(as_string=True)] agree. *)
Theorem enum_text_agreement (ft : pyval) (command : Command) (caller : pyval)
    (names : list pyval) (a : ndarray) (sv native_count : pyval)
    (requested_count : option Z) (as_numpy : bool) :
  type_in ft enum_types = true ->
  data command = PArr a ->
  (data_count command = 1 -> a_data a <> []) ->
  Forall (fun i => 0 <= i) (a_data a) ->
  effective_enum_names command caller = PSeq names ->
  exists text,
    info_entry (_read_response_to_pyepics ft command caller) "char_value" = Some text
    /\ _pyepics_get_value (PArr a) sv ft native_count requested_count (PSeq names)
         true as_numpy = Ok text.
Proof.
  intros Hen Hd Hne Hpos Heff.
  destruct (enum_not_char_string ft Hen) as [Hc Hs].
  exists (unwrap_single (enum_display names <$> a_data a)). split.
  - unfold _read_response_to_pyepics. rewrite Hd.
    destruct (scalarify_array_ok a (data_type command) (data_count command) Hne)
      as [v ->].
    cbn [res_bind]. rewrite Hc, Hs, Hen.
    rewrite enum_names_effective, Heff.
    cbn [is_None py_iter res_bind].
    rewrite res_map_enum_text. cbn [res_bind info_entry]. apply lookup_insert_eq.
  - unfold _pyepics_get_value. rewrite Hc, Hs, Hen. cbn [andb orb is_None py_iter res_bind].
    now rewrite res_map_enum_lookup.
Qed.

Lemma enum_text_agreement_witness :
  exists text,
    info_entry (_read_response_to_pyepics (PType CTRL_ENUM) sample_enum_response PNone)
      "char_value" = Some text
    /\ _pyepics_get_value (PArr (NdArray 2 true [1; 5])) PNone (PType CTRL_ENUM) (PInt 2)
         None (PSeq [PStr "off"; PStr "on"]) true true = Ok text.
Proof.
  apply (enum_text_agreement (PType CTRL_ENUM) sample_enum_response PNone
           [PStr "off"; PStr "on"] (NdArray 2 true [1; 5]) PNone (PInt 2) None true).
  - reflexivity.
  - reflexivity.
  - discriminate.
  - repeat constructor; lia.
  - reflexivity.
Defined.

(** ** Invariants of the handle *)

Create HintDb stable.

Section StableBasics.

Context (R : World -> World -> Prop) `{HS : !Stable R}.

Lemma stable_ret {A} (a : A) : respects R (ret a).
Proof. intros w. apply St_refl. Qed.

Lemma stable_raise {A} (e : exn) : respects R (raise (A := A) e).
Proof. intros w. apply St_refl. Qed.

Lemma stable_lift {A} (r : Res A) : respects R (lift r).
Proof. intros w. apply St_refl. Qed.

Lemma stable_self : respects R self.
Proof. intros w. apply St_refl. Qed.

Lemma stable_the_env : respects R the_env.
Proof. intros w. apply St_refl. Qed.

Lemma stable_bind {A B} (m : M A) (k : A -> M B) :
  respects R m -> (forall a, respects R (k a)) -> respects R (bind m k).
Proof.
  intros Hm Hk w. unfold bind. specialize (Hm w).
  destruct (m w) as [[a | e] w1]; cbn [snd] in *; [| exact Hm].
  eapply St_trans; [exact Hm | apply Hk].
Qed.

Lemma stable_bind_post {A B} (P : A -> Prop) (m : M A) (k : A -> M B) :
  respects R m -> (forall w a, fst (m w) = Ok a -> P a) ->
  (forall a, P a -> respects R (k a)) -> respects R (bind m k).
Proof.
  intros Hm HP Hk w. unfold bind. specialize (Hm w). specialize (HP w).
  destruct (m w) as [[a | e] w1]; cbn [fst snd] in *; [| exact Hm].
  eapply St_trans; [exact Hm | apply Hk, HP; reflexivity].
Qed.

(** A step that looks at the handle first. *)
Lemma stable_with_self {B} (k : PV -> M B) :
  (forall w, R w (snd (k (pv w) w))) -> respects R (bind self k).
Proof. intros H w. apply H. Qed.

Lemma stable_update_env (f : Env -> Env) : respects R (update_env f).
Proof. intros w. apply (St_env w (f (env w))). Qed.

Lemma stable_emit (ev : Event) : is_subscribe ev = false -> respects R (emit ev).
Proof. intros H w. now apply St_emit. Qed.

Lemma stable_set_caproto_pv (ch : CaPV) : respects R (update (set__caproto_pv ch)).
Proof. intros w. apply St_caproto_pv. Qed.

Lemma stable_set_connect_event (b : bool) : respects R (update (set__connect_event b)).
Proof. intros w. apply St_connect_event. Qed.

Lemma stable_set_connected (b : bool) : respects R (update (set__connected b)).
Proof. intros w. apply St_connected. Qed.

Lemma stable_args_update (d : gmap string pyval) :
  cache_update d -> respects R (args_update d).
Proof. intros H w. now apply St_args. Qed.

Lemma stable_try_finally {A} (body : M A) (fin : M unit) :
  respects R body -> respects R fin -> respects R (try_finally body fin).
Proof.
  intros Hb Hf w. unfold try_finally. specialize (Hb w).
  destruct (body w) as [r w1]. specialize (Hf w1).
  destruct (fin w1) as [[u | e] w2]; cbn [snd] in *; eapply St_trans; eauto.
Qed.

Lemma stable_swallow (body : M unit) : respects R body -> respects R (swallow body).
Proof.
  intros Hb w. unfold swallow. specialize (Hb w).
  destruct (body w) as [r w1]. exact Hb.
Qed.

Lemma stable_for_each {A} (l : list A) (f : A -> M unit) :
  (forall x, respects R (f x)) -> respects R (for_each l f).
Proof.
  intros Hf. induction l as [| x l IH]; cbn [for_each].
  - apply stable_ret.
  - apply stable_bind; [apply Hf | intros _; exact IH].
Qed.

End StableBasics.

Ltac sstep :=
  lazymatch goal with
  | |- respects ?R _ =>
      first
        [ assumption
        | solve [auto 2 with stable nocore]
        | apply (stable_ret R) | apply (stable_raise R) | apply (stable_lift R)
        | apply (stable_self R) | apply (stable_the_env R)
        | apply (stable_update_env R)
        | apply (stable_set_caproto_pv R)
        | apply (stable_set_connect_event R)
        | apply (stable_set_connected R)
        | apply (stable_emit R); reflexivity
        | apply (stable_swallow R)
        | apply (stable_try_finally R)
        | apply (stable_for_each R); intros ?
        | match goal with
          | |- respects _ (if ?b then _ else _) => destruct b
          | |- respects _ (match ?x with _ => _ end) => destruct x
          end
        | apply (stable_bind R); [| intros ?]
        | progress cbv zeta ]
  end.

Ltac stable_tac := repeat sstep.

Lemma cache_update_translated (ft : pyval) (command : Command) (es : pyval)
    (info : gmap string pyval) :
  _read_response_to_pyepics ft command es = Ok info -> cache_update info.
Proof.
  intros H _. destruct (read_response_lookup ft command es info H) as (H1 & _ & H3 & _).
  rewrite H1. eauto.
Qed.

Lemma cache_update_no_value (d : gmap string pyval) :
  d !! "value" = None -> cache_update d.
Proof. intros H [v Hv]. congruence. Qed.

Section StableMethods.

Context (R : World -> World -> Prop) `{HS : !Stable R}.

Lemma stable_args_item (key : string) : respects R (args_item key).
Proof. unfold args_item. stable_tac. Qed.

Lemma stable_dict_item (d : gmap string pyval) (key : string) :
  respects R (dict_item d key).
Proof. unfold dict_item. stable_tac. Qed.

Lemma stable_call_user (ev : Event) (cb : cbid) :
  is_subscribe ev = false -> respects R (call_user ev cb).
Proof. intros H. unfold call_user. pose proof (stable_emit R ev H). stable_tac. Qed.

Lemma stable_connected : respects R connected.
Proof. unfold connected. stable_tac. Qed.

Lemma stable_field_type_item (type_key : string) (t : pyval) :
  respects R (field_type_item type_key t).
Proof. unfold field_type_item. stable_tac. Qed.

Hint Resolve stable_args_item stable_dict_item stable_connected
  stable_field_type_item : stable.

(** Merging a translated response into the cache. *)
Lemma stable_translate {B} (ft : pyval) (command : Command) (es : pyval)
    (k : gmap string pyval -> M B) :
  (forall info, cache_update info -> respects R (k info)) ->
  respects R (info <- lift (_read_response_to_pyepics ft command es) ;; k info).
Proof.
  intros Hk. apply (stable_bind_post R cache_update).
  - apply (stable_lift R).
  - intros w info H. now apply (cache_update_translated ft command es).
  - exact Hk.
Qed.

Lemma stable_access_rights_changed (ch : CaPV) (rights : Z) :
  respects R (_access_rights_changed ch rights).
Proof.
  unfold _access_rights_changed.
  assert (forall a, respects R
            (args_update (<["write_access" := PBool (Z.testbit rights WRITE_bit)]>
                            (<["read_access" := PBool (Z.testbit rights READ_bit)]>
                               {["access" := a]})))).
  { intros a. apply (stable_args_update R), cache_update_no_value.
    rewrite !lookup_insert_ne by discriminate. now apply lookup_singleton_ne. }
  assert (forall cb r wr, respects R (call_user (EvAccessCallback cb r wr) cb))
    by (intros; now apply stable_call_user).
  stable_tac.
Qed.

Lemma stable_check_auto_monitor_sub (count : option Z) :
  respects R (_check_auto_monitor_sub count).
Proof.
  unfold _check_auto_monitor_sub. apply (stable_with_self R). intros w.
  destruct (am_truthy (auto_monitor (pv w))) eqn:Ham; [| apply St_refl].
  destruct (_auto_monitor_sub (pv w)) as [s |] eqn:Hsub; [apply St_refl |].
  cbn [andb negb]. rewrite bool_decide_eq_false_2 by (intros [? ?]; discriminate).
  cbn [negb]. cbv zeta.
  unfold typefull, args_item. unfold bind at 1. unfold bind at 1. unfold self at 1.
  destruct (_args (pv w) !! "typefull") as [tf |]; [| apply St_refl].
  unfold ret at 1.
  exact (St_subscribe w {| sub_data_type := tf;
                           sub_data_count := match count with
                                             | Some c => Some c
                                             | None => default_count (pv w)
                                             end;
                           sub_mask := _ |} Ham Hsub).
Qed.

Hint Resolve stable_access_rights_changed stable_check_auto_monitor_sub : stable.

Lemma stable_connection_established : respects R _connection_established.
Proof.
  unfold _connection_established. apply (stable_with_self R). intros w.
  destruct (ca_channel (_caproto_pv (pv w))) as [ch |]; [| apply St_refl].
  cbv zeta.
  match goal with
  | |- R w (snd (?m w)) => assert (Hm : respects R m); [| exact (Hm w)]
  end.
  apply (stable_bind R); [apply stable_field_type_item |]. intros ft.
  apply (stable_bind R).
  { apply (stable_args_update R), cache_update_no_value.
    rewrite !lookup_insert_ne by discriminate. now apply lookup_singleton_ne. }
  intros _. apply (stable_bind R); [apply stable_access_rights_changed |]. intros _.
  apply (stable_with_self R). intros w1.
  match goal with
  | |- R w1 (snd (bind ?m ?k w1)) =>
      assert (Hk : forall u, respects R (k u)) by (intros u; stable_tac);
      assert (Hm1 : R w1 (snd (m w1)))
  end.
  { destruct (auto_monitor (pv w1)) eqn:Ham; try apply St_refl.
    now apply (St_auto_monitor w1). }
  unfold bind.
  match type of Hm1 with
  | R w1 (snd (?m w1)) => destruct (m w1) as [[u | e] w2]
  end; cbn [snd] in *; [| exact Hm1].
  eapply St_trans; [exact Hm1 | exact (Hk u w2)].
Qed.

Hint Resolve stable_connection_established : stable.

Lemma stable_connection_state_changed (ch : CaPV) (state : string) :
  respects R (_connection_state_changed ch state).
Proof.
  unfold _connection_state_changed.
  assert (forall cb n c, respects R (call_user (EvConnectionCallback cb n c) cb))
    by (intros; now apply stable_call_user).
  stable_tac.
Qed.

Hint Resolve stable_connection_state_changed : stable.

Lemma stable_channel_wait_for_connection (timeout : Timeout) :
  respects R (channel_wait_for_connection timeout).
Proof. unfold channel_wait_for_connection. stable_tac. Qed.

Hint Resolve stable_channel_wait_for_connection : stable.

Lemma stable_wait_for_connection (timeout : Timeout) :
  respects R (wait_for_connection timeout).
Proof. unfold wait_for_connection. stable_tac. Qed.

Hint Resolve stable_wait_for_connection : stable.

Lemma stable_ensure_connection {A} (timeout_kw : option Timeout) (func : M A) :
  respects R func -> respects R (ensure_connection timeout_kw func).
Proof. intros H. unfold ensure_connection. stable_tac. Qed.

Lemma stable_channel_read (ev : Event) :
  is_subscribe ev = false -> respects R (channel_read ev).
Proof.
  intros H. pose proof (stable_emit R ev H). unfold channel_read. stable_tac.
Qed.

Lemma stable_read_and_update (dtype : ChannelType) (timeout : Timeout) :
  respects R (_read_and_update dtype timeout).
Proof.
  unfold _read_and_update.
  apply (stable_bind R); [now apply stable_channel_read |]. intros command.
  apply (stable_bind R); [apply stable_args_item |]. intros es.
  apply stable_translate. intros info Hinfo.
  pose proof (stable_args_update R info Hinfo). stable_tac.
Qed.

Hint Resolve stable_read_and_update : stable.

Lemma stable_force_read_access_rights : respects R force_read_access_rights.
Proof.
  unfold force_read_access_rights. apply stable_ensure_connection. stable_tac.
Qed.

Hint Resolve stable_force_read_access_rights : stable.

Lemma stable_get_ctrlvars : respects R get_ctrlvars.
Proof.
  unfold get_ctrlvars, type_. apply stable_ensure_connection. stable_tac.
Qed.

Lemma stable_get_timevars : respects R get_timevars.
Proof.
  unfold get_timevars, type_. apply stable_ensure_connection. stable_tac.
Qed.

Hint Resolve stable_get_ctrlvars stable_get_timevars : stable.

Lemma stable_getarg_with (get : M pyval) (arg : string) :
  respects R get -> respects R (_getarg_with get arg).
Proof. intros H. unfold _getarg_with. stable_tac. Qed.

Lemma stable_fetch (type_key : string) (as_string use_monitor : bool)
    (count : option Z) (timeout : Timeout) (md : gmap string pyval) :
  respects R (get_with_metadata_fetch type_key as_string use_monitor count timeout md).
Proof.
  assert (forall dt, respects R (channel_read (EvRead dt count timeout)))
    by (intros; now apply stable_channel_read).
  assert (forall ft command es,
             respects R (response <- lift (_read_response_to_pyepics ft command es) ;;
                         args_update response ;;; ret (response ∪ md))).
  { intros. apply stable_translate. intros info Hinfo.
    pose proof (stable_args_update R info Hinfo). stable_tac. }
  unfold get_with_metadata_fetch, type_, typefull. stable_tac.
Qed.

Lemma stable_body (recur : GetArgs -> M (gmap string pyval)) (es : M pyval)
    (a : GetArgs) :
  (forall a', respects R (recur a')) -> respects R es ->
  respects R (get_with_metadata_body recur es a).
Proof.
  intros Hr He. unfold get_with_metadata_body.
  apply stable_ensure_connection.
  pose proof stable_fetch.
  unfold typefull. stable_tac.
Qed.

Lemma stable_get_with (gwm : GetArgs -> M (gmap string pyval))
    (count : option Z) (as_string as_numpy : bool) (timeout : Timeout)
    (with_ctrlvars use_monitor : bool) :
  (forall a, respects R (gwm a)) ->
  respects R (get_with gwm count as_string as_numpy timeout with_ctrlvars use_monitor).
Proof. intros H. unfold get_with. stable_tac. Qed.

Lemma stable_get_with_metadata (depth : nat) (a : GetArgs) :
  respects R (get_with_metadata depth a).
Proof.
  revert a. induction depth as [| d IH]; intros a; cbn [get_with_metadata].
  - apply (stable_raise R).
  - apply stable_body; [exact IH |].
    apply stable_getarg_with. now apply stable_get_with.
Qed.

Lemma stable_get (depth : nat) (count : option Z) (as_string as_numpy : bool)
    (timeout : Timeout) (with_ctrlvars use_monitor : bool) :
  respects R (get depth count as_string as_numpy timeout with_ctrlvars use_monitor).
Proof. apply stable_get_with, stable_get_with_metadata. Qed.

Lemma stable_getarg (depth : nat) (arg : string) : respects R (_getarg depth arg).
Proof. apply stable_getarg_with, stable_get. Qed.

Lemma stable_enum_strs (depth : nat) : respects R (enum_strs depth).
Proof. apply stable_getarg. Qed.

Lemma stable_put_complete_flag (b : bool) :
  respects R (args_update {["put_complete" := PBool b]}).
Proof.
  apply (stable_args_update R), cache_update_no_value. now apply lookup_singleton_ne.
Qed.

Lemma stable_channel_write (value : pyval) (wait : bool)
    (on_complete : option (M unit)) (timeout : Timeout) (notify : bool) :
  (forall m, on_complete = Some m -> respects R m) ->
  respects R (channel_write value wait on_complete timeout notify).
Proof.
  intros Hoc. unfold channel_write.
  destruct on_complete as [m |].
  - specialize (Hoc m eq_refl). stable_tac.
  - stable_tac.
Qed.

Lemma stable_put_value (depth : nat) (value : pyval) :
  respects R (put_value depth value).
Proof.
  pose proof (stable_enum_strs depth) as Hes.
  unfold put_value, typefull. stable_tac.
Qed.

Lemma stable_put_send (value : pyval) (wait : bool) (timeout : Timeout)
    (use_complete : bool) (callback : option cbid) (callback_data : list pyval) :
  respects R (put_send value wait timeout use_complete callback callback_data).
Proof.
  unfold put_send. cbv zeta.
  pose proof stable_put_complete_flag.
  assert (forall cb, respects R (call_user (EvPutCallback cb callback_data) cb))
    by (intros; now apply stable_call_user).
  apply (stable_bind R); [stable_tac |].
  intros wait0. apply stable_channel_write.
  intros m Hm.
  destruct (bool_decide (callback = None) && negb use_complete); [discriminate Hm |].
  injection Hm as <-. stable_tac.
Qed.

Lemma stable_put (depth : nat) (value : pyval) (wait : bool)
    (timeout_kw : option Timeout) (use_complete : bool) (callback : option cbid)
    (callback_data : option (list pyval)) :
  respects R (put depth value wait timeout_kw use_complete callback callback_data).
Proof.
  unfold put. apply stable_ensure_connection. cbv zeta.
  apply (stable_bind R); [apply stable_put_value |].
  intros v. apply stable_put_send.
Qed.

Lemma stable_run_callback (index : Z) : respects R (run_callback index).
Proof.
  unfold run_callback.
  assert (forall cb kwd, respects R (call_user (EvCallback cb kwd) cb))
    by (intros; now apply stable_call_user).
  stable_tac.
Qed.

Hint Resolve stable_run_callback : stable.

Lemma stable_run_callbacks : respects R run_callbacks.
Proof. unfold run_callbacks. stable_tac. Qed.

Hint Resolve stable_run_callbacks : stable.

Lemma stable_on_changes (command : Command) : respects R (__on_changes command).
Proof.
  unfold __on_changes, typefull.
  apply (stable_bind R); [apply stable_args_item |]. intros tf.
  apply (stable_bind R); [apply stable_args_item |]. intros es.
  apply stable_translate. intros info Hinfo.
  pose proof (stable_args_update R info Hinfo). stable_tac.
Qed.

Lemma stable_disconnect : respects R disconnect.
Proof. unfold disconnect. stable_tac. Qed.

Lemma stable_op_method_plain (depth : nat) (op : Op) :
  changes_registry op = false -> respects R (op_method depth op).
Proof.
  intros Hop. destruct op; try discriminate Hop; cbn [op_method];
    (apply (stable_bind R); [| intros ?; apply (stable_ret R)]).
  - stable_tac.
  - apply stable_connection_state_changed.
  - apply stable_access_rights_changed.
  - apply stable_on_changes.
  - apply stable_wait_for_connection.
  - apply stable_get_with_metadata.
  - apply stable_get_ctrlvars.
  - apply stable_get_timevars.
  - apply stable_put.
  - apply stable_run_callbacks.
  - apply stable_disconnect.
Qed.

Context `{HG : !RegistryStable R}.

Lemma stable_set_cb_count (z : Z) : respects R (update (set__cb_count z)).
Proof. intros w. apply St_cb_count. Qed.

Lemma stable_set_callbacks (f : PV -> gmap Z (cbid * gmap string pyval)) :
  respects R (update (fun p => set_callbacks (f p) p)).
Proof. intros w. apply (St_callbacks w (f (pv w))). Qed.

Lemma stable_remove_callback (index : Z) : respects R (remove_callback index).
Proof. unfold remove_callback. apply stable_set_callbacks. Qed.

Lemma stable_clear_callbacks : respects R clear_callbacks.
Proof. unfold clear_callbacks. apply (stable_set_callbacks (fun _ => ∅)). Qed.

Lemma stable_add_callback (depth : nat) (callback : PyCallable) (index : pyval)
    (run_now with_ctrlvars : bool) (kw : gmap string pyval) :
  respects R (add_callback depth callback index run_now with_ctrlvars kw).
Proof.
  pose proof stable_set_cb_count.
  pose proof stable_set_callbacks.
  pose proof (stable_get depth None true true TNone false true).
  unfold add_callback. stable_tac.
Qed.

Lemma stable_op_method (depth : nat) (op : Op) : respects R (op_method depth op).
Proof.
  destruct op; cbn [op_method];
    (apply (stable_bind R); [| intros ?; apply (stable_ret R)]).
  - stable_tac.
  - apply stable_connection_state_changed.
  - apply stable_access_rights_changed.
  - apply stable_on_changes.
  - apply stable_wait_for_connection.
  - apply stable_get_with_metadata.
  - apply stable_get_ctrlvars.
  - apply stable_get_timevars.
  - apply stable_put.
  - apply stable_add_callback.
  - apply stable_remove_callback.
  - apply stable_clear_callbacks.
  - apply stable_run_callbacks.
  - apply stable_disconnect.
Qed.

Lemma stable_run_ops (depth : nat) (ops : list Op) (w : World) :
  R w (snd (run_ops depth ops w)).
Proof.
  revert w. induction ops as [| op ops IH]; intros w; [apply St_refl |].
  cbn [run_ops]. pose proof (stable_op_method depth op w) as H1.
  destruct (op_method depth op w) as [r w1]. cbn [snd] in H1.
  specialize (IH w1). destruct (run_ops depth ops w1) as [indices w2].
  cbn [snd] in *. eapply St_trans; eassumption.
Qed.

Lemma stable_PV_init (name form_ : string) (callback : CallbackArg)
    (am : AutoMonitor) (count : option Z) (ccb : option cbid) (ct : Timeout)
    (acb : option cbid) (chan : CaPV) (e : Env) :
  R {| pv := new_PV name form_ callback am count ccb ct acb chan; env := e; trace := [] |}
    (snd (PV_init name form_ callback am count ccb ct acb chan e)).
Proof.
  unfold PV_init. destruct (ca_connected chan); [| apply St_refl].
  apply stable_connection_state_changed.
Qed.

End StableMethods.

(** ** The cache never loses an entry *)

#[global] Instance keys_kept_stable : Stable keys_kept.
Proof.
  split; unfold keys_kept; cbn; auto.
  intros w d _ k [v Hv]. rewrite lookup_union. rewrite Hv.
  destruct (d !! k); cbn; eauto.
Qed.

#[global] Instance keys_kept_registry : RegistryStable keys_kept.
Proof. split; unfold keys_kept; cbn; auto. Qed.

#[global] Instance value_backed_stable : Stable (keeps value_backed).
Proof.
  split; unfold keeps; cbn; auto.
  intros w d Hd Hw v Hv Hne. cbn in *.
  destruct (d !! "value") as [dv |] eqn:Hdv.
  - destruct Hd as [[r Hr] [c Hc]]; [eauto |].
    split; rewrite lookup_union, ?Hr, ?Hc.
    + destruct (_args (pv w) !! "raw_value"); cbn; eauto.
    + destruct (_args (pv w) !! "char_value"); cbn; eauto.
  - rewrite lookup_union_r in Hv by assumption.
    destruct (Hw v Hv Hne) as [[r Hr] [c Hc]].
    split; rewrite lookup_union, ?Hr, ?Hc.
    + destruct (d !! "raw_value"); cbn; eauto.
    + destruct (d !! "char_value"); cbn; eauto.
Qed.

#[global] Instance value_backed_registry : RegistryStable (keeps value_backed).
Proof. split; unfold keeps; cbn; auto. Qed.

Lemma fromkeys_lookup (keys : list string) (k : string) :
  foldr (fun k d => <[k := PNone]> d) (∅ : gmap string pyval) keys !! k
  = if bool_decide (k ∈ keys) then Some PNone else None.
Proof.
  induction keys as [| a keys IH]; cbn [foldr].
  - reflexivity.
  - rewrite lookup_insert. destruct (decide (a = k)) as [-> | Hne].
    + now rewrite bool_decide_eq_true_2 by constructor.
    + rewrite IH. apply (f_equal (fun b : bool => if b then Some PNone else None)).
      apply bool_decide_ext. rewrite elem_of_cons. split; [tauto |].
      intros [-> | H]; [contradiction | exact H].
Qed.

Lemma new_PV_keys (name form_ : string) (callback : CallbackArg)
    (am : AutoMonitor) (count : option Z) (ccb : option cbid) (ct : Timeout)
    (acb : option cbid) (chan : CaPV) (k : string) :
  k ∈ initial_keys ->
  is_Some (_args (new_PV name form_ callback am count ccb ct acb chan) !! k).
Proof.
  intros Hk. unfold new_PV. cbn [_args].
  rewrite !lookup_insert.
  repeat (destruct (decide _); [eauto |]).
  rewrite fromkeys_lookup.
  unfold initial_keys in Hk. apply elem_of_app in Hk. destruct Hk as [Hk | Hk].
  - rewrite bool_decide_eq_true_2 by assumption. eauto.
  - exfalso. repeat (apply elem_of_cons in Hk; destruct Hk as [-> | Hk]; [congruence |]).
    inversion Hk.
Qed.

Lemma new_PV_value (name form_ : string) (callback : CallbackArg)
    (am : AutoMonitor) (count : option Z) (ccb : option cbid) (ct : Timeout)
    (acb : option cbid) (chan : CaPV) :
  _args (new_PV name form_ callback am count ccb ct acb chan) !! "value" = Some PNone.
Proof.
  unfold new_PV. cbn [_args].
  rewrite !lookup_insert_ne by discriminate. now rewrite fromkeys_lookup.
Qed.

(** X5: whatever methods are called on a handle, in any order and whether
    they return or raise, every name the constructor put in the cache is
    still in it. *)
Theorem cache_fields_always_present
    (depth : nat) (name form_ : string) (callback : CallbackArg)
    (am : AutoMonitor) (count : option Z) (ccb : option cbid) (ct : Timeout)
    (acb : option cbid) (chan : CaPV) (e : Env) (ops : list Op) (k : string) :
  k ∈ initial_keys ->
  is_Some (_args (pv (snd (run_ops depth ops
                             (snd (PV_init name form_ callback am count ccb ct acb
                                     chan e))))) !! k).
Proof.
  intros Hk.
  apply (stable_run_ops keys_kept depth ops).
  apply (stable_PV_init keys_kept name form_ callback am count ccb ct acb chan e).
  cbn [pv]. now apply new_PV_keys.
Qed.

Lemma cache_fields_always_present_witness :
  is_Some (_args (pv (snd (run_ops 2 [OpGetCtrlvars; OpPut (PInt 1) false None true None None]
                             (snd (PV_init "pv" "time" CbNone AM_None None None TNone None
                                     (sample_channel DOUBLE 1 3)
                                     (script_env [] [] []))))))
             !! "put_complete").
Proof.
  apply cache_fields_always_present.
  unfold initial_keys. apply elem_of_app. left.
  apply (bool_decide_unpack _). vm_compute. exact I.
Defined.

(** X6: whatever methods are called on a handle, a cache that holds a
    value other than [None] holds a [raw_value] and a [char_value] with
    it. *)
Theorem cached_value_is_backed
    (depth : nat) (name form_ : string) (callback : CallbackArg)
    (am : AutoMonitor) (count : option Z) (ccb : option cbid) (ct : Timeout)
    (acb : option cbid) (chan : CaPV) (e : Env) (ops : list Op) :
  value_backed (snd (run_ops depth ops
                       (snd (PV_init name form_ callback am count ccb ct acb chan e)))).
Proof.
  apply (stable_run_ops (keeps value_backed) depth ops).
  apply (stable_PV_init (keeps value_backed) name form_ callback am count ccb ct acb chan e).
  intros v Hv Hne. cbn [pv] in Hv. rewrite new_PV_value in Hv. congruence.
Qed.

(** ** The auto-monitor subscription *)

Lemma subscribes_once_same (w w' : World) :
  trace w' = trace w -> _auto_monitor_sub (pv w') = _auto_monitor_sub (pv w) ->
  subscribes_once w w'.
Proof.
  intros Ht Hs. exists []. split; [now rewrite app_nil_r |].
  rewrite Hs. destruct (_auto_monitor_sub (pv w)); [split |]; auto.
Qed.

#[global] Instance subscribes_once_stable : Stable subscribes_once.
Proof.
  split; try (intros; now apply subscribes_once_same).
  - intros a b c (e1 & T1 & H1) (e2 & T2 & H2). exists (e1 ++ e2).
    split; [now rewrite T2, T1, app_assoc |].
    destruct (_auto_monitor_sub (pv a)) as [s |].
    + destruct H1 as [Hb F1]. rewrite Hb in H2. destruct H2 as [Hc F2].
      split; [exact Hc | now apply Forall_app].
    + destruct (_auto_monitor_sub (pv b)) as [s |].
      * destruct H1 as (pre & post & -> & Fpre & Fpost). destruct H2 as [-> F2].
        exists pre, (post ++ e2). rewrite <- app_assoc. cbn [app].
        repeat split; [exact Fpre | now apply Forall_app].
      * destruct (_auto_monitor_sub (pv c)) as [s |].
        -- destruct H2 as (pre & post & -> & Fpre & Fpost).
           exists (e1 ++ pre), post. rewrite <- app_assoc.
           repeat split; [now apply Forall_app | exact Fpost].
        -- now apply Forall_app.
  - intros w ev Hev. exists [ev]. split; [reflexivity |]. cbn.
    destruct (_auto_monitor_sub (pv w)); [split; [reflexivity |] |];
      now repeat constructor.
  - intros w s _ Hs. exists [subscribe_event s]. split; [reflexivity |].
    rewrite Hs. cbn. exists [], []. repeat split; constructor.
Qed.

#[global] Instance subscribes_once_registry : RegistryStable subscribes_once.
Proof. split; intros; now apply subscribes_once_same. Qed.

Lemma setting_kept_same (w w' : World) :
  trace w' = trace w -> auto_monitor (pv w') = auto_monitor (pv w) ->
  _auto_monitor_sub (pv w') = _auto_monitor_sub (pv w) ->
  setting_kept w w'.
Proof.
  intros Ht Ha Hs. split; [auto |]. intros _. split; [exact Hs |].
  now apply emits_same_trace.
Qed.

#[global] Instance setting_kept_stable : Stable setting_kept.
Proof.
  split; try (intros; now apply setting_kept_same).
  - intros a b c [A1 O1] [A2 O2]. split.
    + intros Ha. rewrite A2, A1; auto. now rewrite A1.
    + intros [Hn Hf]. destruct (O1 (conj Hn Hf)) as [S1 E1].
      destruct O2 as [S2 E2]; [split; rewrite A1; assumption |].
      split; [congruence | eapply emits_trans; eassumption].
  - intros w ev Hev. split; [auto |]. intros _. split; [reflexivity |].
    exists [ev]. split; [reflexivity | now constructor].
  - intros w b Ham. split; [intros H; now destruct H |].
    intros [H _]. now destruct H.
  - intros w s Ham _. split; [auto |]. intros [_ H]. cbn in *. congruence.
Qed.

#[global] Instance setting_kept_registry : RegistryStable setting_kept.
Proof. split; intros; now apply setting_kept_same. Qed.

(** X7: over the life of a handle the channel is asked for at most one
    subscription: a handle that holds none has asked for none, and a handle
    that holds one has asked for exactly that one. *)
Theorem subscribes_at_most_once
    (depth : nat) (name form_ : string) (callback : CallbackArg)
    (am : AutoMonitor) (count : option Z) (ccb : option cbid) (ct : Timeout)
    (acb : option cbid) (chan : CaPV) (e : Env) (ops : list Op) :
  let w := snd (run_ops depth ops
                  (snd (PV_init name form_ callback am count ccb ct acb chan e))) in
  match _auto_monitor_sub (pv w) with
  | None => Forall not_subscribe (trace w)
  | Some s => exists pre post, trace w = pre ++ subscribe_event s :: post
                /\ Forall not_subscribe pre /\ Forall not_subscribe post
  end.
Proof.
  cbn zeta.
  pose proof (stable_PV_init subscribes_once name form_ callback am count ccb ct acb chan e)
    as H0.
  pose proof (stable_run_ops subscribes_once depth ops
                (snd (PV_init name form_ callback am count ccb ct acb chan e))) as H1.
  destruct (St_trans _ _ _ H0 H1) as (evs & Ht & H). cbn in Ht, H. now rewrite Ht.
Qed.

(** X8: an [auto_monitor] setting that was given or decided is never
    changed by a method; a handle built with a setting that is false, zero
    or an empty mask never subscribes, whatever is called on it. *)
Theorem auto_monitor_setting_is_final :
  (forall (depth : nat) (ops : list Op) (w : World),
      auto_monitor (pv w) <> AM_None ->
      auto_monitor (pv (snd (run_ops depth ops w))) = auto_monitor (pv w))
  /\ (forall (depth : nat) (name form_ : string) (callback : CallbackArg)
             (am : AutoMonitor) (count : option Z) (ccb : option cbid) (ct : Timeout)
             (acb : option cbid) (chan : CaPV) (e : Env) (ops : list Op),
         am <> AM_None -> am_truthy am = false ->
         let w := snd (run_ops depth ops
                         (snd (PV_init name form_ callback am count ccb ct acb chan e))) in
         _auto_monitor_sub (pv w) = None /\ Forall not_subscribe (trace w)).
Proof.
  split.
  - intros depth ops w. apply (stable_run_ops setting_kept depth ops w).
  - intros depth name form_ callback am count ccb ct acb chan e ops Hn Hf. cbn zeta.
    pose proof (stable_PV_init setting_kept name form_ callback am count ccb ct acb chan e)
      as H0.
    pose proof (stable_run_ops setting_kept depth ops
                  (snd (PV_init name form_ callback am count ccb ct acb chan e))) as H1.
    destruct (St_trans _ _ _ H0 H1) as [_ H]. 
    destruct H as [Hs (evs & Ht & Hevs)]; [split; assumption |].
    cbn in Hs, Ht. split; [exact Hs | now rewrite Ht].
Qed.

Lemma auto_monitor_setting_is_final_witness :
  let w0 := snd (PV_init "pv" "time" CbNone (AM_Bool false) None None TNone None
                   (sample_channel DOUBLE 1 3) (script_env [] [] [])) in
  let ops := [OpAddCallback (Callable 7%nat) PNone false false ∅; OpGetCtrlvars] in
  auto_monitor (pv (snd (run_ops 2 ops w0))) = AM_Bool false
  /\ _auto_monitor_sub (pv (snd (run_ops 2 ops w0))) = None
  /\ Forall not_subscribe (trace (snd (run_ops 2 ops w0))).
Proof.
  cbn zeta. destruct auto_monitor_setting_is_final as [H1 H2]. split.
  - rewrite H1; [reflexivity | discriminate].
  - apply H2; [discriminate | reflexivity].
Defined.

(** ** The registry of callbacks and the configuration *)

#[global] Instance registry_kept_stable : Stable registry_kept.
Proof.
  split; unfold registry_kept; cbn; auto.
  intros a b c [H1 H2] [H3 H4]. split; congruence.
Qed.

#[global] Instance configuration_kept_stable : Stable configuration_kept.
Proof.
  split; unfold configuration_kept; cbn; auto 7.
  intros a b c (? & ? & ? & ? & ? & ?) (? & ? & ? & ? & ? & ?).
  repeat split; congruence.
Qed.

#[global] Instance configuration_kept_registry : RegistryStable configuration_kept.
Proof. split; unfold configuration_kept; cbn; auto 7. Qed.

Lemma add_callback_registers (depth : nat) (cb : cbid) (run_now with_ctrlvars : bool)
    (kw : gmap string pyval) (w : World) :
  let result := add_callback depth (Callable cb) PNone run_now with_ctrlvars kw w in
  callbacks (pv (snd result)) = <[_cb_count (pv w) := (cb, kw)]> (callbacks (pv w))
  /\ _cb_count (pv (snd result)) = _cb_count (pv w) + 1
  /\ (forall i, fst result = Ok i -> i = _cb_count (pv w)).
Proof.
  cbn zeta. unfold add_callback. cbn [is_None negb].
  set (X := bind self _ w).
  assert (H : exists (rest : M Z) (w1 : World),
             X = rest w1
             /\ callbacks (pv w1) = <[_cb_count (pv w) := (cb, kw)]> (callbacks (pv w))
             /\ _cb_count (pv w1) = _cb_count (pv w) + 1
             /\ respects registry_kept rest
             /\ forall i w2, rest w1 = (Ok i, w2) -> i = _cb_count (pv w)).
  { unfold X. unfold bind at 1. unfold self at 1.
    unfold bind at 1. unfold update at 1.
    unfold bind at 1. unfold update at 1. cbn [pv env trace].
    eexists _, _. split; [reflexivity |]. cbn [pv callbacks _cb_count set_callbacks
                                                 set__cb_count].
    split; [reflexivity |]. split; [reflexivity |]. split.
    - pose proof (stable_get registry_kept depth None true true TNone false true).
      pose proof (stable_get_ctrlvars registry_kept).
      pose proof (stable_check_auto_monitor_sub registry_kept None).
      pose proof (stable_run_callback registry_kept (_cb_count (pv w))).
      pose proof (stable_connected registry_kept).
      stable_tac.
    - intros i w2 Hw2.
      repeat (apply bind_ok in Hw2; destruct Hw2 as (? & ? & _ & Hw2)).
      unfold ret in Hw2. now injection Hw2 as <- _. }
  clearbody X. destruct H as (rest & w1 & -> & Hcb & Hn & Hrest & Hret).
  destruct (Hrest w1) as [H1 H2].
  split; [congruence |]. split; [congruence |].
  intros i Hi. destruct (rest w1) as [r w2] eqn:Hw2. cbn [fst] in Hi. subst r.
  now apply (Hret i w2).
Qed.

(** X9: [add_callback] with a callable and no index registers the
    callback under the current counter and advances the counter, also when
    the call then raises; when it returns, it returns that index, and
    [remove_callback] with it restores the registry if the index was
    free. *)
Theorem add_callback_always_registers (depth : nat) (cb : cbid)
    (run_now with_ctrlvars : bool) (kw : gmap string pyval) (w : World) :
  let result := add_callback depth (Callable cb) PNone run_now with_ctrlvars kw w in
  callbacks (pv (snd result)) = <[_cb_count (pv w) := (cb, kw)]> (callbacks (pv w))
  /\ _cb_count (pv (snd result)) = _cb_count (pv w) + 1
  /\ (forall i, fst result = Ok i ->
        i = _cb_count (pv w)
        /\ (callbacks (pv w) !! i = None ->
            callbacks (pv (snd (remove_callback i (snd result)))) = callbacks (pv w))).
Proof.
  cbn zeta.
  destruct (add_callback_registers depth cb run_now with_ctrlvars kw w) as (H1 & H2 & H3).
  cbn zeta in *. split; [exact H1 |]. split; [exact H2 |].
  intros i Hi. specialize (H3 i Hi). subst i. split; [reflexivity |].
  intros Hfree. unfold remove_callback, update. cbn [snd pv callbacks set_callbacks].
  rewrite H1. rewrite delete_insert_eq. now apply delete_id.
Qed.

Lemma add_callback_always_registers_witness :
  let w := connected_world DOUBLE 1 3 (script_env [] [] []) in
  let result := add_callback 2 (Callable 7%nat) PNone false true ∅ w in
  fst result = Raise CaprotoTimeoutError
  /\ callbacks (pv (snd result)) = {[0 := (7%nat, ∅)]}
  /\ _cb_count (pv (snd result)) = 1.
Proof.
  cbn zeta.
  destruct (add_callback_always_registers 2 7%nat false true ∅
              (connected_world DOUBLE 1 3 (script_env [] [] []))) as (H1 & H2 & _).
  cbn zeta in *. split; [vm_compute; reflexivity |].
  split; [rewrite H1 | rewrite H2]; reflexivity.
Defined.

(** X10: the callback given to the constructor is registered under index
    0 while the counter starts at 0, so the first [add_callback] returns 0
    and replaces it. *)
Theorem constructor_callback_replaced
    (depth : nat) (name form_ : string) (cb0 : cbid) (rest : list PyCallable)
    (am : AutoMonitor) (count : option Z) (ccb : option cbid) (ct : Timeout)
    (acb : option cbid) (chan : CaPV) (e : Env)
    (cb1 : cbid) (run_now with_ctrlvars : bool) (kw : gmap string pyval)
    (callback : CallbackArg) :
  callback = CbOne (Callable cb0) \/ callback = CbMany (Callable cb0 :: rest) ->
  let w0 := snd (PV_init name form_ callback am count ccb ct acb chan e) in
  let result := add_callback depth (Callable cb1) PNone run_now with_ctrlvars kw w0 in
  callbacks (pv w0) !! 0 = Some (cb0, ∅)
  /\ callbacks (pv (snd result)) !! 0 = Some (cb1, kw)
  /\ (forall i, fst result = Ok i -> i = 0).
Proof.
  intros Hcb. cbn zeta.
  destruct (stable_PV_init registry_kept name form_ callback am count ccb ct acb chan e)
    as [Hreg Hcount]. cbn [pv new_PV callbacks _cb_count] in Hreg, Hcount.
  destruct (add_callback_registers depth cb1 run_now with_ctrlvars kw
              (snd (PV_init name form_ callback am count ccb ct acb chan e)))
    as (H1 & _ & H3). cbn zeta in *.
  rewrite Hcount in H1, H3.
  split; [| split; [| exact H3]].
  - rewrite Hreg. destruct Hcb as [-> | ->].
    + apply lookup_singleton_eq.
    + cbn [enumerate_callbacks]. apply lookup_insert_eq.
  - rewrite H1. apply lookup_insert_eq.
Qed.

Lemma constructor_callback_replaced_witness :
  let w0 := snd (PV_init "pv" "time" (CbOne (Callable 7%nat)) AM_None None None TNone None
                   idle_channel (script_env [] [] [])) in
  let result := add_callback 2 (Callable 8%nat) PNone false true ∅ w0 in
  callbacks (pv w0) !! 0 = Some (7%nat, ∅)
  /\ callbacks (pv (snd result)) !! 0 = Some (8%nat, ∅)
  /\ fst result = Ok 0.
Proof.
  cbn zeta.
  destruct (constructor_callback_replaced 2 "pv" "time" 7%nat [] AM_None None None TNone
              None idle_channel (script_env [] [] []) 8%nat false true ∅
              (CbOne (Callable 7%nat)) (or_introl eq_refl)) as (H1 & H2 & _).
  cbn zeta in *. split; [exact H1 |]. split; [exact H2 |]. vm_compute. reflexivity.
Defined.

(** X11: no method other than [add_callback], [remove_callback] and
    [clear_callbacks] changes the registry of callbacks or its counter. *)
Theorem registry_changes_only_on_request (depth : nat) (op : Op) (w : World) :
  changes_registry op = false ->
  callbacks (pv (snd (op_method depth op w))) = callbacks (pv w)
  /\ _cb_count (pv (snd (op_method depth op w))) = _cb_count (pv w).
Proof. intros Hop. now apply (stable_op_method_plain registry_kept depth op). Qed.

Lemma registry_changes_only_on_request_witness :
  callbacks (pv (snd (op_method 2 OpGetCtrlvars registry_world)))
  = callbacks (pv registry_world)
  /\ _cb_count (pv (snd (op_method 2 OpGetCtrlvars registry_world)))
     = _cb_count (pv registry_world).
Proof. apply registry_changes_only_on_request. reflexivity. Defined.

(** X12: the name, the form, the default count, the connection timeout
    and the connection and access callbacks of a handle are what the
    constructor stored, whatever methods are called. *)
Theorem configuration_is_fixed (depth : nat) (ops : list Op) (w : World) :
  let w' := snd (run_ops depth ops w) in
  pvname (pv w') = pvname (pv w)
  /\ form (pv w') = form (pv w)
  /\ default_count (pv w') = default_count (pv w)
  /\ connection_timeout (pv w') = connection_timeout (pv w)
  /\ connection_callbacks (pv w') = connection_callbacks (pv w)
  /\ access_callbacks (pv w') = access_callbacks (pv w).
Proof. apply (stable_run_ops configuration_kept depth ops w). Qed.

(** ** Waiting for the connection *)

Lemma channel_wait_raises (timeout : Timeout) (w w' : World) (e : exn) :
  channel_wait_for_connection timeout w = (Raise e, w') ->
  e = CaprotoTimeoutError /\ pv w' = pv w.
Proof.
  unfold channel_wait_for_connection.
  unfold bind at 1. unfold emit at 1. unfold bind at 1. unfold the_env at 1.
  cbn [env pv trace].
  destruct (conn_script (env w)) as [| [| ch [state |]] rest].
  - intros [= <- <-]. split; reflexivity.
  - unfold bind, update_env, raise. intros [= <- <-]. split; reflexivity.
  - unfold bind at 1. unfold update_env at 1. unfold bind at 1. unfold update at 1.
    unfold swallow.
    match goal with |- context [_connection_state_changed ?a ?b ?c] =>
      destruct (_connection_state_changed a b c) end. discriminate.
  - unfold bind, update_env, update, ret. discriminate.
Qed.

Lemma wait_for_connection_post (timeout : Timeout) (w : World) :
  match wait_for_connection timeout w with
  | (Ok b, w') => b = true /\ PV_connected (pv w') = true
  | (Raise e, w') => e = CaprotoTimeoutError /\ PV_connected (pv w') = false
  end.
Proof.
  unfold wait_for_connection. unfold bind at 1. unfold self at 1.
  unfold bind at 1. unfold connected at 1. unfold bind at 1. unfold self at 1.
  unfold ret at 1.
  destruct (PV_connected (pv w)) eqn:Hc; [split; [reflexivity | exact Hc] |].
  unfold bind at 1. unfold update at 1.
  set (w1 := {| pv := set__connect_event false (pv w); env := env w; trace := trace w |}).
  unfold bind at 1.
  destruct (channel_wait_for_connection _ w1) as [[u | e] w2] eqn:Hw.
  - unfold bind, self, ret, raise.
    replace (_connect_event (pv w2) && PV_connected (pv w2)) with (PV_connected (pv w2))
      by (unfold PV_connected; now destruct (ca_connected _), (_connect_event _)).
    destruct (PV_connected (pv w2)) eqn:Hc2; cbn [negb]; split; auto.
  - destruct (channel_wait_raises _ _ _ _ Hw) as [-> Hpv]. split; [reflexivity |].
    rewrite Hpv. unfold PV_connected, w1. cbn. apply andb_false_r.
Qed.

(** X13: [wait_for_connection] returns nothing but [True], and then the
    handle is connected; the only exception it raises is
    [CaprotoTimeoutError], and then the handle is not connected. *)
Theorem wait_for_connection_outcome (timeout : Timeout) (w : World) :
  match wait_for_connection timeout w with
  | (Ok b, w') => b = true /\ PV_connected (pv w') = true
  | (Raise e, w') => e = CaprotoTimeoutError /\ PV_connected (pv w') = false
  end.
Proof. apply wait_for_connection_post. Qed.

(** ** Running a method step by step *)

Lemma run_self {B} (k : PV -> M B) (w : World) : bind self k w = k (pv w) w.
Proof. reflexivity. Qed.

Lemma run_the_env {B} (k : Env -> M B) (w : World) : bind the_env k w = k (env w) w.
Proof. reflexivity. Qed.

Lemma run_ret {A B} (a : A) (k : A -> M B) (w : World) : bind (ret a) k w = k a w.
Proof. reflexivity. Qed.

Lemma run_lift {A B} (a : A) (k : A -> M B) (w : World) : bind (lift (Ok a)) k w = k a w.
Proof. reflexivity. Qed.

Lemma run_update {B} (f : PV -> PV) (k : unit -> M B) (w : World) :
  bind (update f) k w = k tt (with_pv (f (pv w)) w).
Proof. reflexivity. Qed.

Lemma run_update_env {B} (f : Env -> Env) (k : unit -> M B) (w : World) :
  bind (update_env f) k w = k tt (with_env (f (env w)) w).
Proof. reflexivity. Qed.

Lemma run_emit {B} (ev : Event) (k : unit -> M B) (w : World) :
  bind (emit ev) k w = k tt (with_events [ev] w).
Proof. reflexivity. Qed.

Lemma run_args_update {B} (d : gmap string pyval) (k : unit -> M B) (w : World) :
  bind (args_update d) k w = k tt (with_pv (set__args (d ∪ _args (pv w)) (pv w)) w).
Proof. reflexivity. Qed.

Lemma run_connected {B} (k : bool -> M B) (w : World) :
  bind connected k w = k (PV_connected (pv w)) w.
Proof. reflexivity. Qed.

Lemma run_assoc {A B C} (m : M A) (f : A -> M B) (g : B -> M C) (w : World) :
  bind (bind m f) g w = bind m (fun a => bind (f a) g) w.
Proof. unfold bind. now destruct (m w) as [[a | e] w1]. Qed.

Lemma with_events_app (e1 e2 : list Event) (w : World) :
  with_events e2 (with_events e1 w) = with_events (e1 ++ e2) w.
Proof. unfold with_events. cbn. now rewrite app_assoc. Qed.

Lemma with_events_nil (w : World) : with_events [] w = w.
Proof. destruct w. unfold with_events. cbn. now rewrite app_nil_r. Qed.

(** ** User callbacks in a loop *)

Lemma call_user_quiet (ev : Event) (cb : cbid) (w : World) :
  cb_raises (env w) cb = false -> call_user ev cb w = (Ok tt, with_events [ev] w).
Proof. intros H. unfold call_user, bind, emit, the_env, ret. cbn. now rewrite H. Qed.

Lemma call_user_raises (ev : Event) (cb : cbid) (w : World) :
  cb_raises (env w) cb = true -> call_user ev cb w = (Raise UserError, with_events [ev] w).
Proof. intros H. unfold call_user, bind, emit, the_env, raise. cbn. now rewrite H. Qed.

Lemma swallow_call_user (ev : Event) (cb : cbid) (w : World) :
  swallow (call_user ev cb) w = (Ok tt, with_events [ev] w).
Proof.
  unfold swallow. destruct (cb_raises (env w) cb) eqn:H.
  - now rewrite call_user_raises.
  - now rewrite call_user_quiet.
Qed.

Lemma for_each_swallow_call_user (mk : cbid -> Event) (l : list cbid) (w : World) :
  for_each l (fun cb => swallow (call_user (mk cb) cb)) w
  = (Ok tt, with_events (mk <$> l) w).
Proof.
  revert w. induction l as [| cb l IH]; intros w; cbn [for_each].
  - unfold ret. now rewrite fmap_nil, with_events_nil.
  - rewrite (bind_eq_ok _ _ _ _ _ (swallow_call_user (mk cb) cb w)).
    rewrite IH, with_events_app. reflexivity.
Qed.

Lemma for_each_call_user_quiet (mk : cbid -> Event) (l : list cbid) (w : World) :
  Forall (fun cb => cb_raises (env w) cb = false) l ->
  for_each l (fun cb => call_user (mk cb) cb) w = (Ok tt, with_events (mk <$> l) w).
Proof.
  revert w. induction l as [| cb l IH]; intros w Hl; cbn [for_each].
  - unfold ret. now rewrite fmap_nil, with_events_nil.
  - apply Forall_cons in Hl. destruct Hl as [Hcb Hl].
    rewrite (bind_eq_ok _ _ _ _ _ (call_user_quiet (mk cb) cb w Hcb)).
    rewrite IH by exact Hl. now rewrite with_events_app.
Qed.

Lemma for_each_call_user_raises (mk : cbid -> Event) (pre post : list cbid) (cb : cbid)
    (w : World) :
  Forall (fun cb => cb_raises (env w) cb = false) pre ->
  cb_raises (env w) cb = true ->
  for_each (pre ++ cb :: post) (fun cb => call_user (mk cb) cb) w
  = (Raise UserError, with_events (mk <$> (pre ++ [cb])) w).
Proof.
  revert w. induction pre as [| c pre IH]; intros w Hpre Hcb; cbn [for_each app].
  - now rewrite (bind_eq_raise _ _ _ _ _ (call_user_raises (mk cb) cb w Hcb)).
  - apply Forall_cons in Hpre. destruct Hpre as [Hc Hpre].
    rewrite (bind_eq_ok _ _ _ _ _ (call_user_quiet (mk c) c w Hc)).
    rewrite IH by assumption. now rewrite with_events_app.
Qed.

(** ** Access rights *)

Lemma access_rights_changed_result (ch : CaPV) (rights : Z) (access : pyval) (w : World) :
  seq_getitem access_strs rights = Ok access ->
  _access_rights_changed ch rights w
  = (Ok tt,
     with_events
       ((fun cb => EvAccessCallback cb (Z.testbit rights READ_bit)
                     (Z.testbit rights WRITE_bit)) <$> access_callbacks (pv w))
       (with_pv (set__args (access_entries rights access ∪ _args (pv w))
                   (set__caproto_pv ch (pv w))) w)).
Proof.
  intros Ha. unfold _access_rights_changed.
  rewrite run_update. cbv zeta. rewrite Ha, run_lift, run_args_update, run_self.
  rewrite for_each_swallow_call_user. reflexivity.
Qed.

Lemma access_rights_changed_bad (ch : CaPV) (rights : Z) (w : World) :
  ~ (-4 <= rights < 4) ->
  _access_rights_changed ch rights w
  = (Raise IndexError, with_pv (set__caproto_pv ch (pv w)) w).
Proof.
  intros Hr. unfold _access_rights_changed. rewrite run_update. cbv zeta.
  assert (seq_getitem access_strs rights = Raise IndexError) as ->.
  { unfold seq_getitem. cbn [access_strs length].
    destruct (Z.ltb_spec rights 0).
    - destruct (Z.leb_spec 0 (rights + Z.of_nat 4)); [lia | reflexivity].
    - destruct (Z.leb_spec 0 rights); [| lia].
      destruct (Z.ltb_spec rights (Z.of_nat 4)); [lia | reflexivity]. }
  reflexivity.
Qed.

Ltac world_simpl :=
  cbn [pv env trace with_pv with_env with_event with_events fst snd
       pvname form auto_monitor _connected _connect_event connection_timeout
       default_count _auto_monitor_sub _args connection_callbacks access_callbacks
       callbacks _cb_count _caproto_pv
       set_auto_monitor set__connected set__connect_event set__auto_monitor_sub
       set__args set_callbacks set__cb_count set__caproto_pv
       conn_script read_script write_script cb_raises
       set_conn_script set_read_script set_write_script].

Tactic Notation "world_simpl" "in" hyp(H) :=
  cbn [pv env trace with_pv with_env with_event with_events fst snd
       pvname form auto_monitor _connected _connect_event connection_timeout
       default_count _auto_monitor_sub _args connection_callbacks access_callbacks
       callbacks _cb_count _caproto_pv
       set_auto_monitor set__connected set__connect_event set__auto_monitor_sub
       set__args set_callbacks set__cb_count set__caproto_pv
       conn_script read_script write_script cb_raises
       set_conn_script set_read_script set_write_script] in H.

(** ** The connection notification *)

Lemma check_auto_monitor_sub_result (count : option Z) (tf : pyval) (w : World) :
  _args (pv w) !! "typefull" = Some tf ->
  _check_auto_monitor_sub count w
  = (Ok tt,
     if am_truthy (auto_monitor (pv w)) && negb (bool_decide (is_Some (_auto_monitor_sub (pv w))))
     then
       let s := monitor_subscription (auto_monitor (pv w)) tf
                  (match count with None => default_count (pv w) | Some c => Some c end) in
       with_pv (set__auto_monitor_sub (Some s) (pv w)) (with_events [subscribe_event s] w)
     else w).
Proof.
  intros Htf. unfold _check_auto_monitor_sub. rewrite run_self.
  destruct (am_truthy (auto_monitor (pv w)) && _); [| reflexivity].
  cbv zeta. unfold typefull.
  rewrite (bind_eq_ok _ _ _ _ _ (args_item_some _ _ _ Htf)).
  rewrite run_emit. unfold update, monitor_subscription.
  destruct (auto_monitor (pv w)) as [| [|] |]; reflexivity.
Qed.

Lemma connection_established_result (w : World) (info : ChannelInfo) (b : Basic)
    (c : DbrClass) (access : pyval) :
  ca_channel (_caproto_pv (pv w)) = Some info ->
  native_data_type info = DBR NATIVE b ->
  field_class (type_key_of (form (pv w))) = Some c ->
  seq_getitem access_strs (access_rights info) = Ok access ->
  let a := monitor_setting (pv w) info in
  let subscribing := am_truthy a && negb (bool_decide (is_Some (_auto_monitor_sub (pv w)))) in
  let s := monitor_subscription a (PType (DBR c b)) (default_count (pv w)) in
  exists w',
    _connection_established w = (Ok tt, w')
    /\ _args (pv w') = access_entries (access_rights info) access
                         ∪ (connection_entries info (DBR c b) ∪ _args (pv w))
    /\ _connected (pv w') = true
    /\ auto_monitor (pv w') = a
    /\ _auto_monitor_sub (pv w')
       = (if subscribing then Some s else _auto_monitor_sub (pv w))
    /\ trace w' = trace w
                  ++ ((fun cb => EvAccessCallback cb
                                   (Z.testbit (access_rights info) READ_bit)
                                   (Z.testbit (access_rights info) WRITE_bit))
                        <$> access_callbacks (pv w))
                  ++ (if subscribing then [subscribe_event s] else [])
    /\ env w' = env w
    /\ _caproto_pv (pv w') = _caproto_pv (pv w)
    /\ _connect_event (pv w') = _connect_event (pv w)
    /\ connection_callbacks (pv w') = connection_callbacks (pv w)
    /\ pvname (pv w') = pvname (pv w).
Proof.
  intros Hch Hnat Hfc Hacc. cbn zeta.
  unfold _connection_established. rewrite run_self, Hch.
  assert (Hft : field_type_item (type_key_of (form (pv w)))
                  (PType (native_data_type info)) = ret (DBR c b)).
  { unfold field_type_item, field_types. now rewrite Hfc, Hnat. }
  rewrite Hft, run_ret.
  rewrite run_args_update.
  rewrite (bind_eq_ok _ _ _ _ _
             (access_rights_changed_result _ _ access _ Hacc)).
  rewrite run_self.
  set (w1 := with_events _ _).
  assert (Htf : forall w2, _args (pv w2) = _args (pv w1) ->
                           _args (pv w2) !! "typefull" = Some (PType (DBR c b))).
  { intros w2 ->. unfold w1. cbn [pv with_events with_pv set__args set__caproto_pv _args].
    unfold access_entries, connection_entries.
    rewrite lookup_union_r
      by (rewrite !lookup_insert_ne by discriminate; now apply lookup_singleton_ne).
    rewrite (lookup_union_Some_l _ _ _ (PType (DBR c b))); [reflexivity |].
    rewrite lookup_insert_ne by discriminate. apply lookup_insert_eq. }
  unfold monitor_setting.
  assert (Ham : auto_monitor (pv w1) = auto_monitor (pv w)) by reflexivity.
  assert (Hdc : default_count (pv w1) = default_count (pv w)) by reflexivity.
  assert (Hsub : _auto_monitor_sub (pv w1) = _auto_monitor_sub (pv w)) by reflexivity.
  assert (Hargs : _args (pv w1)
                  = access_entries (access_rights info) access
                      ∪ (connection_entries info (DBR c b) ∪ _args (pv w)))
    by reflexivity.
  assert (Htr : trace w1
                = trace w ++ ((fun cb => EvAccessCallback cb
                                           (Z.testbit (access_rights info) READ_bit)
                                           (Z.testbit (access_rights info) WRITE_bit))
                                <$> access_callbacks (pv w))) by reflexivity.
  assert (Hrest : env w1 = env w /\ _caproto_pv (pv w1) = _caproto_pv (pv w)
                  /\ _connect_event (pv w1) = _connect_event (pv w)
                  /\ connection_callbacks (pv w1) = connection_callbacks (pv w)
                  /\ pvname (pv w1) = pvname (pv w)) by (repeat split).
  rewrite Ham. clearbody w1.
  destruct (auto_monitor (pv w)) as [| am | m] eqn:Hamw.
  - rewrite run_update.
    set (w2 := with_pv _ w1).
    rewrite (bind_eq_ok _ _ _ _ _
               (check_auto_monitor_sub_result None _ w2 (Htf w2 eq_refl))).
    unfold w2. world_simpl. rewrite Hsub, Hdc.
    destruct (am_truthy _ && _); eexists; (split; [reflexivity |]);
      unfold update; world_simpl; rewrite Hargs, Htr, ?app_nil_r, <- ?app_assoc;
      destruct Hrest as (? & ? & ? & ? & ?); repeat split; first [assumption | reflexivity].
  - rewrite run_ret.
    rewrite (bind_eq_ok _ _ _ _ _
               (check_auto_monitor_sub_result None _ w1 (Htf w1 eq_refl))).
    rewrite Ham, Hsub, Hdc.
    destruct (am_truthy _ && _); eexists; (split; [reflexivity |]);
      unfold update; world_simpl; rewrite Hargs, Htr, ?app_nil_r, <- ?app_assoc;
      destruct Hrest as (? & ? & ? & ? & ?); repeat split; first [assumption | reflexivity].
  - rewrite run_ret.
    rewrite (bind_eq_ok _ _ _ _ _
               (check_auto_monitor_sub_result None _ w1 (Htf w1 eq_refl))).
    rewrite Ham, Hsub, Hdc.
    destruct (am_truthy _ && _); eexists; (split; [reflexivity |]);
      unfold update; world_simpl; rewrite Hargs, Htr, ?app_nil_r, <- ?app_assoc;
      destruct Hrest as (? & ? & ? & ? & ?); repeat split; first [assumption | reflexivity].
Qed.

Lemma seq_getitem_access (rights : Z) :
  0 <= rights < 4 ->
  exists access, seq_getitem access_strs rights = Ok access
                 /\ access_strs !! Z.to_nat rights = Some access.
Proof.
  intros Hr. assert (rights = 0 \/ rights = 1 \/ rights = 2 \/ rights = 3) as H by lia.
  destruct H as [-> | [-> | [-> | ->]]]; eexists; split; reflexivity.
Qed.

Lemma access_entries_lookup (rights : Z) (access : pyval) (d : gmap string pyval) :
  (access_entries rights access ∪ d) !! "write_access"
  = Some (PBool (Z.testbit rights WRITE_bit))
  /\ (access_entries rights access ∪ d) !! "read_access"
     = Some (PBool (Z.testbit rights READ_bit))
  /\ (access_entries rights access ∪ d) !! "access" = Some access
  /\ (forall k, k <> "write_access" -> k <> "read_access" -> k <> "access" ->
        (access_entries rights access ∪ d) !! k = d !! k).
Proof.
  unfold access_entries. repeat split.
  - apply lookup_union_Some_l, lookup_insert_eq.
  - apply lookup_union_Some_l. rewrite lookup_insert_ne by discriminate.
    apply lookup_insert_eq.
  - apply lookup_union_Some_l. rewrite !lookup_insert_ne by discriminate.
    apply lookup_singleton_eq.
  - intros k ? ? ?. apply lookup_union_r.
    rewrite !lookup_insert_ne by congruence. apply lookup_singleton_ne. congruence.
Qed.

Lemma connection_entries_lookup (info : ChannelInfo) (ft : ChannelType)
    (d : gmap string pyval) :
  (connection_entries info ft ∪ d) !! "type" = Some (PType (native_data_type info))
  /\ (connection_entries info ft ∪ d) !! "typefull" = Some (PType ft)
  /\ (connection_entries info ft ∪ d) !! "nelm" = Some (PInt (native_data_count info))
  /\ (connection_entries info ft ∪ d) !! "count" = Some (PInt (native_data_count info))
  /\ (forall k, k <> "type" -> k <> "typefull" -> k <> "nelm" -> k <> "count" ->
        (connection_entries info ft ∪ d) !! k = d !! k).
Proof.
  unfold connection_entries. repeat split.
  - apply lookup_union_Some_l, lookup_insert_eq.
  - apply lookup_union_Some_l. rewrite lookup_insert_ne by discriminate.
    apply lookup_insert_eq.
  - apply lookup_union_Some_l. rewrite !lookup_insert_ne by discriminate.
    apply lookup_insert_eq.
  - apply lookup_union_Some_l. rewrite !lookup_insert_ne by discriminate.
    apply lookup_singleton_eq.
  - intros k ? ? ? ?. apply lookup_union_r.
    rewrite !lookup_insert_ne by congruence. apply lookup_singleton_ne. congruence.
Qed.

(** X14: a notification of access rights (a value from 0 to 3) stores
    [read_access], [write_access] and the access text, leaves the other
    entries of the cache alone, and calls every access callback once, in
    order, with the two flags; an exception of a callback does not stop
    the others and does not leave the method. *)
Theorem access_rights_notification (ch : CaPV) (rights : Z) (w : World) :
  0 <= rights < 4 ->
  let result := _access_rights_changed ch rights w in
  let cache := _args (pv (snd result)) in
  fst result = Ok tt
  /\ cache !! "read_access" = Some (PBool (Z.testbit rights READ_bit))
  /\ cache !! "write_access" = Some (PBool (Z.testbit rights WRITE_bit))
  /\ cache !! "access" = access_strs !! Z.to_nat rights
  /\ (forall k, k <> "write_access" -> k <> "read_access" -> k <> "access" ->
        cache !! k = _args (pv w) !! k)
  /\ trace (snd result)
     = trace w ++ ((fun cb => EvAccessCallback cb (Z.testbit rights READ_bit)
                                (Z.testbit rights WRITE_bit))
                     <$> access_callbacks (pv w)).
Proof.
  intros Hr. cbn zeta.
  destruct (seq_getitem_access rights Hr) as (access & Ha & Hl).
  rewrite (access_rights_changed_result ch rights access w Ha). world_simpl.
  destruct (access_entries_lookup rights access (_args (pv w))) as (H1 & H2 & H3 & H4).
  rewrite Hl. repeat split; assumption.
Qed.

Lemma access_rights_notification_witness :
  let w := snd (PV_init "pv" "time" CbNone AM_None None None TNone (Some 5%nat)
                  idle_channel
                  {| conn_script := []; read_script := []; write_script := [];
                     cb_raises := fun _ => true |}) in
  let result := _access_rights_changed (sample_channel DOUBLE 1 1) 1 w in
  fst result = Ok tt
  /\ _args (pv (snd result)) !! "access" = Some (PStr "read-only")
  /\ trace (snd result) = [EvAccessCallback 5%nat true false].
Proof.
  cbn zeta.
  match goal with
  | |- context [_access_rights_changed ?ch ?r ?w] =>
      destruct (access_rights_notification ch r w ltac:(lia))
        as (H1 & _ & _ & H4 & _ & H6)
  end.
  split; [exact H1 |]. split; [rewrite H4; reflexivity | rewrite H6; reflexivity].
Defined.

(** X15: the notification that the channel is connected stores the
    native type, the full type of the handle's form, the element count
    (as [count] and [nelm]) and the access entries, keeps the cached
    value, and marks the handle connected. *)
Theorem connected_notification_fills_cache (ch : CaPV) (info : ChannelInfo) (b : Basic)
    (c : DbrClass) (w : World) :
  ca_channel ch = Some info ->
  native_data_type info = DBR NATIVE b ->
  field_class (type_key_of (form (pv w))) = Some c ->
  0 <= access_rights info < 4 ->
  let w' := snd (_connection_state_changed ch "connected" w) in
  let cache := _args (pv w') in
  cache !! "type" = Some (PType (DBR NATIVE b))
  /\ cache !! "typefull" = Some (PType (DBR c b))
  /\ cache !! "count" = Some (PInt (native_data_count info))
  /\ cache !! "nelm" = Some (PInt (native_data_count info))
  /\ cache !! "read_access" = Some (PBool (Z.testbit (access_rights info) READ_bit))
  /\ cache !! "write_access" = Some (PBool (Z.testbit (access_rights info) WRITE_bit))
  /\ cache !! "access" = access_strs !! Z.to_nat (access_rights info)
  /\ cache !! "value" = _args (pv w) !! "value"
  /\ _connected (pv w') = true
  /\ PV_connected (pv w') = ca_connected ch.
Proof.
  intros Hch Hnat Hfc Hr. cbn zeta.
  destruct (seq_getitem_access _ Hr) as (access & Ha & Hl).
  set (w0 := with_pv (set__caproto_pv ch (pv w)) w).
  destruct (connection_established_result w0 info b c access Hch Hnat Hfc Ha)
    as (w1 & Hest & Hargs & Hconn & _ & _ & _ & _ & Hca & _).
  assert (Hpv : pv (snd (_connection_state_changed ch "connected" w))
                = set__connect_event true (pv w1)).
  { unfold _connection_state_changed. rewrite run_update.
    rewrite bool_decide_eq_true_2 by reflexivity. fold w0.
    unfold bind at 1. unfold try_finally. rewrite Hest. unfold update at 1.
    now rewrite connection_callbacks_pv. }
  rewrite Hpv. world_simpl.
  rewrite Hargs. unfold w0. world_simpl.
  destruct (access_entries_lookup (access_rights info) access
              (connection_entries info (DBR c b) ∪ _args (pv w)))
    as (A1 & A2 & A3 & A4).
  destruct (connection_entries_lookup info (DBR c b) (_args (pv w)))
    as (C1 & C2 & C3 & C4 & C5).
  rewrite A1, A2, A3, !A4 by discriminate.
  rewrite C1, C2, C3, C4, C5 by discriminate. rewrite Hnat, Hl.
  repeat split; try reflexivity; try assumption.
  unfold PV_connected. world_simpl. rewrite Hca. unfold w0. world_simpl.
  apply andb_true_r.
Qed.

Lemma connected_notification_fills_cache_witness :
  let w := snd (PV_init "pv" "ctrl" CbNone AM_None None None TNone None idle_channel
                  (script_env [] [] [])) in
  let w' := snd (_connection_state_changed (sample_channel ENUM 1 3) "connected" w) in
  _args (pv w') !! "typefull" = Some (PType CTRL_ENUM)
  /\ _args (pv w') !! "access" = Some (PStr "read/write")
  /\ PV_connected (pv w') = true.
Proof.
  cbn zeta.
  match goal with
  | |- context [_connection_state_changed ?ch _ ?w] =>
      destruct (connected_notification_fills_cache ch
                  {| native_data_type := ENUM; native_data_count := 1; access_rights := 3 |}
                  B_ENUM CTRL w eq_refl eq_refl eq_refl ltac:(cbn; lia))
        as (_ & H2 & _ & _ & _ & _ & H7 & _ & _ & H10)
  end.
  cbn zeta in *. split; [exact H2 |]. split; [exact H7 | exact H10].
Defined.

(** X16: when [auto_monitor] was left open, [_connection_established]
    decides it by comparing the default count, or else the channel's
    element count, with [AUTOMONITOR_MAXLENGTH]; below the bound it
    subscribes once, with the full type, the default count and the default
    mask, after the access callbacks; otherwise it does not subscribe. *)
Theorem auto_monitor_decided_on_connection (w : World) (info : ChannelInfo) (b : Basic)
    (c : DbrClass) :
  ca_channel (_caproto_pv (pv w)) = Some info ->
  native_data_type info = DBR NATIVE b ->
  field_class (type_key_of (form (pv w))) = Some c ->
  0 <= access_rights info < 4 ->
  auto_monitor (pv w) = AM_None ->
  _auto_monitor_sub (pv w) = None ->
  let w' := snd (_connection_established w) in
  let monitored := match default_count (pv w) with
                   | Some n => n
                   | None => native_data_count info
                   end <? AUTOMONITOR_MAXLENGTH in
  let s := {| sub_data_type := PType (DBR c b);
              sub_data_count := default_count (pv w);
              sub_mask := DEFAULT_SUBSCRIPTION_MASK |} in
  auto_monitor (pv w') = AM_Bool monitored
  /\ _auto_monitor_sub (pv w') = (if monitored then Some s else None)
  /\ trace w'
     = trace w
       ++ ((fun cb => EvAccessCallback cb (Z.testbit (access_rights info) READ_bit)
                        (Z.testbit (access_rights info) WRITE_bit))
             <$> access_callbacks (pv w))
       ++ (if monitored then [subscribe_event s] else []).
Proof.
  intros Hch Hnat Hfc Hr Ham Hsub. cbn zeta.
  destruct (seq_getitem_access _ Hr) as (access & Ha & _).
  destruct (connection_established_result w info b c access Hch Hnat Hfc Ha)
    as (w1 & Hest & _ & _ & Ham1 & Hsub1 & Htr & _).
  rewrite Hest. world_simpl. rewrite Ham1, Hsub1, Htr.
  unfold monitor_setting. rewrite Ham, Hsub.
  rewrite bool_decide_eq_false_2 by (intros [? ?]; discriminate).
  cbn [negb am_truthy]. rewrite andb_true_r.
  destruct (_ <? AUTOMONITOR_MAXLENGTH); repeat split.
Qed.

Lemma auto_monitor_decided_on_connection_witness :
  let w := with_pv (set__caproto_pv (sample_channel DOUBLE 70000 3)
                      (new_PV "pv" "time" CbNone AM_None None None TNone None idle_channel))
             {| pv := new_PV "pv" "time" CbNone AM_None None None TNone None idle_channel;
                env := script_env [] [] []; trace := [] |} in
  auto_monitor (pv (snd (_connection_established w))) = AM_Bool false
  /\ _auto_monitor_sub (pv (snd (_connection_established w))) = None.
Proof.
  cbn zeta.
  match goal with
  | |- context [_connection_established ?w] =>
      destruct (auto_monitor_decided_on_connection w
                  {| native_data_type := DOUBLE; native_data_count := 70000;
                     access_rights := 3 |} B_DOUBLE TIME
                  eq_refl eq_refl eq_refl ltac:(cbn; lia) eq_refl eq_refl)
        as (H1 & H2 & _)
  end.
  cbn zeta in *. split; [exact H1 | exact H2].
Defined.

(** ** Writing *)

Lemma res_map_encoded (vs ws : list pyval) :
  res_map (fun v => match v with
                    | PStr s => Ok (PBytes (encode s))
                    | _ => Raise AttributeError
                    end) vs = Ok ws ->
  wire_ready (PSeq ws) = true.
Proof.
  destruct vs as [| v vs]; cbn [res_map].
  - intros [= <-]. reflexivity.
  - destruct v; try discriminate. cbn [res_bind].
    destruct (res_map _ vs); [| discriminate]. cbn. intros [= <-]. reflexivity.
Qed.

Lemma put_value_finish (value : pyval) (w w' : World) (v : pyval) :
  (match value with PBytes _ | PSeq _ | PArr _ => True | _ => False end) ->
  (n <- lift (py_len value) ;;
   if negb (Nat.eqb n 0) then
     first <- lift (py_getitem value 0) ;;
     if is_str first then
       vs <- lift (py_iter value) ;;
       vs <- lift (res_map (fun v => match v with
                                     | PStr s => Ok (PBytes (encode s))
                                     | _ => Raise AttributeError
                                     end) vs) ;;
       ret (PSeq vs)
     else ret value
   else ret value) w = (Ok v, w') ->
  wire_ready v = true.
Proof.
  intros Hshape H.
  apply bind_ok in H. destruct H as (n & w1 & Hn & H).
  destruct (negb (n =? 0)%nat) eqn:Hz.
  - apply bind_ok in H. destruct H as (first & w2 & Hfirst & H).
    destruct (is_str first) eqn:Hstr.
    + apply bind_ok in H. destruct H as (vs & w3 & _ & H).
      apply bind_ok in H. destruct H as (ws & w4 & Hws & H).
      injection H as <- _. unfold lift in Hws. injection Hws as Hws _.
      now apply res_map_encoded in Hws.
    + injection H as <- _. unfold lift in Hfirst. injection Hfirst as Hfirst _.
      destruct value as [| | | | | | l | | | |]; try contradiction; try reflexivity.
      destruct l as [| x l]; [reflexivity |].
      cbn [py_getitem] in Hfirst. rewrite seq_getitem_0 in Hfirst.
      injection Hfirst as ->. now destruct first.
  - injection H as <- _. unfold lift in Hn. injection Hn as Hn _.
    destruct value as [| | | | | | l | | | |]; try contradiction; try reflexivity.
    cbn in Hn. injection Hn as <-. destruct l; [reflexivity | discriminate Hz].
Qed.

Lemma put_value_wire_ready (depth : nat) (value : pyval) (w w' : World) (v : pyval) :
  put_value depth value w = (Ok v, w') -> wire_ready v = true.
Proof.
  unfold put_value. intros H.
  apply bind_ok in H. destruct H as (wa & w1 & _ & H).
  destruct (negb (truthy wa)); [discriminate H |].
  apply bind_ok in H. destruct H as (tf & w2 & _ & H).
  apply bind_ok in H. destruct H as (v1 & w3 & _ & H).
  apply bind_ok in H. destruct H as (v2 & w4 & Hv2 & H).
  apply (put_value_finish v2 w4 w' v); [| exact H].
  destruct v1; cbn [is_iterable negb] in Hv2;
    try (injection Hv2 as <- _; exact I).
  apply bind_ok in Hv2. destruct Hv2 as (tf' & w5 & _ & Hv2).
  destruct (type_in tf' char_types); injection Hv2 as <- _; exact I.
Qed.

(** X17: [put] calls the channel's [write] at most once, and the value it
    writes is bytes, an array, or a sequence whose first element is not a
    text. *)
Theorem put_writes_once_encoded
    (depth : nat) (value : pyval) (wait : bool) (timeout_kw : option Timeout)
    (use_complete : bool) (callback : option cbid)
    (callback_data : option (list pyval)) (w : World) :
  let w' := snd (put depth value wait timeout_kw use_complete callback callback_data w) in
  emits not_write w w'
  \/ exists pre v wait' cb t notify post,
       trace w' = trace w ++ pre ++ EvWrite v wait' cb t notify :: post
       /\ Forall not_write pre /\ Forall not_write post
       /\ wire_ready v = true.
Proof.
  cbn zeta. unfold put, ensure_connection. cbv zeta.
  set (t0 := match timeout_kw with Some t => t | None => TSeconds 5000 end).
  pose proof (respects_wait_for_connection (emits not_write) t0 w) as Hwfc.
  destruct (wait_for_connection t0 w) as [[c | e] w1] eqn:Hw; cbn [snd] in Hwfc.
  2:{ rewrite (bind_eq_raise _ _ _ _ _ Hw). now left. }
  rewrite (bind_eq_ok _ _ _ _ _ Hw).
  assert (Hpv : emits not_write w1 (snd (put_value depth value w1))).
  { apply (respects_put_value (emits not_write)). intros; reflexivity. }
  destruct (put_value depth value w1) as [[v | e] w2] eqn:Hv; cbn [snd] in Hpv.
  2:{ rewrite (bind_eq_raise _ _ _ _ _ Hv). left. eapply emits_trans; eassumption. }
  rewrite (bind_eq_ok _ _ _ _ _ Hv).
  right.
  destruct (put_send_trace v wait
              (match timeout_kw with None => TSeconds 30000 | Some t => t end)
              use_complete callback (default [] callback_data) w2)
    as (cb & post & Htr & Fpost).
  destruct (emits_trans _ _ _ _ Hwfc Hpv) as (pre & Hpre & Fpre).
  eexists pre, v, _, cb, _, _, post. rewrite Htr, Hpre, <- app_assoc.
  repeat split; try assumption. now apply (put_value_wire_ready depth value w1 w2).
Qed.

(** X18: on a connected handle without write access [put] raises
    [AccessRightsException] before anything else: nothing is written and
    the handle is unchanged. *)
Theorem put_needs_write_access
    (depth : nat) (value : pyval) (wait : bool) (timeout_kw : option Timeout)
    (use_complete : bool) (callback : option cbid)
    (callback_data : option (list pyval)) (w : World) (wa : pyval) :
  PV_connected (pv w) = true ->
  _args (pv w) !! "write_access" = Some wa -> truthy wa = false ->
  put depth value wait timeout_kw use_complete callback callback_data w
  = (Raise AccessRightsException, w).
Proof.
  intros Hc Hwa Hf. unfold put. rewrite ensure_connection_connected by assumption.
  cbv zeta. apply bind_eq_raise. unfold put_value.
  rewrite (bind_eq_ok _ _ _ _ _ (args_item_some _ _ _ Hwa)). rewrite Hf. reflexivity.
Qed.

Lemma put_needs_write_access_witness :
  let w := connected_world DOUBLE 1 1 (script_env [] [] []) in
  put 2 (PInt 5) false None false None None w = (Raise AccessRightsException, w).
Proof.
  cbn zeta.
  apply (put_needs_write_access 2 (PInt 5) false None false None None _ (PBool false));
    reflexivity.
Defined.

(** X19: from the completion flags on ([put_send]), [put] with
    [use_complete] leaves the entry [put_complete] of the cache [True]
    exactly when the server has acknowledged the write, and [False]
    otherwise, also when the write times out; without [use_complete] the
    entry is not touched. *)
Theorem put_complete_protocol (value : pyval) (wait : bool) (timeout : Timeout)
    (use_complete : bool) (callback : option cbid) (callback_data : list pyval)
    (w : World) :
  let w' := snd (put_send value wait timeout use_complete callback callback_data w) in
  _args (pv w') !! "put_complete"
  = if use_complete then Some (PBool (next_write_acknowledged (env w)))
    else _args (pv w) !! "put_complete".
Proof.
  cbn zeta. unfold put_send, next_write_acknowledged. cbv zeta.
  destruct use_complete; cbn [orb negb andb].
  - rewrite andb_false_r. rewrite run_assoc, run_args_update, run_ret.
    unfold channel_write. rewrite run_emit, run_the_env. world_simpl.
    destruct (write_script (env w)) as [| [| completed] rest].
    + unfold ret. world_simpl. apply lookup_union_Some_l, lookup_singleton_eq.
    + rewrite run_update_env. unfold raise. world_simpl.
      apply lookup_union_Some_l, lookup_singleton_eq.
    + rewrite run_update_env. cbn [bool_decide]. rewrite andb_true_r.
      destruct completed.
      * unfold swallow. rewrite run_args_update.
        match goal with
        | |- context [match ?m ?w0 with _ => _ end] =>
            assert (Hp : pv (snd (m w0)) = pv w0)
              by (destruct callback; [apply call_user_pv | reflexivity]);
            destruct (m w0) as [r w2]
        end.
        cbn [snd] in *. rewrite Hp. world_simpl.
        apply lookup_union_Some_l, lookup_singleton_eq.
      * unfold ret. world_simpl. apply lookup_union_Some_l, lookup_singleton_eq.
  - set (notify := bool_decide (is_Some callback) || wait).
    assert (Hpre : forall k : bool -> M unit,
               bind (if notify then ret tt ;;; ret wait else ret false) k w
               = k (if notify then wait else false) w)
      by (intros k; now destruct notify).
    rewrite Hpre. unfold channel_write. rewrite run_emit, run_the_env. world_simpl.
    destruct (write_script (env w)) as [| [| completed] rest].
    + reflexivity.
    + reflexivity.
    + rewrite run_update_env.
      destruct callback as [cb |].
      2:{ rewrite bool_decide_eq_true_2 by reflexivity. reflexivity. }
      rewrite (bool_decide_eq_false_2 (Some cb = None)) by discriminate.
      cbn [andb].
      destruct (completed && notify); [| reflexivity].
      unfold swallow. rewrite run_ret.
      match goal with
      | |- context [match ?m ?w0 with _ => _ end] =>
          pose proof (call_user_pv (EvPutCallback cb callback_data) cb w0) as Hp;
          destruct (m w0) as [r w2]
      end.
      cbn [snd] in *. now rewrite Hp.
Qed.

(** ** Monitor updates *)

(** X20: a monitor update merges the translated response into the cache
    and then, when no callback raises, runs the registered callbacks once
    each, in the order of their indices, on the updated cache; if the
    response cannot be translated the exception leaves the method, the
    cache is unchanged and no callback runs. *)
Theorem monitor_update_dispatch (command : Command) (w : World) (tf es : pyval) :
  _args (pv w) !! "typefull" = Some tf ->
  _args (pv w) !! "enum_strs" = Some es ->
  (forall info,
      _read_response_to_pyepics tf command es = Ok info ->
      (forall i fcn kwargs,
          callbacks (pv w) !! i = Some (fcn, kwargs) -> cb_raises (env w) fcn = false) ->
      let p := set__args (info ∪ _args (pv w)) (pv w) in
      exists evs,
        __on_changes command w
        = (Ok tt, {| pv := p; env := env w; trace := trace w ++ evs |})
        /\ Forall2 (dispatch_of p) (sorted_keys (callbacks (pv w))) evs)
  /\ (forall e,
         _read_response_to_pyepics tf command es = Raise e ->
         __on_changes command w = (Raise e, w)).
Proof.
  intros Htf Hes. unfold __on_changes, typefull.
  rewrite (bind_eq_ok _ _ _ _ _ (args_item_some _ _ _ Htf)).
  rewrite (bind_eq_ok _ _ _ _ _ (args_item_some _ _ _ Hes)).
  split.
  - intros info -> Hquiet. cbn zeta. rewrite run_lift, run_args_update.
    unfold run_callbacks. rewrite run_self. unfold with_pv. cbn [pv env trace].
    apply (for_each_run_callback _ (set__args (info ∪ _args (pv w)) (pv w))).
    intros i Hi. apply sorted_keys_elem in Hi. destruct Hi as [[fcn kwargs] Hcb].
    exists fcn, kwargs. split; [exact Hcb | now apply (Hquiet i fcn kwargs)].
  - intros e ->. reflexivity.
Qed.

Lemma monitor_update_dispatch_witness :
  exists info evs,
    _read_response_to_pyepics (PType TIME_DOUBLE) sample_time_enum_response PNone = Ok info
    /\ __on_changes sample_time_enum_response registry_world
       = (Ok tt, {| pv := set__args (info ∪ _args (pv registry_world)) (pv registry_world);
                    env := env registry_world;
                    trace := trace registry_world ++ evs |})
    /\ Forall2 (dispatch_of (set__args (info ∪ _args (pv registry_world))
                               (pv registry_world)))
         (sorted_keys (callbacks (pv registry_world))) evs.
Proof.
  assert (H : exists info,
             _read_response_to_pyepics (PType TIME_DOUBLE) sample_time_enum_response PNone
             = Ok info) by (eexists; reflexivity).
  destruct H as [info Hinfo].
  destruct (proj1 (monitor_update_dispatch sample_time_enum_response registry_world
                     (PType TIME_DOUBLE) PNone
                     ltac:(vm_compute; reflexivity) ltac:(vm_compute; reflexivity))
              info Hinfo) as (evs & Hrun & Hdisp).
  - intros i fcn kwargs _. vm_compute. reflexivity.
  - exists info, evs. split; [exact Hinfo |]. split; [exact Hrun | exact Hdisp].
Defined.

(** ** Metadata reads *)

Lemma channel_read_pv (ev : Event) (w : World) (r : Res Command) (w' : World) :
  channel_read ev w = (r, w') -> pv w' = pv w.
Proof.
  intros H. destruct (channel_read_trace ev w) as [_ Hp]. now rewrite H in Hp.
Qed.

Lemma read_and_update_inv (dtype : ChannelType) (timeout : Timeout) (w w' : World)
    (r : Command * gmap string pyval) :
  _read_and_update dtype timeout w = (Ok r, w') ->
  exists es,
    _read_response_to_pyepics (PType dtype) (fst r) es = Ok (snd r)
    /\ pv w' = set__args (snd r ∪ _args (pv w)) (pv w).
Proof.
  unfold _read_and_update. intros H.
  apply bind_ok in H. destruct H as (command & w1 & Hread & H).
  apply channel_read_pv in Hread.
  apply bind_ok in H. destruct H as (es & w2 & Hes & H).
  assert (w2 = w1) as ->.
  { unfold args_item, bind, self in Hes.
    destruct (_args (pv w1) !! "enum_strs"); now injection Hes. }
  apply bind_ok in H. destruct H as (info & w3 & Hinfo & H).
  unfold lift in Hinfo. injection Hinfo as Hinfo <-.
  rewrite run_args_update in H. injection H as <- <-.
  exists es. split; [exact Hinfo |]. cbn [snd pv with_pv]. now rewrite Hread.
Qed.

Lemma translated_keys (ft : pyval) (command : Command) (es : pyval)
    (info : gmap string pyval) (k : string) :
  _read_response_to_pyepics ft command es = Ok info ->
  is_Some (info !! k) ->
  k ∈ ["raw_value"; "value"; "char_value"] ++ metadata_keys.
Proof.
  intros Hinfo Hk.
  destruct (read_response_lookup ft command es info Hinfo) as (_ & _ & _ & Hother).
  destruct (decide (k = "raw_value")) as [-> | H1]; [set_solver |].
  destruct (decide (k = "value")) as [-> | H2]; [set_solver |].
  destruct (decide (k = "char_value")) as [-> | H3]; [set_solver |].
  rewrite Hother in Hk by assumption.
  apply elem_of_app. right. now apply (metadata_keys_complete (metadata command)).
Qed.

Lemma args_item_world (key : string) (w w' : World) (r : Res pyval) :
  args_item key w = (r, w') -> w' = w.
Proof.
  unfold args_item, bind, self. destruct (_args (pv w) !! key); now intros [= _ <-].
Qed.

Lemma field_type_item_world (type_key : string) (t : pyval) (w w' : World)
    (r : Res ChannelType) :
  field_type_item type_key t w = (r, w') -> w' = w.
Proof.
  unfold field_type_item. destruct t; try (now intros [= _ <-]).
  destruct (field_types type_key t); now intros [= _ <-].
Qed.

Lemma access_rights_changed_inv (ch : CaPV) (rights : Z) (w w' : World) (u : unit) :
  _access_rights_changed ch rights w = (Ok u, w') ->
  exists access, _args (pv w') = access_entries rights access ∪ _args (pv w).
Proof.
  destruct (seq_getitem access_strs rights) as [access | e] eqn:Ha.
  - rewrite (access_rights_changed_result ch rights access w Ha).
    intros [= _ <-]. exists access. reflexivity.
  - unfold _access_rights_changed. rewrite run_update. cbv zeta. rewrite Ha.
    discriminate.
Qed.

Lemma metadata_not_access (ft : pyval) (command : Command) (es : pyval)
    (info : gmap string pyval) (k : string) :
  _read_response_to_pyepics ft command es = Ok info ->
  is_Some (info !! k) ->
  k <> "write_access" /\ k <> "read_access" /\ k <> "access".
Proof.
  intros Hinfo Hk. pose proof (translated_keys ft command es info k Hinfo Hk) as Hin.
  repeat split; intros ->; revert Hin; apply (proj1 (bool_decide_eq_false _));
    vm_compute; reflexivity.
Qed.

(** X21: when [get_ctrlvars] or [get_timevars] returns, the handle is
    connected and every entry of the returned dictionary is in the cache
    with the same value. *)
Theorem metadata_fetch_lands_in_cache (w w' : World) (info : gmap string pyval) :
  get_ctrlvars w = (Ok info, w') \/ get_timevars w = (Ok info, w') ->
  PV_connected (pv w') = true
  /\ forall k v, info !! k = Some v -> _args (pv w') !! k = Some v.
Proof.
  intros [H | H].
  - unfold get_ctrlvars, ensure_connection in H.
    apply bind_ok in H. destruct H as (c & w1 & Hwait & H).
    pose proof (wait_for_connection_post (TSeconds 5000) w) as Hpost.
    rewrite Hwait in Hpost. destruct Hpost as [_ Hconn].
    apply bind_ok in H. destruct H as (t & w2 & Ht & H).
    apply args_item_world in Ht. subst w2.
    apply bind_ok in H. destruct H as (dt & w2 & Hdt & H).
    apply field_type_item_world in Hdt. subst w2.
    apply bind_ok in H. destruct H as (r & w2 & Hread & H).
    destruct (read_and_update_inv _ _ _ _ _ Hread) as (es & Hinfo & Hpv).
    apply bind_ok in H. destruct H as (u & w3 & Hforce & H).
    injection H as <- <-.
    assert (Hconn2 : PV_connected (pv w2) = true) by (now rewrite Hpv).
    unfold force_read_access_rights in Hforce.
    rewrite ensure_connection_connected in Hforce by assumption.
    rewrite run_self in Hforce.
    destruct (ca_channel (_caproto_pv (pv w2))) as [ch |] eqn:Hch; [| discriminate Hforce].
    assert (Hconn3 : PV_connected (pv w3) = true).
    { destruct (seq_getitem access_strs (access_rights ch)) as [access | e] eqn:Ha.
      - rewrite (access_rights_changed_result _ _ access w2 Ha) in Hforce.
        injection Hforce as _ <-. exact Hconn2.
      - unfold _access_rights_changed in Hforce. rewrite run_update in Hforce.
        cbv zeta in Hforce. rewrite Ha in Hforce. discriminate Hforce. }
    split; [exact Hconn3 |].
    destruct (access_rights_changed_inv _ _ _ _ _ Hforce) as (access & Hargs).
    intros k v Hk. rewrite Hargs.
    destruct (metadata_not_access _ _ _ _ k Hinfo) as (? & ? & ?); [eauto |].
    destruct (access_entries_lookup (access_rights ch) access (_args (pv w2)))
      as (_ & _ & _ & Hother).
    rewrite Hother by assumption. rewrite Hpv. cbn [_args set__args].
    now apply lookup_union_Some_l.
  - unfold get_timevars, ensure_connection in H.
    apply bind_ok in H. destruct H as (c & w1 & Hwait & H).
    pose proof (wait_for_connection_post (TSeconds 5000) w) as Hpost.
    rewrite Hwait in Hpost. destruct Hpost as [_ Hconn].
    apply bind_ok in H. destruct H as (t & w2 & Ht & H).
    apply args_item_world in Ht. subst w2.
    apply bind_ok in H. destruct H as (dt & w2 & Hdt & H).
    apply field_type_item_world in Hdt. subst w2.
    apply bind_ok in H. destruct H as (r & w2 & Hread & H).
    destruct (read_and_update_inv _ _ _ _ _ Hread) as (es & Hinfo & Hpv).
    injection H as <- <-.
    split; [now rewrite Hpv |].
    intros k v Hk. rewrite Hpv. cbn [_args set__args]. now apply lookup_union_Some_l.
Qed.

Lemma ok_pair {A} (d : A) (r : Res A * World) :
  match fst r with Ok _ => true | Raise _ => false end = true ->
  r = (Ok (match fst r with Ok a => a | Raise _ => d end), snd r).
Proof. destruct r as [[a | e] w]; [reflexivity | discriminate]. Qed.

Lemma metadata_fetch_lands_in_cache_witness :
  let r := get_ctrlvars enum_world in
  PV_connected (pv (snd r)) = true
  /\ forall k v,
       match fst r with Ok info => info | Raise _ => ∅ end !! k = Some v ->
       _args (pv (snd r)) !! k = Some v.
Proof.
  cbn zeta.
  apply (metadata_fetch_lands_in_cache enum_world). left.
  apply (ok_pair ∅). vm_compute. reflexivity.
Defined.

(** ** Properties answered from the cache *)

Lemma starts_bind_l {A B} (ev : Event) (P : Event -> Prop) (m : M A) (k : A -> M B)
    (w : World) :
  starts_with ev P m w -> (forall a, respects (emits P) (k a)) ->
  starts_with ev P (bind m k) w.
Proof.
  intros (post & Ht & Fp) Hk. unfold starts_with, bind.
  destruct (m w) as [[a | e] w1]; cbn [snd] in *; [| exists post; now split].
  destruct (Hk a w1) as (evs & Ht2 & Fe).
  exists (post ++ evs). split; [| now apply Forall_app].
  rewrite Ht2, Ht, <- app_assoc. reflexivity.
Qed.

Lemma starts_bind_r {A B} (ev : Event) (P : Event -> Prop) (m : M A) (k : A -> M B)
    (w : World) (a : A) :
  m w = (Ok a, w) -> starts_with ev P (k a) w -> starts_with ev P (bind m k) w.
Proof. intros Hm H. unfold starts_with. now rewrite (bind_eq_ok _ _ _ _ _ Hm). Qed.

Lemma starts_channel_read (ev : Event) (P : Event -> Prop) (w : World) :
  starts_with ev P (channel_read ev) w.
Proof.
  exists []. split; [| constructor]. now destruct (channel_read_trace ev w) as [-> _].
Qed.

Lemma lazy_fetch_starts (P : Event -> Prop) `{HR : !Respected (emits P)}
    (get : M pyval) (arg : string) (w : World) (v : pyval) (b : Basic) :
  _args (pv w) !! "value" = Some v -> is_None v = false ->
  _args (pv w) !! arg = Some PNone ->
  PV_connected (pv w) = true ->
  _args (pv w) !! "type" = Some (PType (DBR NATIVE b)) ->
  starts_with
    (EvReadMeta (DBR (if bool_decide (arg ∈ time_keys) then TIME else CTRL) b)
       (TSeconds 5000)) P (_getarg_with get arg) w.
Proof.
  intros Hv Hnv Ha Hc Ht. unfold _getarg_with.
  eapply starts_bind_r; [exact (args_item_some _ _ _ Hv) |]. rewrite Hnv.
  eapply starts_bind_r; [reflexivity |].
  eapply starts_bind_r; [exact (args_item_some _ _ _ Ha) |].
  eapply starts_bind_r; [unfold connected; rewrite run_self; reflexivity |].
  rewrite Hc. cbn [is_None andb]. fold time_keys.
  pose proof (emits_wait_respected P) as HW.
  apply starts_bind_l; [| intros; respects_tac].
  destruct (bool_decide (arg ∈ time_keys)).
  - apply starts_bind_l; [| intros; respects_tac].
    unfold get_timevars. unfold starts_with.
    rewrite ensure_connection_connected by assumption.
    change (starts_with (EvReadMeta (DBR TIME b) (TSeconds 5000)) P
              (t <- type_ ;;
               dt <- field_type_item "time" t ;;
               r <- _read_and_update dt (TSeconds 5000) ;;
               ret (snd r)) w).
    eapply starts_bind_r; [exact (args_item_some _ _ _ Ht) |].
    eapply starts_bind_r; [reflexivity |].
    apply starts_bind_l; [| intros; respects_tac].
    unfold _read_and_update.
    apply starts_bind_l; [apply starts_channel_read | intros; respects_tac].
  - apply starts_bind_l; [| intros; respects_tac].
    unfold get_ctrlvars. unfold starts_with.
    rewrite ensure_connection_connected by assumption.
    change (starts_with (EvReadMeta (DBR CTRL b) (TSeconds 5000)) P
              (t <- type_ ;;
               dt <- field_type_item "control" t ;;
               r <- _read_and_update dt (TSeconds 5000) ;;
               force_read_access_rights ;;; ret (snd r)) w).
    eapply starts_bind_r; [exact (args_item_some _ _ _ Ht) |].
    eapply starts_bind_r; [reflexivity |].
    apply starts_bind_l.
    2:{ intros r. apply (respects_bind (emits P)); [| intros; respects_tac].
        apply (respects_force_read_access_rights (emits P)). }
    unfold _read_and_update.
    apply starts_bind_l; [apply starts_channel_read | intros; respects_tac].
Qed.

(** X22: once a value is cached, a property whose entry is cached is
    answered without any call and without changing the handle; an entry
    that is [None] on a connected handle makes the first call a metadata
    read with a timeout of five seconds, in time form for the five time
    entries and in control form otherwise, followed by no write and no
    value read; a name that is not in the cache raises [KeyError]. *)
Theorem property_lookup (depth : nat) (arg : string) (w : World) (v : pyval) :
  _args (pv w) !! "value" = Some v -> is_None v = false ->
  (forall a, _args (pv w) !! arg = Some a -> is_None a = false ->
     _getarg depth arg w = (Ok a, w))
  /\ (forall b, _args (pv w) !! arg = Some PNone ->
        PV_connected (pv w) = true ->
        _args (pv w) !! "type" = Some (PType (DBR NATIVE b)) ->
        exists post,
          trace (snd (_getarg depth arg w))
          = trace w ++ EvReadMeta (DBR (if bool_decide (arg ∈ time_keys)
                                        then TIME else CTRL) b) (TSeconds 5000) :: post
          /\ Forall not_value_read post /\ Forall not_write post)
  /\ (_args (pv w) !! arg = None -> _getarg depth arg w = (Raise KeyError, w)).
Proof.
  intros Hv Hnv. split; [| split].
  - intros a Ha Hna. now apply (getarg_cached _ arg w v a).
  - intros b Ha Hc Ht.
    destruct (lazy_fetch_starts not_value_read
                (get depth None false true TNone false true) arg w v b Hv Hnv Ha Hc Ht)
      as (post & Hpost & Fr).
    destruct (lazy_fetch_starts not_write
                (get depth None false true TNone false true) arg w v b Hv Hnv Ha Hc Ht)
      as (post' & Hpost' & Fw).
    exists post. split; [exact Hpost |]. split; [exact Fr |].
    unfold _getarg in Hpost, Hpost'. rewrite Hpost in Hpost'.
    apply app_inv_head in Hpost'. injection Hpost' as <-. exact Fw.
  - intros Ha. unfold _getarg, _getarg_with.
    rewrite (bind_eq_ok _ _ _ _ _ (args_item_some _ _ _ Hv)). rewrite Hnv.
    rewrite run_ret.
    apply bind_eq_raise. unfold args_item. rewrite run_self, Ha. reflexivity.
Qed.

Lemma property_lookup_witness :
  _getarg 2 "count" enum_world = (Ok (PInt 1), enum_world)
  /\ (exists post,
         trace (snd (_getarg 2 "severity" enum_world))
         = trace enum_world ++ EvReadMeta TIME_ENUM (TSeconds 5000) :: post
         /\ Forall not_value_read post /\ Forall not_write post)
  /\ _getarg 2 "no_such_entry" enum_world = (Raise KeyError, enum_world).
Proof.
  split; [| split].
  - apply (proj1 (property_lookup 2 "count" enum_world (PNp 1) eq_refl eq_refl)
             (PInt 1)); reflexivity.
  - apply (proj1 (proj2 (property_lookup 2 "severity" enum_world (PNp 1) eq_refl eq_refl))
             B_ENUM); reflexivity.
  - apply (proj2 (proj2 (property_lookup 2 "no_such_entry" enum_world (PNp 1)
                           eq_refl eq_refl))).
    reflexivity.
Defined.

(** ** [get_with_metadata], from the channel and from the cache *)

Lemma fetch_when_required (type_key : string) (as_string use_monitor : bool)
    (count : option Z) (timeout : Timeout) (md : gmap string pyval) (w : World)
    (t dt : ChannelType) (cached : pyval) :
  _args (pv w) !! "type" = Some (PType t) ->
  field_types type_key t = Some dt ->
  _args (pv w) !! "value" = Some cached ->
  read_required as_string use_monitor dt (_auto_monitor_sub (pv w)) cached count ->
  get_with_metadata_fetch type_key as_string use_monitor count timeout md w
  = (command <- channel_read (EvRead (requested_type as_string dt) count timeout) ;;
     tf <- typefull ;;
     es <- args_item "enum_strs" ;;
     response <- lift (_read_response_to_pyepics tf command es) ;;
     args_update response ;;;
     ret (response ∪ md)) w.
Proof.
  intros Ht Hft Hv Hreq.
  pose proof (needs_network_read_spec as_string use_monitor dt
                (_auto_monitor_sub (pv w)) cached count) as [Hneed _].
  cbn zeta in Hneed. specialize (Hneed Hreq).
  unfold get_with_metadata_fetch, type_.
  rewrite (bind_eq_ok _ _ _ _ _ (args_item_some _ _ _ Ht)).
  unfold field_type_item. rewrite Hft.
  rewrite (bind_eq_ok _ _ w w dt) by reflexivity.
  unfold requested_type.
  destruct (negb as_string && type_in (PType dt) char_types) eqn:Hforced.
  - apply andb_true_iff in Hforced. destruct Hforced as [_ Hchar].
    destruct (re_map_char dt Hchar) as [dt' Hdt']. rewrite Hdt'.
    rewrite (bind_eq_ok _ _ w w (dt', false)) by reflexivity.
    cbn [fst snd default].
    rewrite (bind_eq_ok _ _ _ _ _ (args_item_some _ _ _ Hv)).
    rewrite (bind_eq_ok _ _ w w (pv w)) by reflexivity.
    rewrite (bind_eq_ok _ _ w w true); [reflexivity |].
    unfold lift. now rewrite Hneed.
  - rewrite (bind_eq_ok _ _ w w (dt, use_monitor)) by reflexivity.
    cbn [fst snd].
    rewrite (bind_eq_ok _ _ _ _ _ (args_item_some _ _ _ Hv)).
    rewrite (bind_eq_ok _ _ w w (pv w)) by reflexivity.
    rewrite (bind_eq_ok _ _ w w true); [reflexivity |].
    unfold lift. now rewrite Hneed.
Qed.

Lemma get_with_metadata_direct (depth : nat) (a : GetArgs) (w : World) :
  PV_connected (pv w) = true ->
  direct_call a (pv w) ->
  get_with_metadata (S depth) a w
  = (md <- get_with_metadata_fetch (effective_type_key a (pv w)) (g_as_string a)
             (g_use_monitor a) (effective_count a (pv w)) (effective_timeout a (pv w))
             (if g_use_monitor a then _args (pv w) else ∅) ;;
     tf <- typefull ;;
     enum_strs <- (if g_as_string a && type_in tf enum_types
                   then _getarg_with
                          (get_with (get_with_metadata depth) None false true TNone
                             false true) "enum_strs"
                   else ret PNone) ;;
     raw_value <- dict_item md "raw_value" ;;
     char_value <- dict_item md "char_value" ;;
     tf <- typefull ;;
     native_count <- args_item "count" ;;
     v <- lift (_pyepics_get_value raw_value char_value tf native_count
                  (effective_count a (pv w)) enum_strs (g_as_string a) (g_as_numpy a)) ;;
     ret (<["value" := v]> md)) w.
Proof.
  intros Hconn Hdirect. unfold direct_call, effective_type_key in Hdirect.
  cbn [get_with_metadata]. unfold get_with_metadata_body.
  rewrite ensure_connection_connected by assumption.
  rewrite run_self. cbv zeta.
  change (match g_form a with Some f => f | None => form (pv w) end)
    with (default (form (pv w)) (g_form a)).
  rewrite Hdirect.
  unfold effective_type_key, effective_timeout, effective_count.
  destruct (g_use_monitor a); reflexivity.
Qed.

Lemma channel_read_timeout (ev : Event) (w : World) :
  match read_script (env w) with Some _ :: _ => False | _ => True end ->
  exists w', channel_read ev w = (Raise CaprotoTimeoutError, w')
             /\ pv w' = pv w /\ trace w' = trace w ++ [ev].
Proof.
  intros H. unfold channel_read. rewrite run_emit, run_the_env. world_simpl.
  destruct (read_script (env w)) as [| [c |] rest]; [| contradiction |].
  - eexists. split; [reflexivity |]. split; reflexivity.
  - rewrite run_update_env. eexists. split; [reflexivity |]. split; reflexivity.
Qed.

Lemma channel_read_answer (ev : Event) (w : World) (c : Command)
    (rest : list (option Command)) :
  read_script (env w) = Some c :: rest ->
  channel_read ev w
  = (Ok c, with_env (set_read_script rest (env w)) (with_events [ev] w)).
Proof.
  intros H. unfold channel_read. rewrite run_emit, run_the_env. world_simpl.
  rewrite H. rewrite run_update_env. reflexivity.
Qed.

(** X23: when [get_with_metadata] on a connected handle has to read from
    the channel and the channel does not answer, the method raises
    [CaprotoTimeoutError] (it does not return [None]), having made exactly
    that one read, and the handle and its cache are unchanged. *)
Theorem get_timeout_raises (depth : nat) (a : GetArgs) (w : World)
    (t dt : ChannelType) (cached : pyval) :
  PV_connected (pv w) = true ->
  direct_call a (pv w) ->
  _args (pv w) !! "type" = Some (PType t) ->
  field_types (effective_type_key a (pv w)) t = Some dt ->
  _args (pv w) !! "value" = Some cached ->
  read_required (g_as_string a) (g_use_monitor a) dt (_auto_monitor_sub (pv w)) cached
    (effective_count a (pv w)) ->
  match read_script (env w) with Some _ :: _ => False | _ => True end ->
  let result := get_with_metadata (S depth) a w in
  fst result = Raise CaprotoTimeoutError
  /\ pv (snd result) = pv w
  /\ trace (snd result)
     = trace w ++ [EvRead (requested_type (g_as_string a) dt) (effective_count a (pv w))
                     (effective_timeout a (pv w))].
Proof.
  intros Hconn Hdirect Ht Hft Hv Hreq Hscript. cbn zeta.
  rewrite get_with_metadata_direct by assumption.
  destruct (channel_read_timeout
              (EvRead (requested_type (g_as_string a) dt) (effective_count a (pv w))
                 (effective_timeout a (pv w))) w Hscript) as (w' & Hread & Hpv & Htr).
  rewrite (bind_eq_raise _ _ w w' CaprotoTimeoutError).
  - auto.
  - rewrite (fetch_when_required _ _ _ _ _ _ w t dt cached) by assumption.
    now apply bind_eq_raise.
Qed.

Lemma get_timeout_raises_witness :
  let w := connected_world DOUBLE 1 3 (script_env [] [None] []) in
  fst (get_with_metadata 1 default_get_args w) = Raise CaprotoTimeoutError
  /\ pv (snd (get_with_metadata 1 default_get_args w)) = pv w.
Proof.
  cbn zeta.
  set (w := connected_world DOUBLE 1 3 (script_env [] [None] [])).
  assert (H1 : PV_connected (pv w) = true) by reflexivity.
  assert (H2 : direct_call default_get_args (pv w)) by reflexivity.
  assert (H3 : _args (pv w) !! "type" = Some (PType DOUBLE)) by reflexivity.
  assert (H4 : field_types (effective_type_key default_get_args (pv w)) DOUBLE
               = Some TIME_DOUBLE) by reflexivity.
  assert (H5 : _args (pv w) !! "value" = Some PNone) by reflexivity.
  assert (H6 : read_required (g_as_string default_get_args)
                 (g_use_monitor default_get_args) TIME_DOUBLE
                 (_auto_monitor_sub (pv w)) PNone
                 (effective_count default_get_args (pv w))).
  { right. right. left. reflexivity. }
  assert (H7 : match read_script (env w) with Some _ :: _ => False | _ => True end)
    by exact I.
  destruct (get_timeout_raises 0 default_get_args w DOUBLE TIME_DOUBLE PNone
              H1 H2 H3 H4 H5 H6 H7) as (R1 & R2 & _).
  split; assumption.
Defined.

Lemma translated_no_key (ft : pyval) (command : Command) (es : pyval)
    (info : gmap string pyval) (k : string) :
  _read_response_to_pyepics ft command es = Ok info ->
  bool_decide (k ∈ ["raw_value"; "value"; "char_value"] ++ metadata_keys) = false ->
  info !! k = None.
Proof.
  intros Hinfo Hk. destruct (info !! k) as [v |] eqn:E; [| reflexivity].
  exfalso. apply bool_decide_eq_false in Hk. apply Hk.
  apply (translated_keys ft command es info k Hinfo). eauto.
Qed.

(** X24: a call of [get_with_metadata] on a connected handle that does
    not fetch the control form first (no [with_ctrlvars], or the form is
    control or native) and that, when it asks for the text of an enum
    ([as_string] on an enum type), gets an answer whose value is not [None]
    and finds the enum names in the answer or in the cache.  When such a
    call has to read from the channel and the channel answers with a
    response that is translated and converted without error, it makes
    exactly one read, with the requested type, count and timeout, merges
    the translated answer into the cache, and returns the answer (over a
    copy of the old cache when [use_monitor] is set) with [value] replaced
    by the conversion of the answer's data; the replacement is made in the
    returned dictionary only. *)
Theorem get_returns_fresh_value (depth : nat) (a : GetArgs) (w : World)
    (t dt : ChannelType) (cached tf es nc cv names v : pyval) (command : Command)
    (rest : list (option Command)) (info : gmap string pyval) :
  PV_connected (pv w) = true ->
  direct_call a (pv w) ->
  _args (pv w) !! "type" = Some (PType t) ->
  field_types (effective_type_key a (pv w)) t = Some dt ->
  _args (pv w) !! "value" = Some cached ->
  read_required (g_as_string a) (g_use_monitor a) dt (_auto_monitor_sub (pv w)) cached
    (effective_count a (pv w)) ->
  read_script (env w) = Some command :: rest ->
  _args (pv w) !! "typefull" = Some tf ->
  _args (pv w) !! "enum_strs" = Some es ->
  _args (pv w) !! "count" = Some nc ->
  _read_response_to_pyepics tf command es = Ok info ->
  info !! "char_value" = Some cv ->
  (if g_as_string a && type_in tf enum_types
   then (exists val, info !! "value" = Some val /\ is_None val = false)
        /\ (info ∪ _args (pv w)) !! "enum_strs" = Some names /\ is_None names = false
   else names = PNone) ->
  _pyepics_get_value (data command) cv tf nc (effective_count a (pv w)) names
    (g_as_string a) (g_as_numpy a) = Ok v ->
  get_with_metadata (S depth) a w
  = (Ok (<["value" := v]> (info ∪ (if g_use_monitor a then _args (pv w) else ∅))),
     with_pv (set__args (info ∪ _args (pv w)) (pv w))
       (with_env (set_read_script rest (env w))
          (with_events [EvRead (requested_type (g_as_string a) dt)
                          (effective_count a (pv w)) (effective_timeout a (pv w))] w))).
Proof.
  intros Hconn Hdirect Ht Hft Hv Hreq Hscript Htf Hes Hnc Hinfo Hcv Hnames Hval.
  rewrite get_with_metadata_direct by assumption.
  set (md0 := if g_use_monitor a then _args (pv w) else ∅).
  set (ev := EvRead _ _ _).
  set (w1 := with_env (set_read_script rest (env w)) (with_events [ev] w)).
  set (w2 := with_pv (set__args (info ∪ _args (pv w)) (pv w)) w1).
  destruct (read_response_lookup tf command es info Hinfo) as (Hraw & _ & _ & _).
  assert (Hargs2 : _args (pv w2) = info ∪ _args (pv w)) by reflexivity.
  assert (Htf2 : _args (pv w2) !! "typefull" = Some tf).
  { rewrite Hargs2. rewrite lookup_union_r; [exact Htf |].
    now apply (translated_no_key tf command es). }
  assert (Hnc2 : _args (pv w2) !! "count" = Some nc).
  { rewrite Hargs2. rewrite lookup_union_r; [exact Hnc |].
    now apply (translated_no_key tf command es). }
  rewrite (bind_eq_ok _ _ w w2 (info ∪ md0)).
  - unfold typefull.
    rewrite (bind_eq_ok _ _ _ _ _ (args_item_some _ _ _ Htf2)).
    rewrite (bind_eq_ok _ _ w2 w2 names).
    + unfold dict_item.
      rewrite (lookup_union_Some_l info md0 _ _ Hraw), run_ret.
      rewrite (lookup_union_Some_l info md0 _ _ Hcv), run_ret.
      rewrite (bind_eq_ok _ _ _ _ _ (args_item_some _ _ _ Htf2)).
      rewrite (bind_eq_ok _ _ _ _ _ (args_item_some _ _ _ Hnc2)).
      rewrite Hval, run_lift. reflexivity.
    + destruct (g_as_string a && type_in tf enum_types).
      * destruct Hnames as ((val & Hvalue & Hnn) & Hnm & Hnone).
        apply (getarg_cached _ "enum_strs" w2 val names);
          [| exact Hnn | exact Hnm | exact Hnone].
        rewrite Hargs2. now apply lookup_union_Some_l.
      * now subst names.
  - rewrite (fetch_when_required _ _ _ _ _ _ w t dt cached) by assumption.
    fold ev.
    rewrite (bind_eq_ok _ _ _ _ _ (channel_read_answer ev w command rest Hscript)).
    fold w1. unfold typefull.
    rewrite (bind_eq_ok _ _ w1 w1 tf) by (apply args_item_some; exact Htf).
    rewrite (bind_eq_ok _ _ w1 w1 es) by (apply args_item_some; exact Hes).
    rewrite Hinfo, run_lift, run_args_update. reflexivity.
Qed.

Lemma res_ok {A} (d : A) (r : Res A) :
  match r with Ok _ => true | Raise _ => false end = true ->
  r = Ok (match r with Ok a => a | Raise _ => d end).
Proof. destruct r; [reflexivity | discriminate]. Qed.

Lemma get_returns_fresh_value_witness :
  let w := with_cache {["enum_strs" := PSeq [PStr "off"; PStr "on"]]}
             (connected_world ENUM 2 3
                (script_env [] [Some sample_time_enum_response] [])) in
  let r := get_with_metadata 1 text_get_args w in
  match fst r with Ok md => md !! "value" | Raise _ => None end
  = Some (PSeq [PStr "on"; PStr ""])
  /\ read_script (env (snd r)) = []
  /\ trace (snd r) = [EvRead TIME_ENUM None (TSeconds 1000)].
Proof.
  cbn zeta.
  set (w := with_cache _ _).
  set (names := PSeq [PStr "off"; PStr "on"]).
  set (info := match _read_response_to_pyepics (PType TIME_ENUM) sample_time_enum_response
                       names with Ok i => i | Raise _ => ∅ end).
  assert (H1 : PV_connected (pv w) = true) by reflexivity.
  assert (H2 : direct_call text_get_args (pv w)) by reflexivity.
  assert (H3 : _args (pv w) !! "type" = Some (PType ENUM)) by (vm_compute; reflexivity).
  assert (H4 : field_types (effective_type_key text_get_args (pv w)) ENUM
               = Some TIME_ENUM) by reflexivity.
  assert (H5 : _args (pv w) !! "value" = Some PNone) by (vm_compute; reflexivity).
  assert (H6 : read_required (g_as_string text_get_args)
                 (g_use_monitor text_get_args) TIME_ENUM
                 (_auto_monitor_sub (pv w)) PNone
                 (effective_count text_get_args (pv w))).
  { right. right. left. reflexivity. }
  assert (H7 : read_script (env w) = [Some sample_time_enum_response]) by reflexivity.
  assert (H8 : _args (pv w) !! "typefull" = Some (PType TIME_ENUM))
    by (vm_compute; reflexivity).
  assert (H9 : _args (pv w) !! "enum_strs" = Some names) by (vm_compute; reflexivity).
  assert (H10 : _args (pv w) !! "count" = Some (PInt 2)) by (vm_compute; reflexivity).
  assert (H11 : _read_response_to_pyepics (PType TIME_ENUM) sample_time_enum_response
                  names = Ok info) by (apply (res_ok ∅); vm_compute; reflexivity).
  assert (H12 : info !! "char_value" = Some (PSeq [PStr "on"; PStr ""]))
    by (vm_compute; reflexivity).
  assert (H13 : if g_as_string text_get_args && type_in (PType TIME_ENUM) enum_types
                then (exists val, info !! "value" = Some val /\ is_None val = false)
                     /\ (info ∪ _args (pv w)) !! "enum_strs" = Some names
                     /\ is_None names = false
                else names = PNone).
  { change (g_as_string text_get_args && type_in (PType TIME_ENUM) enum_types) with true.
    cbv iota. split; [| split; [vm_compute; reflexivity | reflexivity]].
    exists (PArr (NdArray 2 true [1; 5])). split; [vm_compute; reflexivity | reflexivity]. }
  assert (H14 : _pyepics_get_value (data sample_time_enum_response)
                  (PSeq [PStr "on"; PStr ""]) (PType TIME_ENUM) (PInt 2)
                  (effective_count text_get_args (pv w)) names
                  (g_as_string text_get_args) (g_as_numpy text_get_args)
                = Ok (PSeq [PStr "on"; PStr ""])) by (vm_compute; reflexivity).
  rewrite (get_returns_fresh_value 0 text_get_args w ENUM TIME_ENUM PNone
             (PType TIME_ENUM) names (PInt 2) (PSeq [PStr "on"; PStr ""]) names
             (PSeq [PStr "on"; PStr ""]) sample_time_enum_response [] info
             H1 H2 H3 H4 H5 H6 H7 H8 H9 H10 H11 H12 H13 H14).
  split; [apply lookup_insert_eq | split; reflexivity].
Defined.

Lemma needs_network_read_total (um : bool) (sub : option Subscription)
    (cached : pyval) (count : option Z) (e : exn) :
  (forall c, count = Some c -> exists n, py_len cached = Ok n) ->
  needs_network_read um sub cached count <> Raise e.
Proof.
  intros Hlen. unfold needs_network_read.
  destruct (negb um); [discriminate |].
  destruct (negb (bool_decide (is_Some sub))); [discriminate |].
  destruct (is_None cached); [discriminate |].
  destruct count as [c |]; [| discriminate].
  destruct (Hlen c eq_refl) as [n ->]. discriminate.
Qed.

Lemma fetch_from_cache (type_key : string) (as_string use_monitor : bool)
    (count : option Z) (timeout : Timeout) (md : gmap string pyval) (w : World)
    (t dt : ChannelType) (cached : pyval) :
  _args (pv w) !! "type" = Some (PType t) ->
  field_types type_key t = Some dt ->
  _args (pv w) !! "value" = Some cached ->
  ~ read_required as_string use_monitor dt (_auto_monitor_sub (pv w)) cached count ->
  (forall c, count = Some c -> exists n, py_len cached = Ok n) ->
  get_with_metadata_fetch type_key as_string use_monitor count timeout md w = (Ok md, w).
Proof.
  intros Ht Hft Hv Hno Hlen.
  pose proof (needs_network_read_spec as_string use_monitor dt
                (_auto_monitor_sub (pv w)) cached count) as [_ Hneed].
  cbn zeta in Hneed. specialize (Hneed Hno).
  destruct Hneed as [Hneed | Hneed];
    [| now apply needs_network_read_total in Hneed].
  assert (Hforced : negb as_string && type_in (PType dt) char_types = false).
  { destruct (negb as_string && type_in (PType dt) char_types) eqn:E; [| reflexivity].
    exfalso. apply Hno. left. right. apply andb_true_iff in E. destruct E as [E1 E2].
    split; [now destruct as_string | exact E2]. }
  rewrite Hforced in Hneed.
  unfold get_with_metadata_fetch, type_.
  rewrite (bind_eq_ok _ _ _ _ _ (args_item_some _ _ _ Ht)).
  unfold field_type_item. rewrite Hft.
  rewrite (bind_eq_ok _ _ w w dt) by reflexivity.
  rewrite Hforced.
  rewrite (bind_eq_ok _ _ w w (dt, use_monitor)) by reflexivity.
  cbn [fst snd].
  rewrite (bind_eq_ok _ _ _ _ _ (args_item_some _ _ _ Hv)).
  rewrite (bind_eq_ok _ _ w w (pv w)) by reflexivity.
  rewrite (bind_eq_ok _ _ w w false); [reflexivity |].
  unfold lift. now rewrite Hneed.
Qed.

(** X25: a call of [get_with_metadata] on a connected handle that does
    not fetch the control form first (no [with_ctrlvars], or the form is
    control or native) and that, when it asks for the text of an enum
    ([as_string] on an enum type), finds the enum names in the cache.  When
    no read is required (and the cached value has a length when a count is
    requested), such a call makes no call to the channel or to a callback
    and leaves the handle unchanged, and it returns a copy of the cache
    whose [value] is converted from the cached raw value, or raises what
    the conversion raises. *)
Theorem get_answers_from_cache (depth : nat) (a : GetArgs) (w : World)
    (t dt : ChannelType) (cached tf raw cv nc names : pyval) :
  PV_connected (pv w) = true ->
  direct_call a (pv w) ->
  _args (pv w) !! "type" = Some (PType t) ->
  field_types (effective_type_key a (pv w)) t = Some dt ->
  _args (pv w) !! "value" = Some cached ->
  ~ read_required (g_as_string a) (g_use_monitor a) dt (_auto_monitor_sub (pv w)) cached
      (effective_count a (pv w)) ->
  (forall c, effective_count a (pv w) = Some c -> exists n, py_len cached = Ok n) ->
  _args (pv w) !! "typefull" = Some tf ->
  (if g_as_string a && type_in tf enum_types
   then _args (pv w) !! "enum_strs" = Some names /\ is_None names = false
   else names = PNone) ->
  _args (pv w) !! "raw_value" = Some raw ->
  _args (pv w) !! "char_value" = Some cv ->
  _args (pv w) !! "count" = Some nc ->
  get_with_metadata (S depth) a w
  = (match _pyepics_get_value raw cv tf nc (effective_count a (pv w)) names
             (g_as_string a) (g_as_numpy a) with
     | Ok v => Ok (<["value" := v]> (_args (pv w)))
     | Raise e => Raise e
     end, w).
Proof.
  intros Hconn Hdirect Ht Hft Hv Hno Hlen Htf Hnames Hraw Hcv Hnc.
  rewrite get_with_metadata_direct by assumption.
  assert (Hum : g_use_monitor a = true).
  { destruct (g_use_monitor a); [reflexivity |]. exfalso. apply Hno. left. left. reflexivity. }
  assert (Hcached : is_None cached = false).
  { destruct cached; try reflexivity. exfalso. apply Hno. right. right. left. reflexivity. }
  rewrite Hum in Hno |- *.
  rewrite (bind_eq_ok _ _ w w (_args (pv w)))
    by (now apply (fetch_from_cache _ _ _ _ _ _ w t dt cached)).
  unfold typefull.
  rewrite (bind_eq_ok _ _ _ _ _ (args_item_some _ _ _ Htf)).
  rewrite (bind_eq_ok _ _ w w names).
  - unfold dict_item. rewrite Hraw, run_ret, Hcv, run_ret.
    rewrite (bind_eq_ok _ _ _ _ _ (args_item_some _ _ _ Htf)).
    rewrite (bind_eq_ok _ _ _ _ _ (args_item_some _ _ _ Hnc)).
    destruct (_pyepics_get_value raw cv tf nc _ _ _ _) as [v | e] eqn:E.
    + rewrite run_lift. reflexivity.
    + unfold bind at 1, lift. reflexivity.
  - destruct (g_as_string a && type_in tf enum_types).
    + destruct Hnames as [Hnm Hnone].
      now apply (getarg_cached _ "enum_strs" w cached names).
    + now subst names.
Qed.

Lemma get_answers_from_cache_witness :
  get_with_metadata 1 text_get_args enum_world_with_names
  = (Ok (<["value" := PStr "on"]> (_args (pv enum_world_with_names))),
     enum_world_with_names).
Proof.
  set (w := enum_world_with_names).
  set (names := PSeq [PStr "off"; PStr "on"]).
  assert (H1 : PV_connected (pv w) = true) by reflexivity.
  assert (H2 : direct_call text_get_args (pv w)) by reflexivity.
  assert (H3 : _args (pv w) !! "type" = Some (PType ENUM)) by (vm_compute; reflexivity).
  assert (H4 : field_types (effective_type_key text_get_args (pv w)) ENUM
               = Some TIME_ENUM) by reflexivity.
  assert (H5 : _args (pv w) !! "value" = Some (PNp 1)) by (vm_compute; reflexivity).
  assert (H6 : ~ read_required (g_as_string text_get_args)
                 (g_use_monitor text_get_args) TIME_ENUM
                 (_auto_monitor_sub (pv w)) (PNp 1)
                 (effective_count text_get_args (pv w))).
  { unfold read_required.
    intros [[H | [H _]] | [H | [H | (c & n & H & _)]]];
      vm_compute in H; discriminate H. }
  assert (H7 : forall c, effective_count text_get_args (pv w) = Some c ->
                 exists n, py_len (PNp 1) = Ok n).
  { intros c H. vm_compute in H. discriminate H. }
  assert (H8 : _args (pv w) !! "typefull" = Some (PType TIME_ENUM))
    by (vm_compute; reflexivity).
  assert (H9 : if g_as_string text_get_args && type_in (PType TIME_ENUM) enum_types
               then _args (pv w) !! "enum_strs" = Some names /\ is_None names = false
               else names = PNone).
  { change (g_as_string text_get_args && type_in (PType TIME_ENUM) enum_types) with true.
    cbv iota. split; [vm_compute; reflexivity | reflexivity]. }
  assert (H10 : _args (pv w) !! "raw_value" = Some (PArr (NdArray 2 true [1])))
    by (vm_compute; reflexivity).
  assert (H11 : _args (pv w) !! "char_value" = Some PNone)
    by (vm_compute; reflexivity).
  assert (H12 : _args (pv w) !! "count" = Some (PInt 1)) by (vm_compute; reflexivity).
  rewrite (get_answers_from_cache 0 text_get_args w ENUM TIME_ENUM _ _ _ _ _ names
             H1 H2 H3 H4 H5 H6 H7 H8 H9 H10 H11 H12).
  reflexivity.
Defined.

(** ** [get_pv] and [caput] *)

Lemma PV_init_no_write (name form_ : string) (callback : CallbackArg)
    (auto_monitor_ : AutoMonitor) (count : option Z)
    (connection_callback : option cbid) (connection_timeout_ : Timeout)
    (access_callback : option cbid) (chan : CaPV) (e : Env) :
  Forall not_write
    (trace (snd (PV_init name form_ callback auto_monitor_ count connection_callback
                   connection_timeout_ access_callback chan e))).
Proof.
  unfold PV_init. cbv zeta.
  set (w := {| pv := _; env := e; trace := [] |}).
  assert (H : emits not_write w
                (snd ((if ca_connected chan
                       then _connection_state_changed chan "connected"
                       else ret tt) w))).
  { destruct (ca_connected chan).
    - apply (respects_connection_state_changed (emits not_write)).
      intros _ w0. exists []. split; [now rewrite app_nil_r | constructor].
    - apply emits_refl. }
  destruct H as (evs & -> & F). exact F.
Qed.

Lemma channel_write_plain (value : pyval) (wait : bool) (timeout : Timeout)
    (notify : bool) (w : World) :
  trace (snd (channel_write value wait None timeout notify w))
  = trace w ++ [EvWrite value wait false timeout notify].
Proof.
  unfold channel_write. rewrite run_emit, run_the_env.
  cbn [env with_events].
  destruct (write_script (env w)) as [| [| completed] rest]; try reflexivity.
Qed.

Lemma put_send_plain (value : pyval) (wait : bool) (timeout : Timeout) (w : World) :
  trace (snd (put_send value wait timeout false None [] w))
  = trace w ++ [EvWrite value wait false timeout wait].
Proof.
  unfold put_send. cbv zeta.
  rewrite (bool_decide_eq_true_2 (None = None)) by reflexivity.
  rewrite (bool_decide_eq_false_2 (is_Some None)) by (intros [? ?]; discriminate).
  cbn [negb andb orb].
  destruct wait.
  - rewrite run_assoc, run_ret, run_ret. apply channel_write_plain.
  - rewrite run_ret. apply channel_write_plain.
Qed.

(** X26: a [caput] that returns has written: the last call it made is
    the one write of an encoded value, with the caller's [wait] and
    [timeout] and without a completion callback.  The test of [connected]
    in [caput] never fails. *)
Theorem caput_returns_after_one_write (depth : nat) (context : string -> CaPV * Env)
    (pvname : string) (value : pyval) (wait : bool) (timeout : Timeout) (w' : World) :
  caput depth context pvname value wait timeout = (Ok tt, w') ->
  exists pre v,
    trace w' = pre ++ [EvWrite v wait false timeout wait]
    /\ Forall not_write pre /\ wire_ready v = true.
Proof.
  unfold caput, get_pv.
  destruct (context pvname) as [chan e].
  pose proof (PV_init_no_write pvname "time" CbNone AM_None None None TNone None chan e)
    as Finit.
  destruct (PV_init _ _ _ _ _ _ _ _ chan e) as [[u | ex] w0]; [| discriminate].
  cbn [snd] in Finit.
  pose proof (wait_for_connection_post (TSeconds 5000) w0) as Hpost.
  pose proof (respects_wait_for_connection (emits not_write) (TSeconds 5000) w0) as Hwfc.
  unfold bind at 1.
  destruct (wait_for_connection (TSeconds 5000) w0) as [[c | ex] w1]; [| discriminate].
  cbn [snd] in Hwfc. destruct Hpost as [_ Hc].
  unfold ret at 1. rewrite run_connected, Hc.
  unfold put. rewrite ensure_connection_connected by exact Hc. cbv zeta.
  intros H. apply bind_ok in H. destruct H as (v & w2 & Hv & Hsend).
  assert (Hpv : emits not_write w1 (snd (put_value depth value w1))).
  { apply (respects_put_value (emits not_write)). intros; reflexivity. }
  rewrite Hv in Hpv. cbn [snd] in Hpv.
  destruct (emits_trans _ _ _ _ Hwfc Hpv) as (evs & Hevs & Fevs).
  pose proof (put_send_plain v wait timeout w2) as Htr.
  cbn [default] in Hsend. rewrite Hsend in Htr. cbn [snd] in Htr.
  exists (trace w0 ++ evs), v. split; [| split].
  - rewrite Htr, Hevs. reflexivity.
  - apply Forall_app. now split.
  - now apply (put_value_wire_ready depth value w1 w2).
Qed.

(** X27: [caput] to a channel that does not connect raises
    [CaprotoTimeoutError] after waiting for the five seconds of [get_pv],
    whatever [timeout] was passed, and writes nothing. *)
Theorem caput_unreachable_raises (depth : nat) (context : string -> CaPV * Env)
    (pvname : string) (value : pyval) (wait : bool) (timeout : Timeout)
    (chan : CaPV) (e : Env) :
  context pvname = (chan, e) ->
  ca_connected chan = false ->
  match conn_script e with CO_Returns _ _ :: _ => False | _ => True end ->
  let r := caput depth context pvname value wait timeout in
  fst r = Raise CaprotoTimeoutError
  /\ trace (snd r) = [EvWaitForConnection (TSeconds 5000)].
Proof.
  intros Hctx Hnc Hscript. cbn zeta. unfold caput, get_pv. rewrite Hctx.
  unfold PV_init. cbv zeta. rewrite Hnc.
  set (w0 := {| pv := _; env := e; trace := [] |}).
  assert (Hw : wait_for_connection (TSeconds 5000) w0
               = (Raise CaprotoTimeoutError,
                  snd (wait_for_connection (TSeconds 5000) w0))
               /\ trace (snd (wait_for_connection (TSeconds 5000) w0))
                  = [EvWaitForConnection (TSeconds 5000)]).
  { unfold wait_for_connection. rewrite run_self, run_connected.
    assert (Hc : PV_connected (pv w0) = false) by (unfold PV_connected; cbn; now rewrite Hnc).
    rewrite Hc. rewrite run_update.
    unfold channel_wait_for_connection. rewrite !run_assoc, run_emit, run_assoc, run_the_env.
    set (w1 := with_events _ _).
    change (conn_script (env w1)) with (conn_script e).
    destruct (conn_script e) as [| [| ch st] rest]; [| | contradiction]; split; reflexivity. }
  destruct Hw as [Hw Htr].
  change (ret tt w0) with (Ok tt, w0). cbv beta iota.
  rewrite (bind_eq_raise _ _ _ _ _ Hw). split; [reflexivity | exact Htr].
Qed.

Lemma caput_unreachable_raises_witness :
  let context := fun _ : string => (idle_channel, script_env [CO_Timeout] [] []) in
  fst (caput 1 context "pv" (PInt 5) true (TSeconds 60000)) = Raise CaprotoTimeoutError.
Proof.
  cbn zeta.
  apply (caput_unreachable_raises 1
           (fun _ => (idle_channel, script_env [CO_Timeout] [] []))
           "pv" (PInt 5) true (TSeconds 60000)
           idle_channel (script_env [CO_Timeout] [] []));
    [reflexivity | reflexivity | exact I].
Defined.

Lemma ok_unit (r : Res unit * World) :
  match fst r with Ok _ => true | Raise _ => false end = true -> r = (Ok tt, snd r).
Proof. destruct r as [[[] | e] w]; [reflexivity | discriminate]. Qed.

Lemma caput_returns_after_one_write_witness :
  let context := fun _ : string =>
                   (sample_channel DOUBLE 1 3, script_env [] [] [WO_Returns true]) in
  exists pre v,
    trace (snd (caput 1 context "pv" (PInt 5) true (TSeconds 60000)))
    = pre ++ [EvWrite v true false (TSeconds 60000) true]
    /\ Forall not_write pre /\ wire_ready v = true.
Proof.
  cbn zeta.
  apply (caput_returns_after_one_write 1
           (fun _ => (sample_channel DOUBLE 1 3, script_env [] [] [WO_Returns true]))
           "pv" (PInt 5) true (TSeconds 60000)
           (snd (caput 1 (fun _ => (sample_channel DOUBLE 1 3,
                                    script_env [] [] [WO_Returns true]))
                   "pv" (PInt 5) true (TSeconds 60000)))).
  apply ok_unit. vm_compute. reflexivity.
Defined.
